(** * SSD1306 display plugin: driver, text layout and display scheduler

    A shallow embedding of [ssd1306/ssd1306.py].  The [Lcd] object is a
    record threaded through every operation; the I2C bus it owns is a
    transcript of the transactions attempted so far together with an
    oracle that decides which of them fail.  Python exceptions that
    escape a method are a [Raise] result; the ones a method catches
    itself ([except Exception]) are handled inside the model of that
    method, as in the source.  Integer [/] is the floor division of
    Python 2, for which the module's arithmetic is written; [//] and [%]
    are [Z.div] and [Z.modulo], which round as Python does. *)

From Stdlib Require Import String Ascii DecimalString.
From Stdlib Require Import ZArith List Bool Lia Arith.
Import ListNotations.

Local Open Scope Z_scope.

(** ** Python results *)

Inductive exn : Type :=
| IndexError
| ValueError
| TypeError
| ZeroDivisionError
| UnboundLocalError.

Inductive result (A : Type) : Type :=
| Ok (a : A)
| Raise (e : exn).

Arguments Ok {A} a.
Arguments Raise {A} e.

Definition bind {A B : Type} (r : result A) (k : A -> result B) : result B :=
  match r with
  | Ok a => k a
  | Raise e => Raise e
  end.

Notation "x <- r ;; k" := (bind r (fun x => k))
  (at level 61, r at next level, right associativity).
Notation "' p <- r ;; k" := (bind r (fun p => k))
  (at level 61, p pattern, r at next level, right associativity).

(** ** Python list helpers *)

(** [[0] * n]: empty when [n <= 0]. *)
Definition zeros (n : Z) : list Z := repeat 0 (Z.to_nat n).

(** [len(l)] *)
Definition len {A : Type} (l : list A) : Z := Z.of_nat (length l).

(** A slice bound as Python clamps it: negative bounds count from the
    end, everything is clamped to [0, len]. *)
Definition slice_index {A : Type} (l : list A) (i : Z) : nat :=
  if i <? 0 then Z.to_nat (Z.max 0 (len l + i))
  else Z.to_nat (Z.min i (len l)).

(** [del l[i:]] *)
Definition del_from {A : Type} (i : Z) (l : list A) : list A :=
  firstn (slice_index l i) l.

(** [del l[0:j]] *)
Definition del_upto {A : Type} (j : Z) (l : list A) : list A :=
  skipn (slice_index l j) l.

(** [[sequence[i:i + n] for i in range(0, len(sequence), n)]]; the fuel
    is the length of the list, which bounds the number of chunks. *)
Fixpoint chunks_fuel {A : Type} (fuel n : nat) (l : list A) : list (list A) :=
  match fuel with
  | O => []
  | S fuel' =>
      match l with
      | [] => []
      | _ => firstn n l :: chunks_fuel fuel' n (skipn n l)
      end
  end.

Definition chunks {A : Type} (n : nat) (l : list A) : list (list A) :=
  chunks_fuel (length l) n l.

(** ** The I2C bus *)

(** One attempted bus transaction: the address, the command byte, the
    payload and whether it went through. *)
Record Txn : Type := mkTxn {
  txn_addr : Z;
  txn_cmd : Z;
  txn_data : list Z;
  txn_ok : bool
}.

(** [outcome n] tells whether the [n]-th transaction attempted on the bus
    succeeds ([true]) or raises ([false]); [sent] is the transcript. *)
Record Bus : Type := mkBus {
  outcome : nat -> bool;
  sent : list Txn
}.

(** ** The driver object *)

Module Lcd.

Definition CONTROL_BYTE : Z := 0x00.
Definition DATA_BYTE : Z := 0x40.
Definition LCD_CONTROL_PWR_OFF : Z := 0xAE.
Definition LCD_CONTROL_PWR_ON : Z := 0xAF.
Definition JUSTIFY_LEFT : Z := 0.
Definition JUSTIFY_RIGHT : Z := 1.
Definition JUSTIFY_CENTER : Z := 2.
Definition LCD_ASCII_BEGIN : Z := 0x20.
Definition LCD_ASCII_MAX : Z := 0x7F.

Record t : Type := mk {
  hw_write_addr : Z;
  bus : Bus;
  min_col_addr : Z;
  max_col_addr : Z;
  min_row_addr : Z;
  max_row_addr : Z;
  gmin_col : Z;
  gmax_col : Z;
  gmin_row : Z;
  gmax_row : Z;
  current_col : Z;
  current_row : Z;
  write_failure : bool;
  power_state : bool;
  enabled : bool
}.

(** Field updates. *)

Definition with_bus (b : Bus) (s : t) : t :=
  mk (hw_write_addr s) b (min_col_addr s) (max_col_addr s) (min_row_addr s)
     (max_row_addr s) (gmin_col s) (gmax_col s) (gmin_row s) (gmax_row s)
     (current_col s) (current_row s) (write_failure s) (power_state s)
     (enabled s).

Definition with_window (c0 c1 r0 r1 : Z) (s : t) : t :=
  mk (hw_write_addr s) (bus s) (min_col_addr s) (max_col_addr s)
     (min_row_addr s) (max_row_addr s) c0 c1 r0 r1
     (current_col s) (current_row s) (write_failure s) (power_state s)
     (enabled s).

Definition with_current_col (c : Z) (s : t) : t :=
  mk (hw_write_addr s) (bus s) (min_col_addr s) (max_col_addr s)
     (min_row_addr s) (max_row_addr s) (gmin_col s) (gmax_col s)
     (gmin_row s) (gmax_row s) c (current_row s) (write_failure s)
     (power_state s) (enabled s).

Definition with_current_row (r : Z) (s : t) : t :=
  mk (hw_write_addr s) (bus s) (min_col_addr s) (max_col_addr s)
     (min_row_addr s) (max_row_addr s) (gmin_col s) (gmax_col s)
     (gmin_row s) (gmax_row s) (current_col s) r (write_failure s)
     (power_state s) (enabled s).

Definition with_write_failure (b : bool) (s : t) : t :=
  mk (hw_write_addr s) (bus s) (min_col_addr s) (max_col_addr s)
     (min_row_addr s) (max_row_addr s) (gmin_col s) (gmax_col s)
     (gmin_row s) (gmax_row s) (current_col s) (current_row s) b
     (power_state s) (enabled s).

Definition with_power_state (b : bool) (s : t) : t :=
  mk (hw_write_addr s) (bus s) (min_col_addr s) (max_col_addr s)
     (min_row_addr s) (max_row_addr s) (gmin_col s) (gmax_col s)
     (gmin_row s) (gmax_row s) (current_col s) (current_row s)
     (write_failure s) b (enabled s).

Definition with_enabled (b : bool) (s : t) : t :=
  mk (hw_write_addr s) (bus s) (min_col_addr s) (max_col_addr s)
     (min_row_addr s) (max_row_addr s) (gmin_col s) (gmax_col s)
     (gmin_row s) (gmax_row s) (current_col s) (current_row s)
     (write_failure s) (power_state s) b.

(** [Lcd.__init__]: the window starts as the whole screen, the cursor at
    its origin. *)
Definition init (i2c_hw_addr : Z) (b : Bus)
    (screen_pixel_width screen_pixel_height : Z) : t :=
  let max_col := screen_pixel_width - 1 in
  let max_row := (screen_pixel_height + 7) / 8 - 1 in
  mk (Z.shiftr i2c_hw_addr 1) b 0 max_col 0 max_row
     0 max_col 0 max_row 0 0 false false true.

(** One bus transaction ([write_byte_data] or [write_i2c_block_data]):
    the attempt is recorded, its fate comes from the oracle. *)
Definition bus_write (cmd : Z) (data : list Z) (s : t) : bool * t :=
  let ok := outcome (bus s) (length (sent (bus s))) in
  (ok, with_bus (mkBus (outcome (bus s))
                       (sent (bus s) ++ [mkTxn (hw_write_addr s) cmd data ok]))
                s).

(** The body of every [except Exception] handler: the message is printed
    once, the sticky flag is raised. *)
Definition note_failure (s : t) : t :=
  if write_failure s then s else with_write_failure true s.

(** [_lcd_increment_current].  The column is bumped first; the division
    by the window's column or row count raises [ZeroDivisionError] when
    that count is zero, leaving the bumped column behind. *)
Definition lcd_increment_current (x : Z) (s : t) : option exn * t :=
  let columns := gmax_col s - gmin_col s + 1 in
  let rows := gmax_row s - gmin_row s + 1 in
  let s1 := with_current_col (current_col s + x) s in
  if (columns =? 0) || (rows =? 0) then (Some ZeroDivisionError, s1)
  else
    let s2 :=
      with_current_row
        (((current_col s1 / columns) + current_row s1) mod rows + gmin_row s1)
        s1 in
    (None, with_current_col (current_col s2 mod columns + gmin_col s2) s2).

(** [_write_control_byte] *)
Definition write_control_byte (byte : Z) (force : bool) (s : t) : bool * t :=
  if enabled s || force then
    let '(ok, s1) := bus_write CONTROL_BYTE [byte] s in
    if ok then (true, s1) else (false, note_failure s1)
  else (false, s).

(** [_write_data_byte] *)
Definition write_data_byte (byte : Z) (s : t) : bool * t :=
  if enabled s then
    let '(ok, s1) := bus_write DATA_BYTE [byte] s in
    if ok then
      match lcd_increment_current 1 s1 with
      | (None, s2) => (true, s2)
      | (Some _, s2) => (false, note_failure s2)
      end
    else (false, note_failure s1)
  else (false, s).

(** One iteration of the chunk loop of [_write_sequence]; [total] is
    [len(sequence)], the amount the cursor is advanced by after each
    chunk of a data sequence. *)
Definition write_chunk (cmd total : Z) (acc : bool * t) (chunk : list Z)
  : bool * t :=
  let '(status, s) := acc in
  let '(ok, s1) := bus_write cmd chunk s in
  if ok then
    if cmd =? DATA_BYTE then
      match lcd_increment_current total s1 with
      | (None, s2) => (true, s2)
      | (Some _, s2) => (status, note_failure s2)
      end
    else (true, s1)
  else (status, note_failure s1).

(** [_write_sequence] *)
Definition write_sequence (cmd : Z) (sequence : list Z) (s : t) : bool * t :=
  if enabled s then
    fold_left (write_chunk cmd (len sequence)) (chunks 32 sequence) (false, s)
  else (false, s).

Definition write_control_sequence (sequence : list Z) (s : t) : bool * t :=
  write_sequence CONTROL_BYTE sequence s.

Definition write_data_sequence (sequence : list Z) (s : t) : bool * t :=
  write_sequence DATA_BYTE sequence s.

(** [set_power] *)
Definition set_power (on : bool) (s : t) : bool * t :=
  let '(status, s1) :=
    write_control_byte (if on then LCD_CONTROL_PWR_ON else LCD_CONTROL_PWR_OFF)
                       false s in
  if status then (status, with_power_state on s1) else (status, s1).

(** [_force_power_off] *)
Definition force_power_off (s : t) : bool * t :=
  let '(status, s1) := write_control_byte LCD_CONTROL_PWR_OFF true s in
  if status then (status, with_power_state false s1) else (status, s1).

(** [disable] *)
Definition disable (s : t) : t :=
  if enabled s then snd (force_power_off (with_enabled false s)) else s.

(** [_lcd_set_print_area] *)
Definition lcd_set_print_area (min_col max_col min_row max_row : Z) (s : t)
  : bool * t :=
  if (min_col <? 0) || (max_col >? max_col_addr s) || (max_col <? min_col)
  then (false, s)
  else if (min_row <? 0) || (max_row >? max_row_addr s) || (max_row <? min_row)
  then (false, s)
  else
    let seq := [0x21; min_col; max_col; 0x22; min_row; max_row] in
    let '(status, s1) := write_control_sequence seq s in
    let s2 := with_window min_col max_col min_row max_row s1 in
    let s3 := with_current_col min_col s2 in
    let s4 := with_current_row min_row s3 in
    (status, s4).

(** [_lcd_set_print_area_max] *)
Definition lcd_set_print_area_max (s : t) : bool * t :=
  lcd_set_print_area (min_col_addr s) (max_col_addr s)
                     (min_row_addr s) (max_row_addr s) s.

(** [clear]: the loop body runs 32 times whatever the screen size. *)
Definition clear (s : t) : bool * t :=
  let s0 := snd (lcd_set_print_area_max s) in
  fold_left
    (fun (acc : bool * t) (_ : nat) =>
       let '(status, s1) := acc in
       let '(ok, s2) := write_data_sequence (zeros 32) s1 in
       (if ok then status else false, s2))
    (seq 0 32) (true, s0).

(** *** The glyph table *)

(** [LCD_ASCII]: five column bytes per character, from 0x20 to 0x7F. *)
Definition LCD_ASCII : list (list Z) :=
  [
    [0x00; 0x00; 0x00; 0x00; 0x00]; (* 0x20 *)
    [0x00; 0x00; 0x5F; 0x00; 0x00]; (* 0x21 *)
    [0x00; 0x07; 0x00; 0x07; 0x00]; (* 0x22 *)
    [0x14; 0x7F; 0x14; 0x7F; 0x14]; (* 0x23 *)
    [0x24; 0x2A; 0x7F; 0x2A; 0x12]; (* 0x24 *)
    [0x23; 0x13; 0x08; 0x64; 0x62]; (* 0x25 *)
    [0x36; 0x49; 0x55; 0x22; 0x50]; (* 0x26 *)
    [0x00; 0x05; 0x03; 0x00; 0x00]; (* 0x27 *)
    [0x00; 0x1C; 0x22; 0x41; 0x00]; (* 0x28 *)
    [0x00; 0x41; 0x22; 0x1C; 0x00]; (* 0x29 *)
    [0x08; 0x2A; 0x1C; 0x2A; 0x08]; (* 0x2A *)
    [0x08; 0x08; 0x3E; 0x08; 0x08]; (* 0x2B *)
    [0x00; 0x50; 0x30; 0x00; 0x00]; (* 0x2C *)
    [0x08; 0x08; 0x08; 0x08; 0x08]; (* 0x2D *)
    [0x00; 0x60; 0x60; 0x00; 0x00]; (* 0x2E *)
    [0x20; 0x10; 0x08; 0x04; 0x02]; (* 0x2F *)
    [0x3E; 0x51; 0x49; 0x45; 0x3E]; (* 0x30 *)
    [0x00; 0x42; 0x7F; 0x40; 0x00]; (* 0x31 *)
    [0x42; 0x61; 0x51; 0x49; 0x46]; (* 0x32 *)
    [0x21; 0x41; 0x45; 0x4B; 0x31]; (* 0x33 *)
    [0x18; 0x14; 0x12; 0x7F; 0x10]; (* 0x34 *)
    [0x27; 0x45; 0x45; 0x45; 0x39]; (* 0x35 *)
    [0x3C; 0x4A; 0x49; 0x49; 0x30]; (* 0x36 *)
    [0x01; 0x71; 0x09; 0x05; 0x03]; (* 0x37 *)
    [0x36; 0x49; 0x49; 0x49; 0x36]; (* 0x38 *)
    [0x06; 0x49; 0x49; 0x29; 0x1E]; (* 0x39 *)
    [0x00; 0x36; 0x36; 0x00; 0x00]; (* 0x3A *)
    [0x00; 0x56; 0x36; 0x00; 0x00]; (* 0x3B *)
    [0x00; 0x08; 0x14; 0x22; 0x41]; (* 0x3C *)
    [0x14; 0x14; 0x14; 0x14; 0x14]; (* 0x3D *)
    [0x41; 0x22; 0x14; 0x08; 0x00]; (* 0x3E *)
    [0x02; 0x01; 0x51; 0x09; 0x06]; (* 0x3F *)
    [0x32; 0x49; 0x79; 0x41; 0x3E]; (* 0x40 *)
    [0x7E; 0x11; 0x11; 0x11; 0x7E]; (* 0x41 *)
    [0x7F; 0x49; 0x49; 0x49; 0x36]; (* 0x42 *)
    [0x3E; 0x41; 0x41; 0x41; 0x22]; (* 0x43 *)
    [0x7F; 0x41; 0x41; 0x22; 0x1C]; (* 0x44 *)
    [0x7F; 0x49; 0x49; 0x49; 0x41]; (* 0x45 *)
    [0x7F; 0x09; 0x09; 0x01; 0x01]; (* 0x46 *)
    [0x3E; 0x41; 0x41; 0x51; 0x32]; (* 0x47 *)
    [0x7F; 0x08; 0x08; 0x08; 0x7F]; (* 0x48 *)
    [0x00; 0x41; 0x7F; 0x41; 0x00]; (* 0x49 *)
    [0x20; 0x40; 0x41; 0x3F; 0x01]; (* 0x4A *)
    [0x7F; 0x08; 0x14; 0x22; 0x41]; (* 0x4B *)
    [0x7F; 0x40; 0x40; 0x40; 0x40]; (* 0x4C *)
    [0x7F; 0x02; 0x04; 0x02; 0x7F]; (* 0x4D *)
    [0x7F; 0x04; 0x08; 0x10; 0x7F]; (* 0x4E *)
    [0x3E; 0x41; 0x41; 0x41; 0x3E]; (* 0x4F *)
    [0x7F; 0x09; 0x09; 0x09; 0x06]; (* 0x50 *)
    [0x3E; 0x41; 0x51; 0x21; 0x5E]; (* 0x51 *)
    [0x7F; 0x09; 0x19; 0x29; 0x46]; (* 0x52 *)
    [0x46; 0x49; 0x49; 0x49; 0x31]; (* 0x53 *)
    [0x01; 0x01; 0x7F; 0x01; 0x01]; (* 0x54 *)
    [0x3F; 0x40; 0x40; 0x40; 0x3F]; (* 0x55 *)
    [0x1F; 0x20; 0x40; 0x20; 0x1F]; (* 0x56 *)
    [0x7F; 0x20; 0x18; 0x20; 0x7F]; (* 0x57 *)
    [0x63; 0x14; 0x08; 0x14; 0x63]; (* 0x58 *)
    [0x03; 0x04; 0x78; 0x04; 0x03]; (* 0x59 *)
    [0x61; 0x51; 0x49; 0x45; 0x43]; (* 0x5A *)
    [0x00; 0x00; 0x7F; 0x41; 0x41]; (* 0x5B *)
    [0x02; 0x04; 0x08; 0x10; 0x20]; (* 0x5C *)
    [0x41; 0x41; 0x7F; 0x00; 0x00]; (* 0x5D *)
    [0x04; 0x02; 0x01; 0x02; 0x04]; (* 0x5E *)
    [0x40; 0x40; 0x40; 0x40; 0x40]; (* 0x5F *)
    [0x00; 0x01; 0x02; 0x04; 0x00]; (* 0x60 *)
    [0x20; 0x54; 0x54; 0x54; 0x78]; (* 0x61 *)
    [0x7F; 0x48; 0x44; 0x44; 0x38]; (* 0x62 *)
    [0x38; 0x44; 0x44; 0x44; 0x20]; (* 0x63 *)
    [0x38; 0x44; 0x44; 0x48; 0x7F]; (* 0x64 *)
    [0x38; 0x54; 0x54; 0x54; 0x18]; (* 0x65 *)
    [0x08; 0x7E; 0x09; 0x01; 0x02]; (* 0x66 *)
    [0x08; 0x14; 0x54; 0x54; 0x3C]; (* 0x67 *)
    [0x7F; 0x08; 0x04; 0x04; 0x78]; (* 0x68 *)
    [0x00; 0x44; 0x7D; 0x40; 0x00]; (* 0x69 *)
    [0x20; 0x40; 0x44; 0x3D; 0x00]; (* 0x6A *)
    [0x00; 0x7F; 0x10; 0x28; 0x44]; (* 0x6B *)
    [0x00; 0x41; 0x7F; 0x40; 0x00]; (* 0x6C *)
    [0x7C; 0x04; 0x18; 0x04; 0x78]; (* 0x6D *)
    [0x7C; 0x08; 0x04; 0x04; 0x78]; (* 0x6E *)
    [0x38; 0x44; 0x44; 0x44; 0x38]; (* 0x6F *)
    [0x7C; 0x14; 0x14; 0x14; 0x08]; (* 0x70 *)
    [0x08; 0x14; 0x14; 0x18; 0x7C]; (* 0x71 *)
    [0x7C; 0x08; 0x04; 0x04; 0x08]; (* 0x72 *)
    [0x48; 0x54; 0x54; 0x54; 0x20]; (* 0x73 *)
    [0x04; 0x3F; 0x44; 0x40; 0x20]; (* 0x74 *)
    [0x3C; 0x40; 0x40; 0x20; 0x7C]; (* 0x75 *)
    [0x1C; 0x20; 0x40; 0x20; 0x1C]; (* 0x76 *)
    [0x3C; 0x40; 0x30; 0x40; 0x3C]; (* 0x77 *)
    [0x44; 0x28; 0x10; 0x28; 0x44]; (* 0x78 *)
    [0x0C; 0x50; 0x50; 0x50; 0x3C]; (* 0x79 *)
    [0x44; 0x64; 0x54; 0x4C; 0x44]; (* 0x7A *)
    [0x00; 0x08; 0x36; 0x41; 0x00]; (* 0x7B *)
    [0x00; 0x00; 0x7F; 0x00; 0x00]; (* 0x7C *)
    [0x00; 0x41; 0x36; 0x08; 0x00]; (* 0x7D *)
    [0x08; 0x08; 0x2A; 0x1C; 0x08]; (* 0x7E *)
    [0x08; 0x1C; 0x2A; 0x08; 0x08]  (* 0x7F *)
  ].

(** [char_other]: the glyph of a character outside the table. *)
Definition char_other : list Z := [0x7F; 0x7F; 0x7F; 0x7F; 0x7F].

(** *** The font renderer *)

(** [range(n)] *)
Definition range (n : Z) : list Z := map Z.of_nat (seq 0 (Z.to_nat n)).

(** [l[i] = f(l[i])] for an index inside the list. *)
Fixpoint update_at {A : Type} (i : nat) (f : A -> A) (l : list A) : list A :=
  match l with
  | [] => []
  | x :: l' =>
      match i with
      | O => f x :: l'
      | S i' => x :: update_at i' f l'
      end
  end.

(** [int.from_bytes(bytes(lst), byteorder='big')] *)
Definition from_bytes_be (lst : list Z) : Z :=
  fold_left (fun acc b => acc * 256 + b) lst 0.

(** [list(v.to_bytes(length=n, byteorder='big'))] *)
Fixpoint to_bytes_be (n : nat) (v : Z) : list Z :=
  match n with
  | O => []
  | S n' => to_bytes_be n' (v / 256) ++ [v mod 256]
  end.

(** [_bit_shift_right_byte_list]: [bytes(lst)] refuses a value outside
    [0, 255] and [>>] a negative shift count, both with [ValueError]. *)
Definition bit_shift_right_byte_list (lst : list Z) (num : Z)
  : result (list Z) :=
  if negb (forallb (fun b => (0 <=? b) && (b <=? 255)) lst) then
    Raise ValueError
  else if num <? 0 then Raise ValueError
  else Ok (to_bytes_be (length lst) (Z.shiftr (from_bytes_be lst) num)).

(** The columns of a character: its glyph (or [char_other]) followed by
    one blank column. *)
Definition glyph_columns (char : ascii) : list Z :=
  let chv := Z.of_nat (nat_of_ascii char) in
  (if (chv >=? LCD_ASCII_BEGIN) && (chv <=? LCD_ASCII_MAX)
   then nth (Z.to_nat (chv - LCD_ASCII_BEGIN)) LCD_ASCII []
   else char_other) ++ [0x00].

(** [ret_seq[r][c] = ret_seq[r][c] | m] *)
Definition or_at (r c m : Z) (ret_seq : list (list Z)) : list (list Z) :=
  update_at (Z.to_nat r)
            (update_at (Z.to_nat c) (fun v => Z.lor v m)) ret_seq.

(** The two innermost loops of [_generate_char_sequence], run for glyph
    column [j] when its bit under [mask] is set.  The indices stay inside
    [ret_seq], which has [tsm] rows of [len(seq) * tsm] columns. *)
Definition paint_column (tsm j : Z) (col_mask : list Z)
    (ret_seq : list (list Z)) : list (list Z) :=
  fold_left
    (fun rs k =>
       fold_left
         (fun rs' l => or_at (tsm - k - 1) (j * tsm + l)
                             (nth (Z.to_nat k) col_mask 0) rs')
         (range tsm) rs)
    (range tsm) ret_seq.

(** One pass of the [for _ in range(8)] loop. *)
Definition paint_bit (tsm : Z) (glyph : list Z)
    (st : Z * list Z * list (list Z)) : result (Z * list Z * list (list Z)) :=
  let '(mask, col_mask, ret_seq) := st in
  let ret_seq' :=
    fold_left
      (fun rs j =>
         let v := nth (Z.to_nat j) glyph 0 in
         if Z.land v mask =? 0 then rs else paint_column tsm j col_mask rs)
      (range (len glyph)) ret_seq in
  col_mask' <- bit_shift_right_byte_list col_mask tsm ;;
  Ok (Z.shiftr mask 1, col_mask', ret_seq').

(** [_generate_char_sequence] *)
Definition generate_char_sequence (char : ascii) (text_size_multiplier : Z)
  : result (list (list Z)) :=
  let glyph := glyph_columns char in
  let '(col_mask, ret_seq) :=
    fold_left
      (fun (st : list Z * list (list Z)) (_ : Z) =>
         let '(cm, rs) := st in
         (update_at 0 (fun v => Z.lor (Z.shiftr v 1) 0x80) cm,
          rs ++ [zeros (len glyph * text_size_multiplier)]))
      (range text_size_multiplier) (zeros text_size_multiplier, []) in
  st <- fold_left (fun acc (_ : Z) => st <- acc ;; paint_bit text_size_multiplier glyph st)
                  (range 8) (Ok (0x80, col_mask, ret_seq)) ;;
  Ok (snd st).

(** *** Text layout *)

(** [for i in range(len(seq)): seq[i].extend(seqChar[i])] *)
Fixpoint extend_rows (rows seqChar : list (list Z)) : result (list (list Z)) :=
  match rows, seqChar with
  | [], _ => Ok []
  | r :: rows', c :: seqChar' =>
      rest <- extend_rows rows' seqChar' ;; Ok ((r ++ c) :: rest)
  | _ :: _, [] => Raise IndexError
  end.

(** The [for c in str] loop of [write_line]. *)
Fixpoint assemble (chars : list ascii) (tsm : Z) (rows : list (list Z))
  : result (list (list Z)) :=
  match chars with
  | [] => Ok rows
  | c :: chars' =>
      seqChar <- generate_char_sequence c tsm ;;
      rows' <- (if len rows <=? 0 then Ok seqChar else extend_rows rows seqChar) ;;
      assemble chars' tsm rows'
  end.

(** [for i in range(len(seq), maxNumRows): seq.append([0] * len(seq[0]))] *)
Definition pad_rows (maxNumRows : Z) (rows : list (list Z))
  : result (list (list Z)) :=
  match Z.to_nat (maxNumRows - len rows) with
  | O => Ok rows
  | n =>
      match rows with
      | [] => Raise IndexError
      | r0 :: _ => Ok (rows ++ repeat (zeros (len r0)) n)
      end
  end.

(** The body of the padding loop for one row. *)
Definition pad_columns (justification columnsToAdd : Z) (row : list Z)
  : list Z :=
  if justification =? JUSTIFY_RIGHT then zeros columnsToAdd ++ row
  else if justification =? JUSTIFY_CENTER then
    let columnsToAddLeft := columnsToAdd / 2 in
    let columnsToAddRight := columnsToAdd - columnsToAddLeft in
    zeros columnsToAddLeft ++ row ++ zeros columnsToAddRight
  else row ++ zeros columnsToAdd.

(** The body of the cropping loop for one row. *)
Definition crop_columns (justification columnsToRemove : Z) (row : list Z)
  : list Z :=
  if justification =? JUSTIFY_RIGHT then del_upto columnsToRemove row
  else if justification =? JUSTIFY_CENTER then
    let columnsToRemoveLeft := columnsToRemove / 2 in
    let columnsToRemoveRight := columnsToRemove - columnsToRemoveLeft in
    del_from (- columnsToRemoveRight) (del_upto columnsToRemoveLeft row)
  else del_from (- columnsToRemove) row.

(** Both column passes of [write_line]; [seq[0]] raises on an empty
    [seq]. *)
Definition fit_columns (justification maxNumCols : Z) (rows : list (list Z))
  : result (list (list Z)) :=
  match rows with
  | [] => Raise IndexError
  | r0 :: _ =>
      let columnsToAdd := maxNumCols - len r0 in
      let rows1 :=
        if columnsToAdd >? 0
        then map (pad_columns justification columnsToAdd) rows
        else rows in
      match rows1 with
      | [] => Raise IndexError
      | r1 :: _ =>
          let columnsToRemove := len r1 - maxNumCols in
          Ok (if columnsToRemove >? 0
              then map (crop_columns justification columnsToRemove) rows1
              else rows1)
      end
  end.

(** [len(str)] *)
Definition strlen (str : string) : Z := Z.of_nat (String.length str).

(** [write_line] *)
Definition write_line (str : string) (row_start text_size_multiplier
    justification : Z) (s : t) : result (Z * t) :=
  if (row_start <? min_row_addr s) || (row_start >? max_row_addr s) then
    Ok (0, s)
  else
    let str := if strlen str <=? 0 then " "%string else str in
    rows <- assemble (list_ascii_of_string str) text_size_multiplier [] ;;
    let row_end := row_start + text_size_multiplier - 1 in
    let row_end := if row_end >? max_row_addr s then max_row_addr s else row_end in
    let s1 := snd (lcd_set_print_area (min_col_addr s) (max_col_addr s)
                                      row_start row_end s) in
    let maxNumRows := gmax_row s1 - gmin_row s1 + 1 in
    let maxNumCols := gmax_col s1 - gmin_col s1 + 1 in
    rows1 <- pad_rows maxNumRows rows ;;
    let rows2 := del_from maxNumRows rows1 in
    rows3 <- fit_columns justification maxNumCols rows2 ;;
    Ok (1, fold_left (fun st row => snd (write_data_sequence row st)) rows3 s1).


(** *** Word wrapping *)

(** [str.split(" ")]: every single space separates two words, so the
    result is never empty and may hold empty words. *)
Fixpoint split_space (str : string) : list string :=
  match str with
  | EmptyString => [EmptyString]
  | String c rest =>
      if Ascii.eqb c " "%char then EmptyString :: split_space rest
      else
        match split_space rest with
        | w :: ws => String c w :: ws
        | [] => [String c EmptyString]
        end
  end.

(** The state of the wrapping loop: [lines], [currentLine],
    [currentSize], [lineTooLong]. *)
Definition wrap_state : Type := (list string * Z * Z * bool)%type.

(** One pass of [for i in range(1, len(words))]; [word] is [words[i]]
    and [wordSize] is [wordSizes[i]]. *)
Definition wrap_step (currentTextSize maxWidth : Z) (st : wrap_state)
    (item : string * Z) : wrap_state :=
  let '(lines, currentLine, currentSize, lineTooLong) := st in
  let '(word, wordSize) := item in
  let nextSize := currentSize + wordSize + 6 in
  if nextSize * currentTextSize >? maxWidth then
    (lines ++ [word], currentLine + 1, wordSize,
     if wordSize * currentTextSize >? maxWidth then true else lineTooLong)
  else
    (update_at (Z.to_nat currentLine)
               (fun line => (line ++ " " ++ word)%string) lines,
     currentLine, currentSize + wordSize + 6, lineTooLong).

(** The wrapping of [words] at one candidate scale: the lines and the
    too-long flag.  [words[0]] raises on an empty list. *)
Definition wrap_words (words : list string) (wordSizes : list Z)
    (currentTextSize maxWidth : Z) : result (list string * bool) :=
  match words, wordSizes with
  | w0 :: words', z0 :: wordSizes' =>
      let '(lines, _, _, lineTooLong) :=
        fold_left (wrap_step currentTextSize maxWidth)
                  (combine words' wordSizes') ([w0], 0, z0, false) in
      Ok (lines, lineTooLong)
  | _, _ => Raise IndexError
  end.

(** [while currentTextSize > min_text_size]: the scale goes down by one
    at each pass, so [max_text_size - min_text_size] passes are all there
    can be.  [/] is the integer division of Python 2, for which the
    module's arithmetic is written.  Returns [currentTextSize], [lines]
    and [maxLines] as the loop leaves them. *)
Fixpoint fit_search (fuel : nat) (words : list string) (wordSizes : list Z)
    (maxWidth min_text_size max_text_size currentTextSize : Z)
    (lines : list string) (maxLines : Z) : result (Z * list string * Z) :=
  match fuel with
  | O => Ok (currentTextSize, lines, maxLines)
  | S fuel' =>
      if currentTextSize >? min_text_size then
        let currentTextSize := currentTextSize - 1 in
        if currentTextSize =? 0 then Raise ZeroDivisionError
        else
          let maxLines := max_text_size / currentTextSize in
          '(lines, lineTooLong) <-
            wrap_words words wordSizes currentTextSize maxWidth ;;
          if (len lines <=? maxLines) && negb lineTooLong then
            Ok (currentTextSize, lines, maxLines)
          else
            fit_search fuel' words wordSizes maxWidth min_text_size
                       max_text_size currentTextSize lines maxLines
      else Ok (currentTextSize, lines, maxLines)
  end.

(** [while len(lines) + 2 <= maxLines]: a blank line is added at both
    ends; each pass adds two lines, so [maxLines] passes are enough. *)
Fixpoint center_lines (fuel : nat) (maxLines : Z) (lines : list string)
  : list string :=
  match fuel with
  | O => lines
  | S fuel' =>
      if len lines + 2 <=? maxLines then
        center_lines fuel' maxLines ((EmptyString :: lines) ++ [EmptyString])
      else lines
  end.

(** The printing loop of [write_block]: [rowNum], [printedCount] and the
    driver. *)
Fixpoint print_lines (lines : list string) (currentTextSize justification : Z)
    (rowNum printedCount : Z) (s : t) : result (Z * Z * t) :=
  match lines with
  | [] => Ok (rowNum, printedCount, s)
  | l :: lines' =>
      '(n, s1) <- write_line l rowNum currentTextSize justification s ;;
      print_lines lines' currentTextSize justification
                  (rowNum + currentTextSize) (printedCount + n) s1
  end.

(** [for i in range(rowNum, row_start + max_text_size)]: blank the rest. *)
Fixpoint clear_rest (rowsLeft : list Z) (s : t) : result t :=
  match rowsLeft with
  | [] => Ok s
  | i :: rowsLeft' =>
      '(_, s1) <- write_line EmptyString i 1 JUSTIFY_LEFT s ;;
      clear_rest rowsLeft' s1
  end.

(** [write_block] *)
Definition write_block (str : string) (row_start min_text_size max_text_size
    justification : Z) (s : t) : result (Z * t) :=
  if (min_text_size >? max_text_size) || (min_text_size <=? 0)
     || (max_text_size <=? 0)
  then Ok (0, s)
  else
    let maxWidth := max_col_addr s - min_col_addr s + 1 in
    let words := split_space str in
    let wordSizes := map (fun w => 6 * strlen w) words in
    let numberOfSpaces := len words - 1 in
    let totalSize := fold_left Z.add wordSizes (numberOfSpaces * 6) in
    if (totalSize * max_text_size <=? maxWidth)
       || (min_text_size =? max_text_size) || (strlen str <=? 0)
    then write_line str row_start max_text_size justification s
    else
      '(currentTextSize, lines, maxLines) <-
        fit_search (Z.to_nat (max_text_size - min_text_size)) words wordSizes
                   maxWidth min_text_size max_text_size max_text_size [] 0 ;;
      let lines := center_lines (Z.to_nat maxLines) maxLines lines in
      let lines := if len lines >? maxLines
                   then firstn (slice_index lines maxLines) lines
                   else lines in
      '(rowNum, printedCount, s1) <-
        print_lines lines currentTextSize justification row_start 0 s ;;
      s2 <- clear_rest (map (fun i => rowNum + i)
                            (range (row_start + max_text_size - rowNum))) s1 ;;
      Ok (printedCount, s2).

(** *** Initialization *)

(** [init_sequence] of [write_initialization_sequence] *)
Definition init_sequence : list Z :=
  [ LCD_CONTROL_PWR_OFF; 0x00; 0x10; 0x40; 0x81; 0xCF; 0xA1; 0xA6; 0xA8; 0x3F;
    0xD3; 0x00; 0xD5; 0x80; 0xD9; 0xF1; 0xDA; 0x12; 0xDB; 0x40; 0x8D; 0x14;
    0x20; 0x00; 0xC8 ].

(** [write_initialization_sequence]: the control sequence, the clearing
    of the screen, the power switch; none of the three results is looked
    at. *)
Definition write_initialization_sequence (s : t) : t :=
  let s1 := snd (write_control_sequence init_sequence s) in
  let s2 := snd (clear s1) in
  snd (set_power true s2).

(** [is_powered] *)
Definition is_powered (s : t) : bool := power_state s.

End Lcd.

(** ** The host's status *)

(** What [_display_normal] reads of the host's module [gv].  The fields
    come from outside this file; they are integers, a flag being true
    when it is not 0, and [nowt] is given by its hour and minute. *)
Module Gv.

Record t : Type := mk {
  pon : option Z;
  ps : list (Z * Z);
  srvals : list Z;
  sd_mas : Z;
  sd_en : Z;
  sd_mm : Z;
  sd_rd : Z;
  sd_rdst : Z;
  sd_wl : Z;
  sd_tf : Z;
  now : Z;
  nowt_hour : Z;
  nowt_min : Z
}.

End Gv.

(** The truth value of an integer. *)
Definition truthy (v : Z) : bool := negb (v =? 0).

(** [str(n)] for an integer. *)
Definition py_str (n : Z) : string := NilZero.string_of_int (Z.to_int n).

(** ** The display scheduler *)

Module LcdPlugin.

(** The keyword arguments of one [ssd1306_display] signal; a key that
    the sender left out is [None], and [get] is [dict.get] with its
    default. *)
Record QueueItem : Type := mkItem {
  kw_txt : option string;
  kw_row_start : option Z;
  kw_min_text_size : option Z;
  kw_max_text_size : option Z;
  kw_justification : option string;
  kw_append : option bool;
  kw_delay : option Z;
  kw_cancel : option bool
}.

Definition get {A : Type} (field : option A) (default : A) : A :=
  match field with
  | Some v => v
  | None => default
  end.

Record t : Type := mk {
  lcd : Lcd.t;
  last_write : string;
  last_sub_val : string;
  idle_entry_time : option Z;
  idled : bool;
  running : bool;
  custom_display_queue : list QueueItem;
  displaying_custom : bool;
  custom_display_canceled : bool;
  idle_timeout_seconds : Z;
  lcd_hw_address : Z
}.

Definition with_lcd (l : Lcd.t) (p : t) : t :=
  mk l (last_write p) (last_sub_val p) (idle_entry_time p) (idled p)
     (running p) (custom_display_queue p) (displaying_custom p)
     (custom_display_canceled p) (idle_timeout_seconds p) (lcd_hw_address p).

Definition with_idle (entry : option Z) (i : bool) (p : t) : t :=
  mk (lcd p) (last_write p) (last_sub_val p) entry i
     (running p) (custom_display_queue p) (displaying_custom p)
     (custom_display_canceled p) (idle_timeout_seconds p) (lcd_hw_address p).

Definition with_running (b : bool) (p : t) : t :=
  mk (lcd p) (last_write p) (last_sub_val p) (idle_entry_time p) (idled p)
     b (custom_display_queue p) (displaying_custom p)
     (custom_display_canceled p) (idle_timeout_seconds p) (lcd_hw_address p).

Definition with_queue (q : list QueueItem) (p : t) : t :=
  mk (lcd p) (last_write p) (last_sub_val p) (idle_entry_time p) (idled p)
     (running p) q (displaying_custom p)
     (custom_display_canceled p) (idle_timeout_seconds p) (lcd_hw_address p).

Definition with_displaying_custom (b : bool) (p : t) : t :=
  mk (lcd p) (last_write p) (last_sub_val p) (idle_entry_time p) (idled p)
     (running p) (custom_display_queue p) b
     (custom_display_canceled p) (idle_timeout_seconds p) (lcd_hw_address p).

Definition with_custom_display_canceled (b : bool) (p : t) : t :=
  mk (lcd p) (last_write p) (last_sub_val p) (idle_entry_time p) (idled p)
     (running p) (custom_display_queue p) (displaying_custom p)
     b (idle_timeout_seconds p) (lcd_hw_address p).

(** [LcdPlugin.__init__] followed by [initialize] without the settings
    file and without the initialization sequence: the state the
    scheduler loop is described from. *)
Definition init (l : Lcd.t) : t :=
  mk l EmptyString EmptyString None false true [] false false 0 0x78.

(** [str.upper()] on the ASCII letters. *)
Definition upper_char (c : ascii) : ascii :=
  let n := nat_of_ascii c in
  if ((97 <=? n) && (n <=? 122))%nat then ascii_of_nat (n - 32) else c.

Fixpoint upper (str : string) : string :=
  match str with
  | EmptyString => EmptyString
  | String c rest => String (upper_char c) (upper rest)
  end.

(** [justification_lookup.get(justification_string, Lcd.JUSTIFY_LEFT)] *)
Definition justification_lookup (justification_string : string) : Z :=
  if String.eqb justification_string "LEFT" then Lcd.JUSTIFY_LEFT
  else if String.eqb justification_string "RIGHT" then Lcd.JUSTIFY_RIGHT
  else if String.eqb justification_string "CENTER" then Lcd.JUSTIFY_CENTER
  else Lcd.JUSTIFY_LEFT.

(** [_wake_display]; [now] is what [time.time()] returns. *)
Definition wake_display (now : Z) (p : t) : t :=
  let p1 := with_idle (Some now) (idled p) p in
  if idled p1 then
    let l := snd (Lcd.set_power true (lcd p1)) in
    with_idle (idle_entry_time p1) false (with_lcd l p1)
  else p1.

(** [list.pop()]: the last element and the list without it. *)
Definition pop {A : Type} (q : list A) : option (A * list A) :=
  match rev q with
  | [] => None
  | x :: r => Some (x, rev r)
  end.

(** The body of the [while] loop of [_display_custom] after the pop:
    the delay it assigns and the new state. *)
Definition display_item (now : Z) (queue_item : QueueItem) (p : t)
  : result (Z * t) :=
  let cancel := get (kw_cancel queue_item) false in
  if negb cancel then
    let text := get (kw_txt queue_item) EmptyString in
    let row_start := get (kw_row_start queue_item) 0 in
    let min_text_size := get (kw_min_text_size queue_item) 1 in
    let max_text_size := get (kw_max_text_size queue_item) 1 in
    let justification_string :=
      upper (get (kw_justification queue_item) "LEFT"%string) in
    let justification := justification_lookup justification_string in
    let append := get (kw_append queue_item) false in
    let append :=
      if negb (displaying_custom p) || custom_display_canceled p
      then false else append in
    let delay := get (kw_delay queue_item) 1 in
    let l1 := if negb append then snd (Lcd.clear (lcd p)) else lcd p in
    '(_, l2) <- Lcd.write_block text row_start min_text_size max_text_size
                                justification l1 ;;
    let p1 := with_displaying_custom true (with_lcd l2 p) in
    let p2 := wake_display now p1 in
    Ok (delay, with_custom_display_canceled false p2)
  else
    Ok (0, with_custom_display_canceled true p).

(** [_display_custom]: the loop runs until the queue is empty; with no
    producer running in between, that is one pass per queued item.
    [delay] is unbound until the first pass has run. *)
Fixpoint display_custom_loop (fuel : nat) (now : Z) (delay : option Z) (p : t)
  : result (Z * t) :=
  match fuel, pop (custom_display_queue p) with
  | S fuel', Some (queue_item, q) =>
      '(d, p1) <- display_item now queue_item (with_queue q p) ;;
      display_custom_loop fuel' now (Some d) p1
  | _, _ =>
      match delay with
      | Some d => Ok (d, p)
      | None => Raise UnboundLocalError
      end
  end.

Definition display_custom (now : Z) (p : t) : result (Z * t) :=
  display_custom_loop (length (custom_display_queue p)) now None p.

(** [display_signal]: the new request goes to the front of the list. *)
Definition display_signal (kw : QueueItem) (p : t) : t :=
  with_queue (kw :: custom_display_queue p) p.

(** [wake_signal] *)
Definition wake_signal (now : Z) (p : t) : t := wake_display now p.

(** [stop] *)
Definition stop (p : t) : t :=
  let p1 := with_running false p in
  with_lcd (Lcd.disable (lcd p1)) p1.

(** *** The status display *)

Definition with_last_write (w : string) (p : t) : t :=
  mk (lcd p) w (last_sub_val p) (idle_entry_time p) (idled p)
     (running p) (custom_display_queue p) (displaying_custom p)
     (custom_display_canceled p) (idle_timeout_seconds p) (lcd_hw_address p).

Definition with_last_sub_val (w : string) (p : t) : t :=
  mk (lcd p) (last_write p) w (idle_entry_time p) (idled p)
     (running p) (custom_display_queue p) (displaying_custom p)
     (custom_display_canceled p) (idle_timeout_seconds p) (lcd_hw_address p).

(** [_reset_lcd_state] *)
Definition reset_lcd_state (p : t) : t :=
  mk (lcd p) EmptyString EmptyString None false
     (running p) (custom_display_queue p) (displaying_custom p)
     (custom_display_canceled p) (idle_timeout_seconds p) (lcd_hw_address p).

(** [_display_idled] *)
Definition display_idled (p : t) : t :=
  let p1 := with_idle (idle_entry_time p) true p in
  with_lcd (snd (Lcd.set_power false (lcd p1))) p1.

(** [_get_time_string] *)
Definition get_time_string (g : Gv.t) : string :=
  let timeHours := Gv.nowt_hour g in
  let timeMinutes := Gv.nowt_min g in
  let '(timeHours, ampmString) :=
    if negb (truthy (Gv.sd_tf g)) then
      let '(timeHours, isPm) :=
        if timeHours =? 0 then (12, false)
        else if timeHours =? 12 then (timeHours, true)
        else if timeHours >? 12 then (timeHours - 12, true)
        else (timeHours, false) in
      (timeHours, if isPm then " PM"%string else " AM"%string)
    else (timeHours, EmptyString) in
  let hrString := py_str timeHours in
  let minString :=
    (py_str (Z.shiftr (timeMinutes / 10) 0)
     ++ py_str (Z.shiftr (timeMinutes mod 10) 0))%string in
  (hrString ++ ":" ++ minString ++ ampmString)%string.

(** A run of [self._lcd.write_line(text, row, size, justification)]
    calls whose results are not looked at. *)
Fixpoint write_lines (calls : list (string * Z * Z * Z)) (l : Lcd.t)
  : result Lcd.t :=
  match calls with
  | [] => Ok l
  | (text, row, size, justification) :: calls' =>
      '(_, l1) <- Lcd.write_line text row size justification l ;;
      write_lines calls' l1
  end.

(** The pattern [if self._last_write != aboutToWrite:] of
    [_display_normal]: when the text differs from the one last drawn,
    the display is woken (in the branches that do so), the screen is
    drawn, [_last_write] takes the text and, in the branches that do so,
    [_last_sub_val] is emptied. *)
Definition refresh (wake reset_sub : bool) (aboutToWrite : string)
    (draw : Lcd.t -> result Lcd.t) (clock : Z) (p : t) : result t :=
  if String.eqb (last_write p) aboutToWrite then Ok p
  else
    let p1 := if wake then wake_display clock p else p in
    l <- draw (lcd p1) ;;
    let p2 := with_last_write aboutToWrite (with_lcd l p1) in
    Ok (if reset_sub then with_last_sub_val EmptyString p2 else p2).

(** The pattern [if self._last_sub_val != aboutToWrite:]: the bottom
    line is drawn at row 6, size 2, centered. *)
Definition refresh_sub (aboutToWrite text : string) (p : t) : result t :=
  if String.eqb (last_sub_val p) aboutToWrite then Ok p
  else
    l <- write_lines [(text, 6, 2, Lcd.JUSTIFY_CENTER)] (lcd p) ;;
    Ok (with_last_sub_val aboutToWrite (with_lcd l p)).

(** The loop [for i in range(len(gv.ps))]: [programRunning],
    [stationDuration] and the list [s] of the stations that are on.
    [gv.srvals[i]] is read only for a station that is not the master. *)
Fixpoint scan_stations (g : Gv.t) (i : Z) (ps : list (Z * Z))
    (acc : bool * Z * string) : result (bool * Z * string) :=
  match ps with
  | [] => Ok acc
  | (p, d) :: ps' =>
      let '(programRunning, stationDuration, s) := acc in
      let programRunning := if negb (p =? 0) then true else programRunning in
      if negb (i + 1 =? Gv.sd_mas g) then
        match nth_error (Gv.srvals g) (Z.to_nat i) with
        | None => Raise IndexError
        | Some v =>
            if truthy v then
              let s := if Lcd.strlen s =? 0 then py_str (i + 1)
                       else (s ++ " " ++ py_str (i + 1))%string in
              let stationDuration :=
                if d >? stationDuration then d else stationDuration in
              scan_stations g (i + 1) ps' (programRunning, stationDuration, s)
            else
              scan_stations g (i + 1) ps' (programRunning, stationDuration, s)
        end
      else scan_stations g (i + 1) ps' (programRunning, stationDuration, s)
  end.

(** The remaining-time text of a running station: [MM:SS], with [HH:] in
    front when there are hours. *)
Definition duration_string (stationDuration : Z) : string :=
  let stationSec := stationDuration mod 60 in
  let stationMin := stationDuration / 60 in
  let stationHrs := stationMin / 60 in
  let stationMin := stationMin mod 60 in
  let aboutToWrite :=
    (py_str (stationMin / 10) ++ py_str (stationMin mod 10) ++ ":"
     ++ py_str (stationSec / 10) ++ py_str (stationSec mod 10))%string in
  if stationHrs >? 0 then
    (py_str (stationHrs / 10) ++ py_str (stationHrs mod 10) ++ ":"
     ++ aboutToWrite)%string
  else aboutToWrite.

(** The block [if prg != u"Idle":] of [_display_normal]; it returns
    [prg], which it turns into [Idle] when nothing runs. *)
Definition display_running (g : Gv.t) (clock : Z) (prg : string) (p : t)
  : result (string * t) :=
  let p := wake_display clock p in
  '(programRunning, stationDuration, s) <-
    scan_stations g 0 (Gv.ps g) (false, 0, EmptyString) ;;
  if Lcd.strlen s =? 0 then
    if programRunning then
      p1 <-
        (match Gv.pon g with
         | Some 98 =>
             refresh false false "RunningRun-onceProgram"
               (write_lines [("Running"%string, 0, 2, Lcd.JUSTIFY_CENTER);
                             (EmptyString, 2, 1, Lcd.JUSTIFY_LEFT);
                             ("Run-once"%string, 3, 2, Lcd.JUSTIFY_CENTER);
                             (EmptyString, 5, 1, Lcd.JUSTIFY_LEFT);
                             ("Program"%string, 6, 2, Lcd.JUSTIFY_CENTER)])
               clock p
         | Some 99 =>
             refresh false false "ManualMode"
               (write_lines [(EmptyString, 0, 1, Lcd.JUSTIFY_LEFT);
                             ("Manual"%string, 1, 2, Lcd.JUSTIFY_CENTER);
                             (EmptyString, 3, 1, Lcd.JUSTIFY_LEFT);
                             ("Mode"%string, 4, 2, Lcd.JUSTIFY_CENTER);
                             (EmptyString, 6, 2, Lcd.JUSTIFY_LEFT)])
               clock p
         | _ =>
             refresh false false ("RunningProgram" ++ prg)
               (write_lines [("Running"%string, 0, 2, Lcd.JUSTIFY_CENTER);
                             (EmptyString, 2, 1, Lcd.JUSTIFY_LEFT);
                             ("Program"%string, 3, 2, Lcd.JUSTIFY_CENTER);
                             (EmptyString, 5, 1, Lcd.JUSTIFY_LEFT);
                             (prg, 6, 2, Lcd.JUSTIFY_CENTER)])
               clock p
         end) ;;
      Ok (prg, p1)
    else Ok ("Idle"%string, p)
  else
    p1 <- refresh false true s
            (fun l => '(_, l1) <- Lcd.write_block s 0 1 5 Lcd.JUSTIFY_CENTER l ;;
                      write_lines [(" "%string, 5, 1, Lcd.JUSTIFY_CENTER)] l1)
            clock p ;;
    let aboutToWrite :=
      if (match Gv.pon g with Some 99 => true | _ => false end)
         && (stationDuration <=? 0)
      then "ON"%string else duration_string stationDuration in
    p2 <- refresh_sub aboutToWrite aboutToWrite p1 ;;
    Ok (prg, p2).

(** The end of the idle block: the display is switched off once the idle
    time has run out. *)
Definition check_idle_timeout (clock : Z) (p : t) : t :=
  let idle_timeout_seconds := idle_timeout_seconds p in
  match idle_entry_time p with
  | Some entry =>
      if negb (idled p) && (idle_timeout_seconds >? 0)
         && (clock - entry >? idle_timeout_seconds)
      then display_idled p else p
  | None => p
  end.

(** The block [if prg == u"Idle":] of [_display_normal]. *)
Definition display_idle (g : Gv.t) (clock : Z) (prg : string) (p : t)
  : result t :=
  p1 <-
    (if negb (truthy (Gv.sd_en g)) then
       refresh true false "OFF"
         (write_lines [("OFF"%string, 0, 3, Lcd.JUSTIFY_CENTER);
                       (EmptyString, 3, 5, Lcd.JUSTIFY_LEFT)])
         clock p
     else if truthy (Gv.sd_mm g) then
       refresh true false "IdleManualMode"
         (write_lines [("Idle"%string, 0, 3, Lcd.JUSTIFY_CENTER);
                       (EmptyString, 3, 1, Lcd.JUSTIFY_LEFT);
                       ("Manual"%string, 4, 2, Lcd.JUSTIFY_CENTER);
                       ("Mode"%string, 6, 2, Lcd.JUSTIFY_CENTER)])
         clock p
     else if truthy (Gv.sd_rd g) then
       p1 <- refresh true true "RainDelay"
               (write_lines [("Rain"%string, 0, 2, Lcd.JUSTIFY_CENTER);
                             (EmptyString, 2, 1, Lcd.JUSTIFY_LEFT);
                             ("Delay"%string, 3, 2, Lcd.JUSTIFY_CENTER);
                             (EmptyString, 5, 1, Lcd.JUSTIFY_LEFT)])
               clock p ;;
       let remainingHrs := (Gv.sd_rdst g - Gv.now g) / 60 / 60 in
       refresh_sub (py_str remainingHrs)
         (if remainingHrs <? 1 then "<1 hr"%string
          else if remainingHrs =? 1 then "1 hr"%string
          else (py_str remainingHrs ++ " hrs")%string)
         p1
     else if Gv.sd_wl g <? 100 then
       let waterLevel := py_str (Gv.sd_wl g) in
       p1 <- refresh true true ("IdleWaterLevel" ++ waterLevel)
               (write_lines [("Idle"%string, 0, 3, Lcd.JUSTIFY_CENTER);
                             ((waterLevel ++ "%")%string, 3, 2, Lcd.JUSTIFY_CENTER);
                             (EmptyString, 5, 1, Lcd.JUSTIFY_LEFT)])
               clock p ;;
       refresh_sub (get_time_string g) (get_time_string g) p1
     else
       p1 <- refresh true true prg
               (write_lines [(prg, 0, 3, Lcd.JUSTIFY_CENTER);
                             (EmptyString, 3, 3, Lcd.JUSTIFY_LEFT)])
               clock p ;;
       refresh_sub (get_time_string g) (get_time_string g) p1) ;;
  Ok (check_idle_timeout clock p1).

(** [_display_normal].  [clock] is what [time.time()] returns during the
    call. *)
Definition display_normal (g : Gv.t) (clock : Z) (p : t) : result t :=
  let p :=
    if displaying_custom p then
      wake_display clock
        (with_custom_display_canceled false
           (with_displaying_custom false (reset_lcd_state p)))
    else p in
  let prg :=
    match Gv.pon g with
    | None => "Idle"%string
    | Some 98 => "Run-once"%string
    | Some 99 => "Manual Mode"%string
    | Some n => py_str n
    end in
  '(prg, p1) <-
    (if negb (String.eqb prg "Idle") then display_running g clock prg p
     else Ok (prg, p)) ;;
  if String.eqb prg "Idle" then display_idle g clock prg p1 else Ok p1.

(** [notify_restart] *)
Definition notify_restart (p : t) : t := stop p.

Section Run.

(** [_display_normal] renders the host's status ([gv]), which is outside
    this development; the loop is described for any such rendering. *)
Variable display_normal : Z -> t -> result t.

(** One pass of the [while self._running] loop of [run], up to the
    wait: the wait time and the new state. *)
Definition run_tick (now : Z) (p : t) : result (Z * t) :=
  match custom_display_queue p with
  | _ :: _ => display_custom now p
  | [] => p1 <- display_normal now p ;; Ok (1, p1)
  end.

End Run.

(** One pass of the loop of [run] with the status display of this file. *)
Definition tick (g : Gv.t) (clock : Z) (p : t) : result (Z * t) :=
  run_tick (display_normal g) clock p.

End LcdPlugin.

(** ** Vocabulary of the statements *)

(** The active window and the write cursor of a driver. *)
Definition window (s : Lcd.t) : Z * Z * Z * Z :=
  (Lcd.gmin_col s, Lcd.gmax_col s, Lcd.gmin_row s, Lcd.gmax_row s).

Definition cursor (s : Lcd.t) : Z * Z :=
  (Lcd.current_col s, Lcd.current_row s).

Definition cursor_in_window (s : Lcd.t) : Prop :=
  Lcd.gmin_col s <= Lcd.current_col s <= Lcd.gmax_col s /\
  Lcd.gmin_row s <= Lcd.current_row s <= Lcd.gmax_row s.

(** What a data write keeps: the window, and the cursor inside it. *)
Definition tracked (w : Z * Z * Z * Z) (s : Lcd.t) : Prop :=
  window s = w /\ cursor_in_window s.

(** The screen has at least one column and the origin is not negative,
    as [Lcd.__init__] makes it for a positive width. *)
Definition geometry_ok (s : Lcd.t) : Prop :=
  0 <= Lcd.min_col_addr s <= Lcd.max_col_addr s /\ 0 <= Lcd.min_row_addr s.


(** A bus on which every transaction goes through, and one on which
    none does. *)
Definition bus_up : Bus := mkBus (fun _ => true) [].
Definition bus_dead : Bus := mkBus (fun _ => false) [].

(** The 128x64 screen of the plugin, at its default address. *)
Definition screen_128x64 (b : Bus) : Lcd.t := Lcd.init 0x78 b 128 64.

(** A screen of 13 columns and one row band. *)
Definition screen_13x8 (b : Bus) : Lcd.t := Lcd.init 0x78 b 13 8.




(** The cursor bookkeeping of [_lcd_increment_current] taken alone. *)
Definition advance (x : Z) (s : Lcd.t) : Lcd.t :=
  snd (Lcd.lcd_increment_current x s).

(** Two drivers with the same window and the same cursor. *)
Definition same_place (s s' : Lcd.t) : Prop :=
  window s = window s' /\ cursor s = cursor s'.

(** What the bus saw of a transaction: the command byte and the payload. *)
Definition on_wire (t : Txn) : Z * list Z := (txn_cmd t, txn_data t).

(** The transactions a call added to the transcript. *)
Definition new_txns (before after : Lcd.t) : list Txn :=
  skipn (length (sent (Lcd.bus before))) (sent (Lcd.bus after)).

(** [kept] is [row] without its first [k_left] and its last [k_right]
    columns. *)
Definition crops_to (k_left k_right : Z) (row kept : list Z) : Prop :=
  exists l r, row = l ++ kept ++ r /\ len l = k_left /\ len r = k_right.

(** The payloads of the data transactions of a transcript. *)
Definition data_sent (s : Lcd.t) : list (list Z) :=
  map txn_data
      (filter (fun t => txn_cmd t =? Lcd.DATA_BYTE) (sent (Lcd.bus s))).

(** Two drivers for the same screen. *)
Definition same_screen (s s' : Lcd.t) : Prop :=
  Lcd.min_col_addr s' = Lcd.min_col_addr s /\
  Lcd.max_col_addr s' = Lcd.max_col_addr s /\
  Lcd.min_row_addr s' = Lcd.min_row_addr s /\
  Lcd.max_row_addr s' = Lcd.max_row_addr s.

(** A value that fits a byte. *)
Definition is_byte (b : Z) : bool := (0 <=? b) && (b <=? 255).

(** The loop state of [_generate_char_sequence] stays well formed: the
    column mask holds bytes, the output keeps its [n] rows. *)
Definition paint_ok (n : nat) (st : Z * list Z * list (list Z)) : Prop :=
  forallb is_byte (snd (fst st)) = true /\ length (snd st) = n.

(** The wrapping loop keeps [currentLine] on the last line. *)
Definition on_last_line (st : Lcd.wrap_state) : Prop :=
  let '(lines, currentLine, _, _) := st in
  lines <> [] /\ currentLine = len lines - 1.

(** Every transaction attempted from now on goes through. *)
Definition bus_all_up (s : Lcd.t) : Prop :=
  forall n, (length (sent (Lcd.bus s)) <= n)%nat ->
            outcome (Lcd.bus s) n = true.

(** The active window has at least one column and one row band. *)
Definition window_ordered_b (s : Lcd.t) : bool :=
  (Lcd.gmin_col s <=? Lcd.gmax_col s) && (Lcd.gmin_row s <=? Lcd.gmax_row s).

(** The screen of the driver, as a window. *)
Definition full_screen (s : Lcd.t) : Z * Z * Z * Z :=
  (Lcd.min_col_addr s, Lcd.max_col_addr s,
   Lcd.min_row_addr s, Lcd.max_row_addr s).

(** The screen has at least one column and one row band and its origin
    is not negative. *)
Definition screen_ok (s : Lcd.t) : Prop :=
  0 <= Lcd.min_col_addr s <= Lcd.max_col_addr s /\
  0 <= Lcd.min_row_addr s <= Lcd.max_row_addr s.

(** [n] data bytes written one after the other. *)
Definition write_bytes (n : nat) (byte : Z) (s : Lcd.t) : Lcd.t :=
  Nat.iter n (fun st => snd (Lcd.write_data_byte byte st)) s.

(** A transaction that failed. *)
Definition txn_failed (t : Txn) : bool := negb (txn_ok t).

(** A disabled driver whose bus is the one of [s0]. *)
Definition quiet (s0 s : Lcd.t) : Prop :=
  Lcd.enabled s = false /\ Lcd.bus s = Lcd.bus s0.

(** A row of [w] bytes. *)
Definition byte_row (w : nat) (row : list Z) : Prop :=
  length row = w /\ forallb is_byte row = true.

(** The loop state of [_generate_char_sequence] with the shape of the
    output spelled out: [n] rows of [w] bytes. *)
Definition render_ok (n w : nat) (st : Z * list Z * list (list Z)) : Prop :=
  forallb is_byte (snd (fst st)) = true /\ length (snd st) = n /\
  Forall (byte_row w) (snd st).

(** [rows] is [glyph] magnified [s] times: the pixel at bit [i] of
    column [x] of row band [b] is the pixel of the glyph at column
    [x / s] and pixel row [(8 b + i) / s]. *)
Definition magnified (glyph : list Z) (s : Z) (rows : list (list Z)) : bool :=
  forallb (fun b =>
    forallb (fun x =>
      forallb (fun i =>
        Bool.eqb (Z.testbit (nth (Z.to_nat x) (nth (Z.to_nat b) rows []) 0) i)
                 (Z.testbit (nth (Z.to_nat (x / s)) glyph 0) ((8 * b + i) / s)))
        (Lcd.range 8))
      (Lcd.range (6 * s)))
    (Lcd.range s).

(** The rendering of a character is the magnified glyph. *)
Definition renders_magnified (c : ascii) (s : Z) : bool :=
  match Lcd.generate_char_sequence c s with
  | Ok rows => magnified (Lcd.glyph_columns c) s rows
  | Raise _ => false
  end.

(** A data write issued by a client of the driver. *)
Inductive data_write : Type :=
| DataByte (byte : Z)
| DataSeq (sequence : list Z).

Definition do_write (s : Lcd.t) (w : data_write) : Lcd.t :=
  match w with
  | DataByte byte => snd (Lcd.write_data_byte byte s)
  | DataSeq sequence => snd (Lcd.write_data_sequence sequence s)
  end.

(** [" ".join(lines)] *)
Fixpoint join_space (lines : list string) : string :=
  match lines with
  | [] => EmptyString
  | [l] => l
  | l :: rest => (l ++ " " ++ join_space rest)%string
  end.

(** The queue as the specification words it: requests are appended at
    the back and taken from the front. *)
Module Fifo.

Definition push_back {A : Type} (x : A) (q : list A) : list A := q ++ [x].

Definition pop_front {A : Type} (q : list A) : option (A * list A) :=
  match q with
  | [] => None
  | x :: r => Some (x, r)
  end.

End Fifo.

(** The requests of [items] handled one after the other, first to last,
    by the loop body of [_display_custom]. *)
Fixpoint display_each (now : Z) (items : list LcdPlugin.QueueItem)
    (delay : option Z) (p : LcdPlugin.t) : result (Z * LcdPlugin.t) :=
  match items with
  | [] =>
      match delay with
      | Some d => Ok (d, p)
      | None => Raise UnboundLocalError
      end
  | item :: items' =>
      '(d, p1) <- LcdPlugin.display_item now item p ;;
      display_each now items' (Some d) p1
  end.

(** The row [row] seen through a line of [w] columns when its first
    column stands at column [off] of the line: column [x] of the line
    shows [row[x - off]], and a blank where the row does not reach. *)
Definition placed (off w : Z) (row : list Z) : list Z :=
  map (fun x => if (off <=? x) && (x <? off + len row)
                then nth (Z.to_nat (x - off)) row 0 else 0)
      (Lcd.range w).

(** Where a row of [l] columns starts in a line of [w] columns: at the
    left edge, flush with the right edge, or in the middle with the odd
    column rounded towards the left edge of the line. *)
Definition justify_offset (justification w l : Z) : Z :=
  if justification =? Lcd.JUSTIFY_RIGHT then w - l
  else if justification =? Lcd.JUSTIFY_CENTER then Z.quot (w - l) 2
  else 0.

(** Row band [b] of the rendering of one character, and of a text: the
    bands of its characters side by side. *)
Definition char_band (scale : Z) (b : nat) (c : ascii) : list Z :=
  match Lcd.generate_char_sequence c scale with
  | Ok rows => nth b rows []
  | Raise _ => []
  end.

Definition text_band (text : string) (scale : Z) (b : nat) : list Z :=
  flat_map (char_band scale b) (list_ascii_of_string text).

(** The data transactions that carry one row of pixels. *)
Definition row_on_wire (row : list Z) : list (Z * list Z) :=
  map (pair Lcd.DATA_BYTE) (chunks 32 row).

(** A line of text is not wider than [maxWidth] pixels at scale [c]:
    every character takes [6 c] columns. *)
Definition line_fits (c maxWidth : Z) (line : string) : Prop :=
  6 * Lcd.strlen line * c <= maxWidth.

(** The test that ends the search of [write_block] at scale [c]: the
    wrapped lines are at most [max_text_size / c] and no word was
    flagged as too long. *)
Definition wrap_fits (words : list string) (wordSizes : list Z)
    (maxWidth max_text_size c : Z) : bool :=
  match Lcd.wrap_words words wordSizes c maxWidth with
  | Ok (lines, lineTooLong) =>
      (len lines <=? max_text_size / c) && negb lineTooLong
  | Raise _ => false
  end.

(** What the wrapping loop keeps: the current line is the last one and
    [currentSize] is its width; the lines after the first fit unless the
    flag is up; the first line fits or is the first word alone. *)
Definition wrap_inv (cts maxWidth : Z) (w0 : string) (st : Lcd.wrap_state)
  : Prop :=
  let '(lines, currentLine, currentSize, lineTooLong) := st in
  exists init l,
    lines = init ++ [l] /\ currentLine = len init /\
    currentSize = 6 * Lcd.strlen l /\
    (lineTooLong = false -> Forall (line_fits cts maxWidth) (tl lines)) /\
    (line_fits cts maxWidth (hd EmptyString lines) \/ hd EmptyString lines = w0).



(** * Properties *)

(** ** Driver bookkeeping *)

Section DriverFacts.

Import Lcd.

Lemma bus_write_frame cmd data s :
  let s' := snd (bus_write cmd data s) in
  window s' = window s /\ cursor s' = cursor s /\
  enabled s' = enabled s /\ write_failure s' = write_failure s.
Proof. destruct s; cbn; auto. Qed.

Lemma note_failure_frame s :
  window (note_failure s) = window s /\ cursor (note_failure s) = cursor s /\
  enabled (note_failure s) = enabled s /\ bus (note_failure s) = bus s.
Proof. unfold note_failure; destruct s as [? ? ? ? ? ? ? ? ? ? ? ? wf ? ?]; destruct wf; cbn; auto. Qed.

Lemma increment_frame x s :
  let s' := snd (lcd_increment_current x s) in
  window s' = window s /\ enabled s' = enabled s /\ bus s' = bus s.
Proof.
  unfold lcd_increment_current.
  destruct ((gmax_col s - gmin_col s + 1 =? 0) || (gmax_row s - gmin_row s + 1 =? 0));
    destruct s; cbn; auto.
Qed.

Lemma increment_in_window x s :
  gmin_col s <= gmax_col s -> gmin_row s <= gmax_row s ->
  fst (lcd_increment_current x s) = None /\
  cursor_in_window (snd (lcd_increment_current x s)).
Proof.
  intros Hc Hr. unfold lcd_increment_current.
  destruct (Z.eqb_spec (gmax_col s - gmin_col s + 1) 0) as [E|_]; [lia|].
  destruct (Z.eqb_spec (gmax_row s - gmin_row s + 1) 0) as [E|_]; [lia|].
  destruct s as [a b m0 m1 n0 n1 c0 c1 r0 r1 cc cr f p e]; cbn in *.
  split; [reflexivity|]. unfold cursor_in_window; cbn.
  pose proof (Z.mod_pos_bound (cc + x) (c1 - c0 + 1)).
  pose proof (Z.mod_pos_bound ((cc + x) / (c1 - c0 + 1) + cr) (r1 - r0 + 1)).
  lia.
Qed.

Lemma cursor_in_window_ext s s' :
  window s' = window s -> cursor s' = cursor s ->
  cursor_in_window s -> cursor_in_window s'.
Proof.
  unfold window, cursor, cursor_in_window. intros Hw Hc.
  injection Hw as -> -> -> ->. injection Hc as -> ->. auto.
Qed.

Lemma fold_left_invariant {A B : Type} (P : A -> Prop) (f : A -> B -> A) l :
  (forall a x, P a -> P (f a x)) -> forall a, P a -> P (fold_left f l a).
Proof. intros Hf. induction l as [|x l IH]; cbn; auto. Qed.

Lemma window_ordered s :
  cursor_in_window s -> gmin_col s <= gmax_col s /\ gmin_row s <= gmax_row s.
Proof. unfold cursor_in_window. lia. Qed.

Lemma write_data_byte_tracked w byte s :
  tracked w s -> tracked w (snd (write_data_byte byte s)).
Proof.
  intros [Hw Hc]. unfold write_data_byte.
  destruct (enabled s); [|split; assumption].
  destruct (bus_write_frame DATA_BYTE [byte] s) as (Fw & Fc & _).
  destruct (bus_write DATA_BYTE [byte] s) as [ok s1]; cbn in Fw, Fc.
  assert (Hc1 : cursor_in_window s1) by (eapply cursor_in_window_ext; eauto).
  destruct ok.
  - destruct (window_ordered _ Hc1) as [Oc Or].
    destruct (increment_in_window 1 s1 Oc Or) as [Hn Hin].
    destruct (increment_frame 1 s1) as (Iw & _).
    destruct (lcd_increment_current 1 s1) as [e s2]; cbn in *. subst e. cbn.
    split; [congruence | assumption].
  - destruct (note_failure_frame s1) as (Nw & Nc & _). cbn.
    split; [congruence | eapply cursor_in_window_ext; eauto].
Qed.

Lemma write_chunk_tracked w cmd total acc chunk :
  tracked w (snd acc) -> tracked w (snd (write_chunk cmd total acc chunk)).
Proof.
  destruct acc as [status s]. cbn [snd]. intros [Hw Hc]. unfold write_chunk.
  destruct (bus_write_frame cmd chunk s) as (Fw & Fc & _).
  destruct (bus_write cmd chunk s) as [ok s1]; cbn in Fw, Fc.
  assert (Hc1 : cursor_in_window s1) by (eapply cursor_in_window_ext; eauto).
  destruct ok.
  - destruct (cmd =? DATA_BYTE).
    + destruct (window_ordered _ Hc1) as [Oc Or].
      destruct (increment_in_window total s1 Oc Or) as [Hn Hin].
      destruct (increment_frame total s1) as (Iw & _).
      destruct (lcd_increment_current total s1) as [e s2]; cbn in *. subst e. cbn.
      split; [congruence | assumption].
    + cbn. split; [congruence | assumption].
  - destruct (note_failure_frame s1) as (Nw & Nc & _). cbn.
    split; [congruence | eapply cursor_in_window_ext; eauto].
Qed.

Lemma write_sequence_tracked w cmd sequence s :
  tracked w s -> tracked w (snd (write_sequence cmd sequence s)).
Proof.
  intros H. unfold write_sequence. destruct (enabled s); [|assumption].
  apply (fold_left_invariant (fun acc => tracked w (snd acc))); [|assumption].
  intros acc chunk. apply write_chunk_tracked.
Qed.

Lemma do_write_tracked w s wr : tracked w s -> tracked w (do_write s wr).
Proof.
  destruct wr; cbn.
  - apply write_data_byte_tracked.
  - apply write_sequence_tracked.
Qed.

(** A window-select call whose arguments pass the range checks records
    the window and puts the cursor at its origin, whatever the bus did. *)
Lemma set_print_area_selects min_col max_col min_row max_row s :
  0 <= min_col <= max_col -> max_col <= max_col_addr s ->
  0 <= min_row <= max_row -> max_row <= max_row_addr s ->
  let s' := snd (lcd_set_print_area min_col max_col min_row max_row s) in
  window s' = (min_col, max_col, min_row, max_row) /\
  cursor s' = (min_col, min_row).
Proof.
  intros Hc Hc' Hr Hr'. unfold lcd_set_print_area.
  replace ((min_col <? 0) || (max_col >? max_col_addr s) || (max_col <? min_col))
    with false by (symmetry; rewrite !orb_false_iff; repeat split; lia).
  replace ((min_row <? 0) || (max_row >? max_row_addr s) || (max_row <? min_row))
    with false by (symmetry; rewrite !orb_false_iff; repeat split; lia).
  destruct (write_control_sequence _ s) as [status s1]. destruct s1; cbn; auto.
Qed.

(** *** Chunking *)

Lemma chunks_fuel_nil {A : Type} fuel n : @chunks_fuel A fuel n [] = [].
Proof. destruct fuel; reflexivity. Qed.

Lemma chunks_fuel_concat {A : Type} (n : nat) :
  (1 <= n)%nat -> forall fuel (l : list A),
  (length l <= fuel)%nat -> concat (chunks_fuel fuel n l) = l.
Proof.
  intros Hn. induction fuel as [|fuel IH]; intros l Hl.
  - destruct l; [reflexivity | cbn in Hl; lia].
  - destruct l as [|x l]; [reflexivity|].
    cbn [chunks_fuel concat]. rewrite IH.
    + apply firstn_skipn.
    + rewrite length_skipn. cbn [length] in *. lia.
Qed.

Lemma chunks_fuel_sizes {A : Type} (n : nat) :
  (1 <= n)%nat -> forall fuel (l : list A),
  Forall (fun c => (1 <= length c <= n)%nat) (chunks_fuel fuel n l).
Proof.
  intros Hn. induction fuel as [|fuel IH]; intros l; [constructor|].
  destruct l as [|x l]; [constructor|].
  cbn [chunks_fuel]. constructor; [|apply IH].
  rewrite length_firstn. cbn [length]. lia.
Qed.

Lemma chunks_fuel_count {A : Type} (n : nat) :
  (1 <= n)%nat -> forall fuel (l : list A),
  (length l <= fuel)%nat ->
  let k := length (chunks_fuel fuel n l) in
  (length l <= n * k)%nat /\ (l <> [] -> n * k < length l + n)%nat.
Proof.
  intros Hn. induction fuel as [|fuel IH]; intros l Hl.
  - destruct l; [cbn; split; [lia | congruence] | cbn in Hl; lia].
  - destruct l as [|x l]; [cbn; split; [lia | congruence]|].
    cbn [chunks_fuel length].
    assert (Hs : (length (skipn n (x :: l)) <= fuel)%nat)
      by (rewrite length_skipn; cbn [length] in *; lia).
    specialize (IH (skipn n (x :: l)) Hs). cbn zeta in IH.
    destruct IH as [Hup Hlow].
    destruct (skipn n (x :: l)) as [|y r] eqn:E.
    + rewrite chunks_fuel_nil in *. cbn [length] in *.
      assert (length (skipn n (x :: l)) = 0%nat) by (rewrite E; reflexivity).
      rewrite length_skipn in H. cbn [length] in H. split; intros; lia.
    + assert (Hne : y :: r <> []) by congruence. specialize (Hlow Hne).
      assert (L : length (skipn n (x :: l)) = length (y :: r)) by (rewrite E; reflexivity).
      rewrite length_skipn in L. cbn [length] in L, Hup, Hlow |- *.
      split; intros; lia.
Qed.

Lemma chunks_ceil {A : Type} (l : list A) :
  len (chunks 32 l) = (len l + 31) / 32.
Proof.
  unfold chunks, len.
  destruct (chunks_fuel_count 32 ltac:(lia) (length l) l (Nat.le_refl _)) as [Hup Hlow].
  cbn zeta in Hup, Hlow.
  destruct l as [|x l].
  - rewrite chunks_fuel_nil. reflexivity.
  - assert (Hne : x :: l <> []) by congruence. specialize (Hlow Hne).
    apply Z.div_unique with
      (r := Z.of_nat (length (x :: l)) + 31
            - 32 * Z.of_nat (length (chunks_fuel (length (x :: l)) 32 (x :: l)))).
    + left. lia.
    + lia.
Qed.

(** *** The chunk loop *)

Lemma advance_same_place x s s' :
  same_place s s' -> same_place (advance x s) (advance x s').
Proof.
  unfold same_place, advance, window, cursor, lcd_increment_current.
  intros [Hw Hc]. injection Hw as E1 E2 E3 E4. injection Hc as E5 E6.
  rewrite E1, E2, E3, E4.
  destruct ((gmax_col s' - gmin_col s' + 1 =? 0) || (gmax_row s' - gmin_row s' + 1 =? 0));
    destruct s, s'; cbn in *; subst; auto.
Qed.

Lemma iter_advance_same_place x k s s' :
  same_place s s' ->
  same_place (Nat.iter k (advance x) s) (Nat.iter k (advance x) s').
Proof.
  intros H. induction k as [|k IH]; cbn; [assumption|].
  apply advance_same_place, IH.
Qed.

Lemma same_place_trans s1 s2 s3 :
  same_place s1 s2 -> same_place s2 s3 -> same_place s1 s3.
Proof. unfold same_place. intros [? ?] [? ?]. split; congruence. Qed.

Lemma same_place_ordered s s' :
  same_place s s' ->
  gmin_col s' <= gmax_col s' /\ gmin_row s' <= gmax_row s' ->
  gmin_col s <= gmax_col s /\ gmin_row s <= gmax_row s.
Proof.
  unfold same_place, window. intros [Hw _]. injection Hw as -> -> -> ->. auto.
Qed.

Lemma bus_write_sent cmd data s :
  let ok := outcome (bus s) (length (sent (bus s))) in
  fst (bus_write cmd data s) = ok /\
  sent (bus (snd (bus_write cmd data s)))
    = sent (bus s) ++ [mkTxn (hw_write_addr s) cmd data ok] /\
  outcome (bus (snd (bus_write cmd data s))) = outcome (bus s).
Proof. destruct s; cbn; auto. Qed.

(** One pass of the chunk loop: the transaction is recorded; after a data
    chunk that went through the cursor is where [_lcd_increment_current]
    leaves it, whether or not that call raised. *)
Lemma write_chunk_step cmd total status s c :
  let r := write_chunk cmd total (status, s) c in
  let ok := outcome (bus s) (length (sent (bus s))) in
  sent (bus (snd r)) = sent (bus s) ++ [mkTxn (hw_write_addr s) cmd c ok] /\
  outcome (bus (snd r)) = outcome (bus s) /\
  enabled (snd r) = enabled s /\
  same_place (snd r)
    (if ok && (cmd =? DATA_BYTE) then advance total s else s).
Proof.
  cbn zeta. unfold write_chunk.
  destruct (bus_write_sent cmd c s) as (Bok & Bsent & Bout).
  destruct (bus_write_frame cmd c s) as (Fw & Fc & Fe & _).
  destruct (bus_write cmd c s) as [ok s1]. cbn [fst snd] in *.
  assert (P1 : same_place s1 s) by (split; assumption).
  rewrite <- Bok in *. clear Bok. destruct ok; cbn [andb].
  - destruct (cmd =? DATA_BYTE).
    + destruct (increment_frame total s1) as (Iw & Ie & Ib).
      assert (Ha : snd (lcd_increment_current total s1) = advance total s1)
        by reflexivity.
      pose proof (advance_same_place total s1 s P1) as Hadv.
      destruct (lcd_increment_current total s1) as [e s2]. cbn [fst snd] in *.
      rewrite <- Ha in Hadv.
      destruct e as [e|]; cbn [fst snd].
      * destruct (note_failure_frame s2) as (Nw & Nc & Ne & Nb).
        rewrite Nb, Ne, Ib, Ie.
        refine (conj Bsent (conj Bout (conj Fe _))).
        destruct Hadv. split; congruence.
      * rewrite Ib, Ie. exact (conj Bsent (conj Bout (conj Fe Hadv))).
    + cbn [fst snd]. exact (conj Bsent (conj Bout (conj Fe P1))).
  - destruct (note_failure_frame s1) as (Nw & Nc & Ne & Nb).
    cbn [fst snd]. rewrite Nb, Ne.
    refine (conj Bsent (conj Bout (conj Fe _))).
    split; congruence.
Qed.

(** The chunk loop of [_write_sequence]: one transaction per chunk, in
    order; the cursor of a data sequence has moved by [total] once for
    each chunk that went through. *)
Lemma write_chunks_spec cmd total cs :
  forall status s,
  let r := fold_left (write_chunk cmd total) cs (status, s) in
  exists news,
    sent (bus (snd r)) = sent (bus s) ++ news /\
    outcome (bus (snd r)) = outcome (bus s) /\
    map on_wire news = map (pair cmd) cs /\
    enabled (snd r) = enabled s /\
    same_place (snd r)
      (if cmd =? DATA_BYTE
       then Nat.iter (length (filter txn_ok news)) (advance total) s
       else s).
Proof.
  induction cs as [|c cs IH]; intros status s.
  - exists []. cbn. rewrite app_nil_r.
    refine (conj eq_refl (conj eq_refl (conj eq_refl (conj eq_refl _)))).
    destruct (cmd =? DATA_BYTE); split; reflexivity.
  - cbn [fold_left].
    destruct (write_chunk_step cmd total status s c)
      as (Ssent & Sout & Sen & Spl).
    destruct (write_chunk cmd total (status, s) c) as [st1 s1].
    cbn [fst snd] in *.
    set (ok := outcome (bus s) (length (sent (bus s)))) in *.
    destruct (IH st1 s1) as (news & Hs & Ho & Hm & He & Hp).
    exists (mkTxn (hw_write_addr s) cmd c ok :: news). cbn zeta in *.
    rewrite Hs, Ho, He, Ssent, Sout, Sen, <- app_assoc.
    cbn [map existsb filter app on_wire txn_cmd txn_data txn_ok].
    rewrite Hm.
    refine (conj eq_refl (conj eq_refl (conj eq_refl (conj eq_refl _)))).
    eapply same_place_trans; [exact Hp|].
    destruct (cmd =? DATA_BYTE); [|rewrite andb_false_r in Spl; assumption].
    rewrite andb_true_r in Spl. destruct ok.
    + cbn [length]. rewrite Nat.iter_succ_r.
      apply iter_advance_same_place. assumption.
    + apply iter_advance_same_place. assumption.
Qed.

Lemma iter_advance_window x k s :
  window (Nat.iter k (advance x) s) = window s.
Proof.
  induction k as [|k IH]; [reflexivity|].
  destruct (increment_frame x (Nat.iter k (advance x) s)) as (Iw & _).
  change (Nat.iter (S k) (advance x) s)
    with (snd (lcd_increment_current x (Nat.iter k (advance x) s))).
  congruence.
Qed.

(** *** Failing transactions *)










(** *** Stepping in a window anchored at the origin *)

Lemma data_byte_row_major_at_origin byte c1 r1 s :
  enabled s = true ->
  outcome (bus s) (length (sent (bus s))) = true ->
  window s = (0, c1, 0, r1) -> cursor_in_window s ->
  let r := write_data_byte byte s in
  fst r = true /\ window (snd r) = window s /\
  cursor (snd r)
  = if current_col s <? c1 then (current_col s + 1, current_row s)
    else (0, if current_row s <? r1 then current_row s + 1 else 0).
Proof.
  intros He Ho Hw Hc. cbn zeta. unfold write_data_byte. rewrite He.
  destruct (bus_write_sent DATA_BYTE [byte] s) as (Bok & _).
  destruct (bus_write_frame DATA_BYTE [byte] s) as (Fw & Fc & _).
  destruct (bus_write DATA_BYTE [byte] s) as [ok s1]. cbn [fst snd] in *.
  rewrite Ho in Bok. subst ok.
  unfold window, cursor, cursor_in_window in *.
  injection Hw as E1 E2 E3 E4. rewrite E1, E2, E3, E4 in *.
  injection Fw as G1 G2 G3 G4. injection Fc as G5 G6.
  unfold lcd_increment_current.
  destruct s1; cbn in G1, G2, G3, G4, G5, G6 |- *. subst.
  destruct (Z.eqb_spec (gmax_col s - 0 + 1) 0); [lia|].
  destruct (Z.eqb_spec (gmax_row s - 0 + 1) 0); [lia|].
  cbn. split; [reflexivity|]. split; [reflexivity|].
  set (c1 := gmax_col s) in *. set (r1 := gmax_row s) in *.
  replace (c1 - 0 + 1) with (c1 + 1) by lia.
  replace (r1 - 0 + 1) with (r1 + 1) by lia.
  rewrite !Z.add_0_r.
  destruct (Z.ltb_spec (current_col s) c1).
  - rewrite (Z.div_small (current_col s + 1)), (Z.mod_small (current_col s + 1)) by lia.
    rewrite Z.add_0_l, Z.mod_small by lia. reflexivity.
  - assert (current_col s = c1) by lia.
    replace (current_col s + 1) with (c1 + 1) by lia.
    rewrite Z.div_same, Z.mod_same by lia.
    destruct (Z.ltb_spec (current_row s) r1).
    + rewrite Z.mod_small by lia. f_equal. lia.
    + replace (1 + current_row s) with (r1 + 1) by lia.
      rewrite Z.mod_same by lia. reflexivity.
Qed.

End DriverFacts.

(** C2.  After a window-select call with a valid window, and after any
    sequence of data-byte and data-sequence writes that follows it, the
    window is still the selected one and the cursor lies inside it: the
    column between [min_col] and [max_col], the row band between
    [min_row] and [max_row].  This holds whichever bus transactions
    fail. *)
Theorem cursor_never_leaves_window
    (s : Lcd.t) (min_col max_col min_row max_row : Z)
    (writes : list data_write) :
  0 <= min_col <= max_col -> max_col <= Lcd.max_col_addr s ->
  0 <= min_row <= max_row -> max_row <= Lcd.max_row_addr s ->
  let s1 := snd (Lcd.lcd_set_print_area min_col max_col min_row max_row s) in
  let s2 := fold_left do_write writes s1 in
  window s2 = (min_col, max_col, min_row, max_row) /\
  min_col <= Lcd.current_col s2 <= max_col /\
  min_row <= Lcd.current_row s2 <= max_row.
Proof.
  intros Hc Hc' Hr Hr' s1 s2.
  destruct (set_print_area_selects min_col max_col min_row max_row s Hc Hc' Hr Hr')
    as [Hw Hcur]. fold s1 in Hw, Hcur.
  assert (T1 : tracked (min_col, max_col, min_row, max_row) s1).
  { split; [assumption|]. unfold window, cursor in *. unfold cursor_in_window.
    injection Hw as -> -> -> ->. injection Hcur as -> ->. lia. }
  assert (T2 : tracked (min_col, max_col, min_row, max_row) s2).
  { unfold s2. apply fold_left_invariant; [|assumption].
    intros a x. apply do_write_tracked. }
  destruct T2 as [Hw2 Hc2]. split; [assumption|].
  unfold window in Hw2. unfold cursor_in_window in Hc2.
  injection Hw2 as E1 E2 E3 E4. lia.
Qed.

(** C3.  The cursor bookkeeping does not step row-major in a window that
    does not start at the origin.  On a 128x64 screen with a working bus,
    after selecting columns 0..127 of row bands 1..2 the cursor is at
    column 0 of band 1; one data byte later it is at column 1 of band 2,
    although the column did not pass the window's last column.  In the
    window of columns 5..9 and bands 0..1 the first data byte moves the
    cursor from (5, 0) to (6, 1). *)
Theorem data_byte_row_jump_in_offset_window :
  cursor (snd (Lcd.lcd_set_print_area 0 127 1 2 (screen_128x64 bus_up)))
  = (0, 1) /\
  fst (Lcd.write_data_byte 0
         (snd (Lcd.lcd_set_print_area 0 127 1 2 (screen_128x64 bus_up))))
  = true /\
  cursor (snd (Lcd.write_data_byte 0
                 (snd (Lcd.lcd_set_print_area 0 127 1 2 (screen_128x64 bus_up)))))
  = (1, 2) /\
  cursor (snd (Lcd.lcd_set_print_area 5 9 0 1 (screen_128x64 bus_up)))
  = (5, 0) /\
  cursor (snd (Lcd.write_data_byte 0
                 (snd (Lcd.lcd_set_print_area 5 9 0 1 (screen_128x64 bus_up)))))
  = (6, 1).
Proof. vm_compute. repeat split. Qed.


(** C8.  A sequence write on an enabled driver sends the sequence as
    consecutive chunks of at most 32 bytes, [ceil(L / 32)] of them for a
    sequence of length [L], one bus transaction per chunk and in order.
    The window is kept.  For a data sequence the cursor has been advanced
    by the full length [L] once for each chunk that went through, which
    is [ceil(L / 32)] times when all did; for a control sequence it has
    not moved. *)
Theorem write_sequence_chunked (cmd : Z) (sequence : list Z) (s : Lcd.t) :
  Lcd.enabled s = true ->
  let r := Lcd.write_sequence cmd sequence s in
  let cs := chunks 32 sequence in
  let news := new_txns s (snd r) in
  let done := length (filter txn_ok news) in
  concat cs = sequence /\
  Forall (fun c => (1 <= length c <= 32)%nat) cs /\
  len cs = (len sequence + 31) / 32 /\
  sent (Lcd.bus (snd r)) = sent (Lcd.bus s) ++ news /\
  map on_wire news = map (pair cmd) cs /\
  window (snd r) = window s /\
  (cmd = Lcd.DATA_BYTE ->
   cursor (snd r) = cursor (Nat.iter done (advance (len sequence)) s)) /\
  (cmd <> Lcd.DATA_BYTE -> cursor (snd r) = cursor s) /\
  (Forall (fun t => txn_ok t = true) news -> done = length cs).
Proof.
  intros He r cs news done.
  split; [apply chunks_fuel_concat; lia|].
  split; [apply chunks_fuel_sizes; lia|].
  split; [apply chunks_ceil|].
  destruct (write_chunks_spec cmd (len sequence) cs false s)
    as (ts & Hs & _ & Hm & _ & Hp).
  cbn zeta in *.
  assert (Er : r = fold_left (Lcd.write_chunk cmd (len sequence)) cs (false, s)).
  { unfold r, Lcd.write_sequence. rewrite He. reflexivity. }
  rewrite <- Er in *.
  assert (En : news = ts).
  { unfold news, new_txns. rewrite Hs, skipn_app, Nat.sub_diag, skipn_all.
    reflexivity. }
  subst done. rewrite En. clear En.
  split; [assumption|]. split; [assumption|].
  assert (L : length ts = length cs)
    by (rewrite <- (length_map on_wire), Hm, length_map; reflexivity).
  assert (Hcount : Forall (fun t => txn_ok t = true) ts ->
                   length (filter txn_ok ts) = length cs).
  { intros Hall. rewrite <- L. clear -Hall.
    induction Hall as [|t l Ht _ IH]; cbn; [reflexivity|].
    rewrite Ht. cbn. congruence. }
  destruct (Z.eqb_spec cmd Lcd.DATA_BYTE) as [E|E].
  - destruct Hp as [Hw Hc]. rewrite iter_advance_window in Hw.
    split; [assumption|]. split; [intros _; assumption|].
    split; [intros N; contradiction | assumption].
  - destruct Hp as [Hw Hc].
    split; [assumption|]. split; [intros Y; contradiction|].
    split; [intros _; assumption | assumption].
Qed.

(** ** Text layout *)

Section LayoutFacts.

Import Lcd.

Lemma len_zeros n : 0 <= n -> len (zeros n) = n.
Proof. intros H. unfold len, zeros. rewrite repeat_length. lia. Qed.

Lemma len_app {A : Type} (l l' : list A) : len (l ++ l') = len l + len l'.
Proof. unfold len. rewrite length_app. lia. Qed.

Lemma pad_center_odd k row :
  0 <= k ->
  pad_columns JUSTIFY_CENTER (2 * k + 1) row = zeros k ++ row ++ zeros (k + 1).
Proof.
  intros Hk. unfold pad_columns. cbn [Z.eqb JUSTIFY_CENTER JUSTIFY_RIGHT].
  replace ((2 * k + 1) / 2) with k
    by (apply Z.div_unique with (r := 1); lia).
  change ((2 =? 1)%positive) with false. change ((2 =? 2)%positive) with true.
  cbv iota. replace (2 * k + 1 - k) with (k + 1) by lia. reflexivity.
Qed.

Lemma crop_center_odd k row :
  0 <= k -> 2 * k + 1 <= len row ->
  crops_to k (k + 1) row (crop_columns JUSTIFY_CENTER (2 * k + 1) row).
Proof.
  intros Hk Hlen. unfold crop_columns. cbn [Z.eqb JUSTIFY_CENTER JUSTIFY_RIGHT].
  replace ((2 * k + 1) / 2) with k
    by (apply Z.div_unique with (r := 1); lia).
  change ((2 =? 1)%positive) with false. change ((2 =? 2)%positive) with true.
  cbv iota. replace (2 * k + 1 - k) with (k + 1) by lia.
  unfold del_upto, del_from, slice_index.
  destruct (Z.ltb_spec k 0); [lia|].
  destruct (Z.ltb_spec (- (k + 1)) 0); [|lia].
  unfold len in *. rewrite length_skipn.
  set (a := Z.to_nat (Z.min k (Z.of_nat (length row)))).
  set (m := Z.to_nat (Z.max 0 (Z.of_nat (length row - a) + - (k + 1)))).
  assert (Ea : a = Z.to_nat k) by (unfold a; lia).
  exists (firstn a row), (skipn m (skipn a row)).
  split; [|split].
  - rewrite (firstn_skipn m (skipn a row)), firstn_skipn. reflexivity.
  - unfold len. rewrite length_firstn. lia.
  - unfold len. rewrite !length_skipn. lia.
Qed.

(** *** The font renderer never raises for a scale that is not negative *)

Lemma update_at_length {A : Type} (f : A -> A) l :
  forall i, length (update_at i f l) = length l.
Proof.
  induction l as [|x l IH]; intros [|i]; cbn; try reflexivity.
  rewrite IH. reflexivity.
Qed.

Lemma update_at_Forall {A : Type} (P : A -> Prop) (f : A -> A) l :
  (forall x, P x -> P (f x)) ->
  forall i, Forall P l -> Forall P (update_at i f l).
Proof.
  intros Hf. induction l as [|x l IH]; intros [|i] H; cbn; try assumption;
    inversion H; subst; constructor; auto.
Qed.

Lemma to_bytes_be_bytes n : forall v, forallb is_byte (to_bytes_be n v) = true.
Proof.
  induction n as [|n IH]; intros v; cbn; [reflexivity|].
  rewrite forallb_app, IH. cbn. unfold is_byte.
  pose proof (Z.mod_pos_bound v 256 ltac:(lia)).
  destruct (Z.leb_spec 0 (v mod 256)); [|lia].
  destruct (Z.leb_spec (v mod 256) 255); [reflexivity|lia].
Qed.

Lemma mask_step_byte v :
  is_byte v = true -> is_byte (Z.lor (Z.shiftr v 1) 0x80) = true.
Proof.
  intros H. unfold is_byte in H. apply andb_true_iff in H. destruct H as [H0 H1].
  apply Z.leb_le in H0, H1.
  assert (Hall : forallb (fun n => is_byte (Z.lor (Z.shiftr (Z.of_nat n) 1) 0x80))
                         (seq 0 256) = true) by (vm_compute; reflexivity).
  rewrite forallb_forall in Hall.
  specialize (Hall (Z.to_nat v)). rewrite Z2Nat.id in Hall by assumption.
  apply Hall, in_seq. lia.
Qed.

Lemma or_at_length r c m rs : length (or_at r c m rs) = length rs.
Proof. unfold or_at. apply update_at_length. Qed.

Lemma paint_column_length tsm j col_mask rs :
  length (paint_column tsm j col_mask rs) = length rs.
Proof.
  unfold paint_column.
  apply (fold_left_invariant (fun x => length x = length rs)); [|reflexivity].
  intros a k Ha.
  apply (fold_left_invariant (fun x => length x = length rs)); [|assumption].
  intros a' l Ha'. rewrite or_at_length. assumption.
Qed.

Lemma paint_bit_ok n tsm glyph st :
  0 <= tsm -> paint_ok n st ->
  exists st', paint_bit tsm glyph st = Ok st' /\ paint_ok n st'.
Proof.
  intros Ht [Hb Hl]. destruct st as [[mask col_mask] ret_seq]. cbn [fst snd] in *.
  unfold paint_bit, bit_shift_right_byte_list. fold is_byte.
  change (fun b => (0 <=? b) && (b <=? 255)) with is_byte.
  rewrite Hb. cbn [negb]. destruct (Z.ltb_spec tsm 0); [lia|]. cbn [bind].
  eexists. split; [reflexivity|]. split; cbn [fst snd].
  - apply to_bytes_be_bytes.
  - apply (fold_left_invariant (fun x => length x = n)); [|assumption].
    intros a j Ha. destruct (_ =? 0); [assumption|].
    rewrite paint_column_length. assumption.
Qed.

Lemma fold_result_invariant {S B : Type} (P : S -> Prop)
    (f : S -> B -> result S) l :
  (forall st x, P st -> exists st', f st x = Ok st' /\ P st') ->
  forall st, P st ->
  exists st', fold_left (fun acc x => st <- acc ;; f st x) l (Ok st) = Ok st'
              /\ P st'.
Proof.
  intros Hf. induction l as [|x l IH]; intros st Hst; cbn [fold_left].
  - exists st. auto.
  - cbn [bind]. destruct (Hf st x Hst) as (st1 & E & H1). rewrite E.
    apply IH, H1.
Qed.

Lemma generate_char_sequence_ok char tsm :
  0 <= tsm ->
  exists rows, generate_char_sequence char tsm = Ok rows /\
               length rows = Z.to_nat tsm.
Proof.
  intros Ht. unfold generate_char_sequence.
  set (glyph := glyph_columns char).
  set (step := fun (st : list Z * list (list Z)) (_ : Z) =>
                 let '(cm, rs) := st in
                 (update_at 0 (fun v => Z.lor (Z.shiftr v 1) 0x80) cm,
                  rs ++ [zeros (len glyph * tsm)])).
  assert (H1 : forall l st,
             forallb is_byte (fst st) = true ->
             forallb is_byte (fst (fold_left step l st)) = true /\
             length (snd (fold_left step l st)) = (length (snd st) + length l)%nat).
  { induction l as [|x l IH]; intros [cm rs] Hb; cbn [fold_left].
    - cbn. split; [assumption | lia].
    - destruct (IH (step (cm, rs) x)) as [IH1 IH2].
      + cbn [step fst]. apply forallb_forall. intros b Hin.
        cbn [fst] in Hb.
        assert (F : Forall (fun b => is_byte b = true)
                           (update_at 0 (fun v => Z.lor (Z.shiftr v 1) 0x80) cm)).
        { apply update_at_Forall; [apply mask_step_byte|].
          apply Forall_forall. apply forallb_forall. assumption. }
        rewrite Forall_forall in F. apply F, Hin.
      + split; [assumption|]. rewrite IH2. cbn [step snd length].
        rewrite length_app. cbn [length]. lia. }
  specialize (H1 (range tsm) (zeros tsm, [])).
  destruct H1 as [Hb Hl].
  { cbn [fst]. apply forallb_forall. intros b Hin. unfold zeros in Hin.
    apply repeat_spec in Hin. subst b. reflexivity. }
  destruct (fold_left step (range tsm) (zeros tsm, [])) as [col_mask ret_seq].
  cbn [fst snd] in *.
  destruct (fold_result_invariant (paint_ok (Z.to_nat tsm))
              (fun st (_ : Z) => paint_bit tsm glyph st) (range 8))
    with (st := (128, col_mask, ret_seq)) as (st' & E & [_ Hl']).
  - intros st x. apply paint_bit_ok, Ht.
  - split; cbn [fst snd]; [assumption|].
    rewrite Hl. unfold range. rewrite length_map, length_seq. reflexivity.
  - rewrite E. cbn [bind]. eexists. split; [reflexivity | assumption].
Qed.

Lemma extend_rows_ok rows : forall seqChar,
  (length rows <= length seqChar)%nat ->
  exists rows', extend_rows rows seqChar = Ok rows' /\
                length rows' = length rows.
Proof.
  induction rows as [|r rows IH]; intros seqChar Hl; cbn.
  - exists []. auto.
  - destruct seqChar as [|c seqChar]; [cbn in Hl; lia|].
    destruct (IH seqChar) as (rest & E & L); [cbn in Hl; lia|].
    rewrite E. cbn. eexists. split; [reflexivity|]. cbn. congruence.
Qed.

Lemma assemble_ok tsm chars : 1 <= tsm ->
  forall rows, rows = [] \/ length rows = Z.to_nat tsm ->
  exists rows', assemble chars tsm rows = Ok rows' /\
                (chars = [] -> rows' = rows) /\
                (chars <> [] -> length rows' = Z.to_nat tsm).
Proof.
  intros Ht. induction chars as [|c chars IH]; intros rows Hr; cbn [assemble].
  - exists rows. repeat split; congruence.
  - destruct (generate_char_sequence_ok c tsm) as (seqChar & E & L); [lia|].
    rewrite E. cbn [bind].
    assert (Hstep : exists rows1,
               (if len rows <=? 0 then Ok seqChar else extend_rows rows seqChar)
               = Ok rows1 /\ length rows1 = Z.to_nat tsm).
    { destruct Hr as [-> | Hr].
      - cbn. exists seqChar. auto.
      - unfold len. destruct (Z.leb_spec (Z.of_nat (length rows)) 0); [lia|].
        destruct (extend_rows_ok rows seqChar) as (r1 & E1 & L1); [lia|].
        exists r1. split; [assumption | congruence]. }
    destruct Hstep as (rows1 & E1 & L1). rewrite E1. cbn [bind].
    destruct (IH rows1 (or_intror L1)) as (rows' & E' & Hnil & Hcons).
    exists rows'. split; [assumption|]. split; [congruence|].
    intros _. destruct chars as [|c' chars'].
    + rewrite Hnil by reflexivity. assumption.
    + apply Hcons. congruence.
Qed.

Lemma fit_columns_ok justification maxNumCols rows :
  rows <> [] -> exists rows', fit_columns justification maxNumCols rows = Ok rows'.
Proof.
  intros Hne. destruct rows as [|r0 rows]; [congruence|].
  unfold fit_columns.
  destruct (maxNumCols - len r0 >? 0); cbn [map]; eexists; reflexivity.
Qed.

(** *** What the writes leave alone *)

Lemma same_screen_refl s : same_screen s s.
Proof. repeat split. Qed.

Lemma same_screen_trans s1 s2 s3 :
  same_screen s1 s2 -> same_screen s2 s3 -> same_screen s1 s3.
Proof. unfold same_screen. intuition congruence. Qed.

Lemma write_chunk_screen s0 cmd total acc chunk :
  same_screen s0 (snd acc) ->
  same_screen s0 (snd (write_chunk cmd total acc chunk)).
Proof.
  destruct acc as [status s]. cbn [snd]. intros H. unfold write_chunk.
  eapply same_screen_trans; [exact H|]. clear H.
  unfold bus_write, lcd_increment_current, note_failure.
  destruct s as [? ? ? ? ? ? ? ? ? ? ? ? wf ? ?]; cbn.
  repeat match goal with
         | |- context [if ?b then _ else _] => destruct b; cbn
         end; repeat split.
Qed.

Lemma write_sequence_screen cmd sequence s :
  same_screen s (snd (write_sequence cmd sequence s)).
Proof.
  unfold write_sequence. destruct (enabled s); [|apply same_screen_refl].
  apply (fold_left_invariant (fun acc => same_screen s (snd acc)));
    [|apply same_screen_refl].
  intros a x. apply write_chunk_screen.
Qed.

Lemma set_print_area_screen c0 c1 r0 r1 s :
  same_screen s (snd (lcd_set_print_area c0 c1 r0 r1 s)).
Proof.
  unfold lcd_set_print_area.
  destruct (_ || _); [apply same_screen_refl|].
  destruct (_ || _); [apply same_screen_refl|].
  pose proof (write_sequence_screen CONTROL_BYTE [33; c0; c1; 34; r0; r1] s) as H.
  unfold write_control_sequence.
  destruct (write_sequence CONTROL_BYTE [33; c0; c1; 34; r0; r1] s) as [st s1].
  cbn [snd] in *. destruct s1; exact H.
Qed.

(** *** [write_line] returns *)

Lemma write_line_returns str row_start tsm justification s :
  geometry_ok s -> 1 <= tsm ->
  exists s',
    write_line str row_start tsm justification s
    = Ok (if (min_row_addr s <=? row_start) && (row_start <=? max_row_addr s)
          then 1 else 0, s') /\
    same_screen s s'.
Proof.
  intros [[G0 G1] G2] Ht. unfold write_line.
  destruct (Z.ltb_spec row_start (min_row_addr s)) as [L|L].
  { destruct (Z.leb_spec (min_row_addr s) row_start); [lia|]. cbn.
    exists s. split; [reflexivity | apply same_screen_refl]. }
  destruct (Z.gtb_spec row_start (max_row_addr s)) as [U|U].
  { destruct (Z.leb_spec row_start (max_row_addr s)); [lia|].
    rewrite andb_false_r. cbn. exists s. split; [reflexivity | apply same_screen_refl]. }
  destruct (Z.leb_spec (min_row_addr s) row_start); [|lia].
  destruct (Z.leb_spec row_start (max_row_addr s)); [|lia].
  cbn [orb andb].
  set (str' := if strlen str <=? 0 then " "%string else str).
  assert (Hchars : list_ascii_of_string str' <> []).
  { unfold str', strlen. destruct str; cbn; congruence. }
  destruct (assemble_ok tsm (list_ascii_of_string str') Ht [] (or_introl eq_refl))
    as (rows & E & _ & Hlen).
  specialize (Hlen Hchars). rewrite E. cbn [bind].
  set (row_end := if row_start + tsm - 1 >? max_row_addr s
                  then max_row_addr s else row_start + tsm - 1).
  assert (Hre : row_start <= row_end <= max_row_addr s).
  { unfold row_end. destruct (Z.gtb_spec (row_start + tsm - 1) (max_row_addr s)); lia. }
  destruct (set_print_area_selects (min_col_addr s) (max_col_addr s)
              row_start row_end s) as [Hw _]; try lia.
  pose proof (set_print_area_screen (min_col_addr s) (max_col_addr s)
                row_start row_end s) as Hscr.
  set (s1 := snd (lcd_set_print_area (min_col_addr s) (max_col_addr s)
                                     row_start row_end s)) in *.
  unfold window in Hw. injection Hw as W1 W2 W3 W4. rewrite W1, W2, W3, W4.
  assert (Hrows : exists rows1, pad_rows (row_end - row_start + 1) rows = Ok rows1
                                /\ rows1 <> []).
  { unfold pad_rows. destruct rows as [|r0 rows0]; [cbn in Hlen; lia|].
    destruct (Z.to_nat (row_end - row_start + 1 - len (r0 :: rows0)));
      eexists; (split; [reflexivity | cbn; congruence]). }
  destruct Hrows as (rows1 & E1 & Hne1). rewrite E1. cbn [bind].
  assert (Hne2 : del_from (row_end - row_start + 1) rows1 <> []).
  { unfold del_from, slice_index.
    destruct (Z.ltb_spec (row_end - row_start + 1) 0); [lia|].
    destruct rows1 as [|r rows1']; [congruence|].
    unfold len. cbn [length].
    destruct (Z.to_nat (Z.min (row_end - row_start + 1)
                              (Z.of_nat (S (length rows1'))))) eqn:En; [lia|].
    cbn. congruence. }
  destruct (fit_columns_ok justification (max_col_addr s - min_col_addr s + 1)
              _ Hne2) as (rows3 & E3).
  rewrite E3. cbn [bind]. eexists. split; [reflexivity|].
  apply (fold_left_invariant (fun st => same_screen s st)); [|exact Hscr].
  intros a row Ha. eapply same_screen_trans; [exact Ha|].
  apply write_sequence_screen.
Qed.

End LayoutFacts.

(** C1, as the code has it.  With center justification, rows narrower
    than the window by an odd amount [2k+1] get [k] zero columns on the
    left and [k+1] on the right; rows wider than the window by [2k+1]
    lose [k] columns on the left and [k+1] on the right.  The odd column
    goes to the right in both directions. *)
Theorem center_split_odd (k maxNumCols : Z) (rows : list (list Z)) :
  0 <= k -> 0 <= maxNumCols -> rows <> [] ->
  (Forall (fun row => maxNumCols - len row = 2 * k + 1) rows ->
   Lcd.fit_columns Lcd.JUSTIFY_CENTER maxNumCols rows
   = Ok (map (fun row => zeros k ++ row ++ zeros (k + 1)) rows)) /\
  (Forall (fun row => len row - maxNumCols = 2 * k + 1) rows ->
   exists rows',
     Lcd.fit_columns Lcd.JUSTIFY_CENTER maxNumCols rows = Ok rows' /\
     Forall2 (crops_to k (k + 1)) rows rows').
Proof.
  intros Hk Hm Hne. destruct rows as [|r0 rows]; [congruence|]. split.
  - intros Hall. pose proof (Forall_inv Hall) as H0. cbn beta in H0.
    unfold Lcd.fit_columns. rewrite H0.
    destruct (Z.gtb_spec (2 * k + 1) 0); [|lia].
    cbn [map]. rewrite (pad_center_odd k r0 Hk).
    rewrite !len_app, !len_zeros by lia.
    destruct (Z.gtb_spec (k + (len r0 + (k + 1)) - maxNumCols) 0); [lia|].
    f_equal. f_equal. apply map_ext. intros row. apply pad_center_odd, Hk.
  - intros Hall. pose proof (Forall_inv Hall) as H0. cbn beta in H0.
    unfold Lcd.fit_columns.
    destruct (Z.gtb_spec (maxNumCols - len r0) 0); [lia|].
    rewrite H0. destruct (Z.gtb_spec (2 * k + 1) 0); [|lia].
    eexists. split; [reflexivity|].
    clear H0 Hne. induction Hall as [|row l Hrow _ IH]; cbn [map]; constructor.
    + apply crop_center_odd; [assumption | lia].
    + apply IH.
Qed.

(** C9, as the code has it.  A [row_start] outside the screen gives 0
    for every scale and leaves the driver alone.  For a scale of at least
    1, [write_line] returns, and what it returns is decided by
    [row_start] alone: 1 when [row_start] is a row band of the screen, 0
    otherwise; neither the text, the scale, the justification nor the
    fate of the bus transactions changes it.  Whatever the scale, a call
    that returns returns that value. *)
Theorem write_line_status_from_row_start
    (str : string) (row_start scale justification : Z) (s : Lcd.t) :
  let status :=
    if (Lcd.min_row_addr s <=? row_start) && (row_start <=? Lcd.max_row_addr s)
    then 1 else 0 in
  (status = 0 ->
   Lcd.write_line str row_start scale justification s = Ok (0, s)) /\
  (geometry_ok s -> 1 <= scale ->
   exists s',
     Lcd.write_line str row_start scale justification s = Ok (status, s')) /\
  (forall n s',
     Lcd.write_line str row_start scale justification s = Ok (n, s') ->
     n = status).
Proof.
  cbn zeta. split; [|split].
  - intros H0. unfold Lcd.write_line.
    destruct (Z.ltb_spec row_start (Lcd.min_row_addr s));
      destruct (Z.gtb_spec row_start (Lcd.max_row_addr s));
      try reflexivity.
    destruct (Z.leb_spec (Lcd.min_row_addr s) row_start); [|lia].
    destruct (Z.leb_spec row_start (Lcd.max_row_addr s)); [|lia].
    cbn in H0. discriminate.
  - intros Hg Hs.
    destruct (write_line_returns str row_start scale justification s Hg Hs)
      as (s' & E & _).
    exists s'. exact E.
  - intros n s'. unfold Lcd.write_line.
    destruct (Z.ltb_spec row_start (Lcd.min_row_addr s)) as [L|L].
    { destruct (Z.leb_spec (Lcd.min_row_addr s) row_start); [lia|].
      cbn. intros Heq; injection Heq as <- _. reflexivity. }
    destruct (Z.gtb_spec row_start (Lcd.max_row_addr s)) as [U|U].
    { destruct (Z.leb_spec row_start (Lcd.max_row_addr s)); [lia|].
      rewrite andb_false_r. cbn. intros Heq; injection Heq as <- _. reflexivity. }
    destruct (Z.leb_spec (Lcd.min_row_addr s) row_start); [|lia].
    destruct (Z.leb_spec row_start (Lcd.max_row_addr s)); [|lia].
    cbn [orb andb].
    destruct (Lcd.assemble _ _ _) as [rows|e]; cbn [bind]; [|discriminate].
    destruct (Lcd.pad_rows _ _) as [rows1|e]; cbn [bind]; [|discriminate].
    destruct (Lcd.fit_columns _ _ _) as [rows3|e]; cbn [bind]; [|discriminate].
    intros Heq; injection Heq as <- _. reflexivity.
Qed.

(** C7, as the code has it.  For a size of at least 1, [write_block] with
    equal minimum and maximum sizes is the [write_line] call at that
    size: the same result, the same driver state and the same bus
    transcript.  A size below 1 is turned down: [write_block] returns 0
    and leaves the driver alone. *)
Theorem write_block_equal_sizes
    (str : string) (row_start scale justification : Z) (s : Lcd.t) :
  (1 <= scale ->
   Lcd.write_block str row_start scale scale justification s
   = Lcd.write_line str row_start scale justification s) /\
  (scale <= 0 ->
   Lcd.write_block str row_start scale scale justification s = Ok (0, s)).
Proof.
  unfold Lcd.write_block. split; intros Hs.
  - destruct (Z.gtb_spec scale scale); [lia|].
    destruct (Z.leb_spec scale 0); [lia|]. cbn [orb].
    rewrite Z.eqb_refl, orb_true_r. reflexivity.
  - destruct (Z.gtb_spec scale scale); [lia|].
    destruct (Z.leb_spec scale 0); [|lia]. reflexivity.
Qed.

(** ** Word wrapping *)

Section WrapFacts.

Import Lcd.

Local Open Scope string_scope.

Lemma str_append_assoc (a b c : string) : (a ++ b) ++ c = a ++ (b ++ c).
Proof. induction a as [|x a IH]; cbn; [reflexivity | rewrite IH; reflexivity]. Qed.

Lemma split_space_not_nil str : split_space str <> [].
Proof.
  destruct str as [|c rest]; cbn; [congruence|].
  destruct (Ascii.eqb c " "); [congruence|].
  destruct (split_space rest); congruence.
Qed.

Lemma join_space_cons l rest :
  rest <> [] -> join_space (l :: rest) = l ++ " " ++ join_space rest.
Proof. destruct rest; [congruence | reflexivity]. Qed.

Lemma join_space_first_char c w ws :
  join_space (String c w :: ws) = String c (join_space (w :: ws)).
Proof. destruct ws; reflexivity. Qed.

(** [" ".join(str.split(" ")) == str] *)
Lemma join_split_space str : join_space (split_space str) = str.
Proof.
  induction str as [|c rest IH]; [reflexivity|].
  cbn [split_space]. destruct (Ascii.eqb_spec c " ") as [->|N].
  - rewrite join_space_cons by apply split_space_not_nil.
    rewrite IH. reflexivity.
  - pose proof (split_space_not_nil rest) as Hne.
    destruct (split_space rest) as [|w ws]; [congruence|].
    rewrite join_space_first_char, IH. reflexivity.
Qed.

Lemma join_space_app (a b : list string) :
  a <> [] -> b <> [] ->
  join_space (a ++ b) = join_space a ++ " " ++ join_space b.
Proof.
  intros Ha Hb. induction a as [|x a IH]; [congruence|].
  destruct a as [|y a].
  - cbn [app]. apply join_space_cons, Hb.
  - change ((x :: y :: a) ++ b)%list with (x :: ((y :: a) ++ b))%list.
    rewrite join_space_cons by (cbn; congruence).
    rewrite IH by congruence.
    rewrite (join_space_cons x (y :: a)) by congruence.
    rewrite !str_append_assoc. reflexivity.
Qed.

Lemma update_at_last {A : Type} (f : A -> A) (init : list A) (l : A) :
  update_at (length init) f (init ++ [l])%list = (init ++ [f l])%list.
Proof. induction init as [|x init IH]; cbn; [reflexivity | rewrite IH; reflexivity]. Qed.

(** Appending a word to the last line does not change the joined text. *)
Lemma join_space_merge_last (init : list string) (l w : string) :
  join_space (init ++ [(l ++ " " ++ w)%string])%list
  = join_space (init ++ [l; w])%list.
Proof.
  destruct init as [|x init]; [reflexivity|].
  rewrite !(join_space_app (x :: init)) by congruence. reflexivity.
Qed.

Lemma wrap_step_joins cts maxWidth st item :
  on_last_line st ->
  on_last_line (wrap_step cts maxWidth st item) /\
  join_space (fst (fst (fst (wrap_step cts maxWidth st item))))
  = join_space (fst (fst (fst st)) ++ [fst item])%list.
Proof.
  destruct st as [[[lines currentLine] currentSize] lineTooLong].
  destruct item as [word wordSize]. cbn [on_last_line fst]. intros [Hne Hcur].
  unfold wrap_step.
  destruct ((currentSize + wordSize + 6) * cts >? maxWidth)%Z; cbn [fst on_last_line].
  - split; [|reflexivity]. split.
    + destruct lines; cbn; congruence.
    + unfold len in *. rewrite length_app. cbn [length]. lia.
  - destruct (exists_last Hne) as (init & l & ->).
    assert (Ei : Z.to_nat currentLine = length init).
    { subst currentLine. unfold len. rewrite length_app. cbn [length]. lia. }
    rewrite Ei, update_at_last. split.
    + split; [destruct init; cbn; congruence|].
      subst currentLine. unfold len. rewrite !length_app. reflexivity.
    + rewrite join_space_merge_last, <- app_assoc. reflexivity.
Qed.

Lemma wrap_fold_joins cts maxWidth items : forall st,
  on_last_line st ->
  join_space (fst (fst (fst (fold_left (wrap_step cts maxWidth) items st))))
  = join_space (fst (fst (fst st)) ++ map fst items)%list.
Proof.
  induction items as [|item items IH]; intros st Hst; cbn [fold_left map].
  - rewrite app_nil_r. reflexivity.
  - destruct (wrap_step_joins cts maxWidth st item Hst) as [Hst' Hj].
    rewrite (IH _ Hst').
    set (st1 := wrap_step cts maxWidth st item) in *.
    destruct st as [[[lines ?] ?] ?], st1 as [[[lines1 ?] ?] ?].
    cbn [fst on_last_line] in *.
    destruct items as [|i2 items2].
    + cbn [map]. rewrite app_nil_r. exact Hj.
    + rewrite (join_space_app lines1) by (cbn; intuition congruence).
      rewrite Hj.
      change (lines ++ fst item :: map fst (i2 :: items2))%list
        with (lines ++ [fst item] ++ map fst (i2 :: items2))%list.
      rewrite app_assoc.
      rewrite (join_space_app (lines ++ [fst item])%list)
        by (try (destruct lines; cbn; congruence); cbn; congruence).
      reflexivity.
Qed.

Lemma map_fst_combine_map {A B : Type} (f : A -> B) (l : list A) :
  map fst (combine l (map f l)) = l.
Proof. induction l as [|x l IH]; cbn; [reflexivity | rewrite IH; reflexivity]. Qed.

(** Wrapping keeps the text: the wrapped lines joined by single spaces
    are the words joined by single spaces. *)
Lemma wrap_words_joins (f : string -> Z) (words : list string) cts maxWidth :
  words <> [] ->
  exists lines lineTooLong,
    wrap_words words (map f words) cts maxWidth = Ok (lines, lineTooLong) /\
    join_space lines = join_space words.
Proof.
  intros Hne. destruct words as [|w0 words']; [congruence|].
  cbn [map wrap_words].
  pose proof (wrap_fold_joins cts maxWidth (combine words' (map f words'))
                ([w0], 0%Z, f w0, false)) as H.
  destruct (fold_left (wrap_step cts maxWidth) (combine words' (map f words'))
                      ([w0], 0%Z, f w0, false))
    as [[[lines cl] cs] tl].
  exists lines, tl. split; [reflexivity|].
  cbn [fst] in H. rewrite H, map_fst_combine_map; [reflexivity|].
  cbn. split; [congruence | reflexivity].
Qed.

(** The scale search returns; once it has run a pass, its lines are a
    wrapping of the words, and the scale it settles on lies between the
    minimum and the starting scale. *)
Lemma fit_search_joins (f : string -> Z) words maxWidth min_ts max_ts :
  words <> [] -> (1 <= min_ts)%Z ->
  forall fuel cts lines0 maxLines0,
  (min_ts <= cts)%Z ->
  exists cts' lines maxLines,
    fit_search fuel words (map f words) maxWidth min_ts max_ts cts lines0 maxLines0
    = Ok (cts', lines, maxLines) /\
    (min_ts <= cts' <= cts)%Z /\
    (((0 < fuel)%nat /\ (min_ts < cts)%Z ->
      join_space lines = join_space words /\ (cts' < cts)%Z) /\
     (~ ((0 < fuel)%nat /\ (min_ts < cts)%Z) -> lines = lines0 /\ cts' = cts)).
Proof.
  intros Hne Hmin. induction fuel as [|fuel IH]; intros cts lines0 maxLines0 Hc.
  - cbn. exists cts, lines0, maxLines0. split; [reflexivity|].
    split; [lia|]. split; [intros [H _]; lia | auto].
  - cbn [fit_search]. destruct (Z.gtb_spec cts min_ts) as [G|G].
    + destruct (Z.eqb_spec (cts - 1) 0); [lia|].
      destruct (wrap_words_joins f words (cts - 1)%Z maxWidth Hne)
        as (lines & tl & E & J).
      rewrite E. cbn [bind].
      destruct ((len lines <=? max_ts / (cts - 1))%Z && negb tl).
      * exists (cts - 1)%Z, lines, (max_ts / (cts - 1))%Z.
        split; [reflexivity|]. split; [lia|].
        split; [intros _; split; [assumption | lia] | intros N; exfalso; apply N; lia].
      * destruct (IH (cts - 1)%Z lines (max_ts / (cts - 1))%Z ltac:(lia))
          as (cts' & lines' & maxLines' & E' & B & Hrun & Hstop).
        exists cts', lines', maxLines'. split; [assumption|]. split; [lia|].
        split; [|intros N; exfalso; apply N; lia].
        intros _.
        destruct (Nat.eq_dec fuel 0) as [F0|F0];
          [|destruct (Z.ltb_spec min_ts (cts - 1)) as [L|L]].
        -- destruct Hstop as [-> ->]; [lia|]. split; [assumption | lia].
        -- destruct Hrun as [J' B']; [lia|]. split; [assumption | lia].
        -- destruct Hstop as [-> ->]; [lia|]. split; [assumption | lia].
    + exists cts, lines0, maxLines0. split; [reflexivity|]. split; [lia|].
      split; [intros [_ H]; lia | auto].
Qed.

End WrapFacts.

(** C10.  In the word-wrapping path of [write_block] (a minimum size of
    at least 1 and below the maximum size), the scale search returns, and
    the lines it leaves, before the blank-line centering and the
    truncation, joined in order with a single space between consecutive
    lines, are exactly the input string: no word is split and none is
    lost. *)
Theorem wrapped_lines_round_trip
    (str : string) (min_text_size max_text_size maxWidth : Z) :
  1 <= min_text_size -> min_text_size < max_text_size ->
  let words := Lcd.split_space str in
  let wordSizes := map (fun w => 6 * Lcd.strlen w) words in
  exists currentTextSize lines maxLines,
    Lcd.fit_search (Z.to_nat (max_text_size - min_text_size)) words wordSizes
                   maxWidth min_text_size max_text_size max_text_size [] 0
    = Ok (currentTextSize, lines, maxLines) /\
    join_space lines = str /\
    min_text_size <= currentTextSize < max_text_size.
Proof.
  intros Hmin Hlt words wordSizes.
  destruct (fit_search_joins (fun w => 6 * Lcd.strlen w) words maxWidth
              min_text_size max_text_size (split_space_not_nil str) Hmin
              (Z.to_nat (max_text_size - min_text_size)) max_text_size [] 0
              ltac:(lia))
    as (cts & lines & maxLines & E & B & Hrun & _).
  exists cts, lines, maxLines. split; [exact E|].
  destruct Hrun as [J L]; [lia|].
  split; [|lia]. rewrite J. apply join_split_space.
Qed.

(** ** The custom-message queue *)

Section QueueFacts.

Import LcdPlugin.

Lemma pop_nil {A : Type} : @pop A [] = None.
Proof. reflexivity. Qed.

Lemma pop_snoc {A : Type} (q : list A) (x : A) : pop (q ++ [x]) = Some (x, q).
Proof. unfold pop. rewrite rev_app_distr. cbn. rewrite rev_involutive. reflexivity. Qed.

Lemma with_queue_idem q q' p : with_queue q (with_queue q' p) = with_queue q p.
Proof. destruct p; reflexivity. Qed.

Lemma with_queue_same p : with_queue (custom_display_queue p) p = p.
Proof. destruct p; reflexivity. Qed.

Lemma with_queue_queue q p : custom_display_queue (with_queue q p) = q.
Proof. destruct p; reflexivity. Qed.

(** The loop body does not look at the queue and does not touch it. *)
Lemma display_item_queue now item q p :
  display_item now item (with_queue q p)
  = '(d, p') <- display_item now item p ;; Ok (d, with_queue q p').
Proof.
  unfold display_item. destruct (negb (get (kw_cancel item) false)).
  - destruct p as [l lw ls ie i r cq dc cc it ha]. cbn.
    destruct (Lcd.write_block _ _ _ _ _ _) as [[n l2]|e]; cbn; [|reflexivity].
    unfold wake_display. cbn. destruct i; reflexivity.
  - destruct p; reflexivity.
Qed.

Lemma display_each_queue now items : forall delay q p,
  display_each now items delay (with_queue q p)
  = '(d, p') <- display_each now items delay p ;; Ok (d, with_queue q p').
Proof.
  induction items as [|item items IH]; intros delay q p; cbn [display_each].
  - destruct delay; reflexivity.
  - rewrite display_item_queue.
    destruct (display_item now item p) as [[d p1]|e]; cbn [bind]; [|reflexivity].
    apply IH.
Qed.

(** The loop of [_display_custom] handles the whole queue, oldest request
    first, and leaves it empty. *)
Lemma display_custom_loop_drains now : forall fuel delay p,
  (length (custom_display_queue p) <= fuel)%nat ->
  display_custom_loop fuel now delay p
  = display_each now (rev (custom_display_queue p)) delay (with_queue [] p).
Proof.
  induction fuel as [|fuel IH]; intros delay p Hl.
  - destruct (custom_display_queue p) eqn:E; [|cbn in Hl; lia].
    cbn. rewrite <- E, with_queue_same. reflexivity.
  - cbn [display_custom_loop].
    destruct (custom_display_queue p) as [|x0 q0] eqn:E using rev_ind.
    + cbn. rewrite <- E, with_queue_same. reflexivity.
    + rewrite pop_snoc, rev_app_distr. cbn [rev app display_each].
      rewrite display_item_queue.
      rewrite (display_item_queue now x0 [] p).
      destruct (display_item now x0 p) as [[d p1]|e]; cbn [bind]; [|reflexivity].
      rewrite IH.
      * rewrite with_queue_queue, with_queue_idem. reflexivity.
      * rewrite with_queue_queue. rewrite length_app in Hl. cbn in Hl. lia.
Qed.

Lemma display_custom_drains now p :
  display_custom now p
  = display_each now (rev (custom_display_queue p)) None (with_queue [] p).
Proof. apply display_custom_loop_drains. lia. Qed.



Lemma enqueue_all items : forall p,
  fold_left (fun p kw => display_signal kw p) items p
  = with_queue (rev items ++ custom_display_queue p) p.
Proof.
  induction items as [|kw items IH]; intros p; cbn [fold_left rev].
  - cbn. rewrite with_queue_same. reflexivity.
  - rewrite IH. unfold display_signal.
    rewrite with_queue_queue, with_queue_idem, <- app_assoc. reflexivity.
Qed.

End QueueFacts.

(** ** The scheduler's custom path returns *)

Section ReturnFacts.

Import Lcd.








End ReturnFacts.

Section TickFacts.

Import LcdPlugin.



End TickFacts.


(** C6.  The list used as the queue, with [insert(0, kw)] for the
    producer and [pop()] for the scheduler, is a FIFO queue seen from the
    other end: reversing the list turns the insert into a push at the
    back and the pop into a pop from the front.  Requests enqueued in the
    order of [items] on an emptied queue are handled by the scheduler in
    that same order, each one before all that were enqueued after it. *)
Theorem custom_queue_is_fifo :
  (forall kw p,
     rev (LcdPlugin.custom_display_queue (LcdPlugin.display_signal kw p))
     = Fifo.push_back kw (rev (LcdPlugin.custom_display_queue p))) /\
  (forall q : list LcdPlugin.QueueItem,
     LcdPlugin.pop q
     = match Fifo.pop_front (rev q) with
       | Some (x, r) => Some (x, rev r)
       | None => None
       end) /\
  (forall now items p,
     LcdPlugin.display_custom now
       (fold_left (fun p kw => LcdPlugin.display_signal kw p) items
                  (LcdPlugin.with_queue [] p))
     = display_each now items None (LcdPlugin.with_queue [] p)).
Proof.
  split; [|split].
  - intros kw p. unfold LcdPlugin.display_signal, Fifo.push_back.
    rewrite with_queue_queue. reflexivity.
  - intros q. unfold LcdPlugin.pop, Fifo.pop_front.
    destruct (rev q) as [|x r]; reflexivity.
  - intros now items p.
    rewrite display_custom_drains, enqueue_all, with_queue_queue, !with_queue_idem.
    rewrite app_nil_r, rev_involutive. reflexivity.
Qed.

(** ** Concrete runs *)

(** C1, as the claim words it, fails.  On a screen 13 columns wide the
    centered letter A at scale 1 is 6 columns of content, 7 = 2*3+1
    columns narrower than the window.  The row sent to the display has 3
    zero columns on the left and 4 on the right, not 4 and 3. *)
Lemma center_pad_odd_goes_right :
  match Lcd.write_line "A" 0 1 Lcd.JUSTIFY_CENTER (screen_13x8 bus_up) with
  | Ok (n, s') =>
      n = 1 /\
      Lcd.generate_char_sequence "A" 1 = Ok [[126; 17; 17; 17; 126; 0]] /\
      data_sent s' = [zeros 3 ++ [126; 17; 17; 17; 126; 0] ++ zeros 4] /\
      data_sent s' <> [zeros 4 ++ [126; 17; 17; 17; 126; 0] ++ zeros 3]
  | Raise _ => False
  end.
Proof. vm_compute. repeat split. discriminate. Qed.



(** C7, as the claim words it, fails at size 0: [write_block] returns 0
    and [write_line] raises, the padding loop reading [seq[0]] of an
    empty [seq]. *)
Lemma write_block_size_zero_differs :
  Lcd.write_block "A" 0 0 0 Lcd.JUSTIFY_LEFT (screen_128x64 bus_up)
  = Ok (0, screen_128x64 bus_up) /\
  Lcd.write_line "A" 0 0 Lcd.JUSTIFY_LEFT (screen_128x64 bus_up)
  = Raise IndexError /\
  Lcd.write_block "A" 0 0 0 Lcd.JUSTIFY_LEFT (screen_128x64 bus_up)
  <> Lcd.write_line "A" 0 0 Lcd.JUSTIFY_LEFT (screen_128x64 bus_up).
Proof.
  assert (B : Lcd.write_block "A" 0 0 0 Lcd.JUSTIFY_LEFT (screen_128x64 bus_up)
              = Ok (0, screen_128x64 bus_up)) by reflexivity.
  assert (L : Lcd.write_line "A" 0 0 Lcd.JUSTIFY_LEFT (screen_128x64 bus_up)
              = Raise IndexError) by (vm_compute; reflexivity).
  split; [exact B|]. split; [exact L|]. rewrite B, L. discriminate.
Qed.

(** C9, as the claim words it, fails below scale 1: with [row_start] on
    the screen, [write_line] at scale 0 raises [IndexError] and at scale
    -1 [ValueError] (the shift count of the column mask is negative); it
    returns neither 1 nor 0. *)
Lemma write_line_below_scale_one_raises :
  (Lcd.min_row_addr (screen_128x64 bus_up) <=? 0)
  && (0 <=? Lcd.max_row_addr (screen_128x64 bus_up)) = true /\
  Lcd.write_line "A" 0 0 Lcd.JUSTIFY_CENTER (screen_128x64 bus_up)
  = Raise IndexError /\
  Lcd.write_line "A" 0 (-1) Lcd.JUSTIFY_CENTER (screen_128x64 bus_up)
  = Raise ValueError.
Proof. vm_compute. repeat split. Qed.


Lemma center_split_odd_witness :
  0 <= 1 /\ 0 <= 5 /\ [[1; 2]] <> [] /\
  Lcd.fit_columns Lcd.JUSTIFY_CENTER 5 [[1; 2]] = Ok [[0; 1; 2; 0; 0]].
Proof.
  split; [lia|]. split; [lia|]. split; [discriminate|].
  apply (proj1 (center_split_odd 1 5 [[1; 2]] ltac:(lia) ltac:(lia)
                  ltac:(discriminate))).
  constructor; [reflexivity | constructor].
Defined.

(** The window of columns 3..10 and bands 1..2 on the 128x64 screen, and three data writes. *)
Lemma cursor_never_leaves_window_witness :
  0 <= 3 <= 10 /\ 10 <= Lcd.max_col_addr (screen_128x64 bus_up) /\
  0 <= 1 <= 2 /\ 2 <= Lcd.max_row_addr (screen_128x64 bus_up) /\
  3 <= Lcd.current_col
         (fold_left do_write [DataByte 1; DataSeq (zeros 40); DataByte 2]
            (snd (Lcd.lcd_set_print_area 3 10 1 2 (screen_128x64 bus_up))))
    <= 10.
Proof.
  split; [lia|]. split; [cbn; lia|]. split; [lia|]. split; [cbn; lia|].
  apply (cursor_never_leaves_window (screen_128x64 bus_up) 3 10 1 2
           [DataByte 1; DataSeq (zeros 40); DataByte 2]);
    cbn; lia.
Defined.


(** A block at sizes 2 and 2 on the 128x64 screen. *)
Lemma write_block_equal_sizes_witness :
  1 <= 2 /\
  Lcd.write_block "Hi" 1 2 2 Lcd.JUSTIFY_RIGHT (screen_128x64 bus_up)
  = Lcd.write_line "Hi" 1 2 Lcd.JUSTIFY_RIGHT (screen_128x64 bus_up).
Proof.
  split; [lia|].
  apply (proj1 (write_block_equal_sizes "Hi" 1 2 Lcd.JUSTIFY_RIGHT
                  (screen_128x64 bus_up))).
  lia.
Defined.

(** A data sequence of 40 bytes on the 128x64 screen: two chunks. *)
Lemma write_sequence_chunked_witness :
  Lcd.enabled (screen_128x64 bus_up) = true /\
  len (chunks 32 (zeros 40)) = (len (zeros 40) + 31) / 32.
Proof.
  split; [reflexivity|].
  apply (write_sequence_chunked Lcd.DATA_BYTE (zeros 40) (screen_128x64 bus_up)).
  reflexivity.
Defined.

(** A line at band 3 of the 128x64 screen when the bus is dead. *)
Lemma write_line_status_from_row_start_witness :
  geometry_ok (screen_128x64 bus_dead) /\ 1 <= 2 /\
  exists s',
    Lcd.write_line "Hi" 3 2 Lcd.JUSTIFY_CENTER (screen_128x64 bus_dead)
    = Ok (1, s').
Proof.
  assert (Hg : geometry_ok (screen_128x64 bus_dead))
    by (unfold geometry_ok; cbn; lia).
  split; [exact Hg|]. split; [lia|].
  exact (proj1 (proj2 (write_line_status_from_row_start "Hi" 3 2
                         Lcd.JUSTIFY_CENTER (screen_128x64 bus_dead)))
               Hg ltac:(lia)).
Defined.

(** The scale search for two words between sizes 1 and 3. *)
Lemma wrapped_lines_round_trip_witness :
  1 <= 1 /\ 1 < 3 /\
  exists currentTextSize lines maxLines,
    Lcd.fit_search (Z.to_nat (3 - 1)) (Lcd.split_space "Hello World")
                   (map (fun w => 6 * Lcd.strlen w) (Lcd.split_space "Hello World"))
                   128 1 3 3 [] 0
    = Ok (currentTextSize, lines, maxLines) /\
    join_space lines = "Hello World"%string /\
    1 <= currentTextSize < 3.
Proof.
  split; [lia|]. split; [lia|].
  exact (wrapped_lines_round_trip "Hello World" 1 3 128 ltac:(lia) ltac:(lia)).
Defined.

(** * Further properties of the driver *)

Section DriverMore.

Import Lcd.

Lemma increment_keeps_flag x s :
  write_failure (snd (lcd_increment_current x s)) = write_failure s /\
  power_state (snd (lcd_increment_current x s)) = power_state s.
Proof.
  unfold lcd_increment_current.
  destruct (_ || _); destruct s; cbn; auto.
Qed.

Lemma note_failure_flag s : write_failure (note_failure s) = true.
Proof.
  unfold note_failure. destruct (write_failure s) eqn:E; [exact E|].
  destruct s; reflexivity.
Qed.

Lemma chunks_one {A : Type} (l : list A) :
  (1 <= length l <= 32)%nat -> chunks 32 l = [l].
Proof.
  intros H. unfold chunks. destruct l as [|x l]; [cbn in H; lia|].
  cbn [length chunks_fuel].
  rewrite firstn_all2 by exact (proj2 H).
  rewrite skipn_all2 by exact (proj2 H).
  rewrite chunks_fuel_nil. reflexivity.
Qed.

(** What one pass of the chunk loop does to the status and to the
    failure flag, on a window that is not empty. *)
Lemma write_chunk_flags cmd total status s c :
  gmin_col s <= gmax_col s -> gmin_row s <= gmax_row s ->
  let r := write_chunk cmd total (status, s) c in
  let ok := outcome (bus s) (length (sent (bus s))) in
  fst r = status || ok /\
  write_failure (snd r) = write_failure s || negb ok /\
  power_state (snd r) = power_state s.
Proof.
  intros Oc Or. cbn zeta. unfold write_chunk.
  destruct (bus_write_sent cmd c s) as (Bok & _).
  destruct (bus_write_frame cmd c s) as (Fw & Fc & Fe & Ff).
  assert (Fp : power_state (snd (bus_write cmd c s)) = power_state s)
    by (destruct s; reflexivity).
  destruct (bus_write cmd c s) as [ok s1]. cbn [fst snd] in *.
  assert (P1 : same_place s1 s) by (split; assumption).
  destruct (same_place_ordered _ _ P1 (conj Oc Or)) as [Oc1 Or1].
  rewrite <- Bok. clear Bok. destruct ok; cbn [negb].
  - rewrite orb_true_r, orb_false_r. destruct (cmd =? DATA_BYTE).
    + destruct (increment_in_window total s1 Oc1 Or1) as [Hn _].
      destruct (increment_keeps_flag total s1) as [Kf Kp].
      destruct (lcd_increment_current total s1) as [e s2]. cbn [fst snd] in *.
      subst e. cbn [fst snd]. repeat split; congruence.
    + cbn [fst snd]. repeat split; congruence.
  - rewrite orb_false_r, orb_true_r. cbn [fst snd].
    rewrite note_failure_flag. repeat split.
    unfold note_failure. destruct (write_failure s1); [|destruct s1]; exact Fp.
Qed.

Lemma write_chunks_flags cmd total cs :
  forall status s,
  gmin_col s <= gmax_col s -> gmin_row s <= gmax_row s ->
  let r := fold_left (write_chunk cmd total) cs (status, s) in
  let news := new_txns s (snd r) in
  fst r = status || existsb txn_ok news /\
  write_failure (snd r) = write_failure s || existsb txn_failed news /\
  power_state (snd r) = power_state s.
Proof.
  induction cs as [|c cs IH]; intros status s Oc Or; cbn zeta.
  - cbn [fold_left fst snd]. unfold new_txns. rewrite skipn_all.
    cbn. rewrite !orb_false_r. auto.
  - cbn [fold_left].
    destruct (write_chunk_flags cmd total status s c Oc Or) as (Fst & Fwf & Fps).
    destruct (write_chunk_step cmd total status s c) as (Ssent & _ & _ & Spl).
    destruct (write_chunk cmd total (status, s) c) as [st1 s1].
    cbn [fst snd] in *.
    set (ok := outcome (bus s) (length (sent (bus s)))) in *.
    assert (O1 : gmin_col s1 <= gmax_col s1 /\ gmin_row s1 <= gmax_row s1).
    { destruct (ok && (cmd =? DATA_BYTE)).
      - destruct (increment_frame total s) as (Iw & _). fold (advance total s) in Iw.
        apply (same_place_ordered _ _ Spl).
        unfold window in Iw. injection Iw as -> -> -> ->. auto.
      - apply (same_place_ordered _ _ Spl). auto. }
    destruct (IH st1 s1 (proj1 O1) (proj2 O1)) as (Hst & Hwf & Hps).
    destruct (write_chunks_spec cmd total cs st1 s1) as (news & Hs & _).
    cbn zeta in *. unfold new_txns in *.
    rewrite Hs in *. rewrite skipn_app, Nat.sub_diag, skipn_all in Hst, Hwf.
    cbn [skipn app] in Hst, Hwf.
    rewrite Ssent, <- app_assoc, skipn_app, Nat.sub_diag, skipn_all.
    cbn [skipn app existsb txn_ok txn_failed].
    rewrite Hst, Hwf, Hps, Fst, Fwf, Fps, !orb_assoc. auto.
Qed.

(** A sequence of 1 to 32 bytes is one transaction. *)
Lemma write_sequence_one_chunk cmd sequence s :
  enabled s = true -> (1 <= length sequence <= 32)%nat ->
  let r := write_sequence cmd sequence s in
  let ok := outcome (bus s) (length (sent (bus s))) in
  sent (bus (snd r)) = sent (bus s) ++ [mkTxn (hw_write_addr s) cmd sequence ok] /\
  outcome (bus (snd r)) = outcome (bus s) /\
  enabled (snd r) = true /\
  same_place (snd r)
    (if ok && (cmd =? DATA_BYTE) then advance (len sequence) s else s).
Proof.
  intros He Hl. cbn zeta. unfold write_sequence. rewrite He, chunks_one by assumption.
  cbn [fold_left].
  destruct (write_chunk_step cmd (len sequence) false s sequence)
    as (A & B & C & D).
  rewrite C. auto.
Qed.

Lemma write_sequence_one_chunk_flags cmd sequence s :
  enabled s = true -> (1 <= length sequence <= 32)%nat ->
  gmin_col s <= gmax_col s -> gmin_row s <= gmax_row s ->
  let r := write_sequence cmd sequence s in
  let ok := outcome (bus s) (length (sent (bus s))) in
  fst r = ok /\ power_state (snd r) = power_state s.
Proof.
  intros He Hl Oc Or. cbn zeta. unfold write_sequence.
  rewrite He, chunks_one by assumption. cbn [fold_left].
  destruct (write_chunk_flags cmd (len sequence) false s sequence Oc Or)
    as (A & _ & C).
  rewrite A. auto.
Qed.

Lemma write_sequence_disabled cmd sequence s :
  enabled s = false -> write_sequence cmd sequence s = (false, s).
Proof. intros H. unfold write_sequence. rewrite H. reflexivity. Qed.

Lemma write_sequence_keeps_enabled cmd sequence s :
  enabled (snd (write_sequence cmd sequence s)) = enabled s.
Proof.
  unfold write_sequence. destruct (enabled s) eqn:E; [|exact E].
  destruct (write_chunks_spec cmd (len sequence) (chunks 32 sequence) false s)
    as (news & _ & _ & _ & He & _).
  cbn zeta in He. rewrite He. exact E.
Qed.

Lemma new_txns_app s s' news :
  sent (bus s') = sent (bus s) ++ news -> new_txns s s' = news.
Proof.
  intros H. unfold new_txns. rewrite H, skipn_app, Nat.sub_diag, skipn_all.
  reflexivity.
Qed.

(** A control sequence of 1 to 32 bytes on an enabled driver, in full. *)
Lemma write_control_sequence_one sequence s :
  enabled s = true -> (1 <= length sequence <= 32)%nat ->
  write_control_sequence sequence s
  = (if fst (bus_write CONTROL_BYTE sequence s)
     then (true, snd (bus_write CONTROL_BYTE sequence s))
     else (false, note_failure (snd (bus_write CONTROL_BYTE sequence s)))).
Proof.
  intros He Hl. unfold write_control_sequence, write_sequence.
  rewrite He, chunks_one by assumption. cbn [fold_left]. unfold write_chunk.
  destruct (bus_write CONTROL_BYTE sequence s) as [ok s1]. cbn [fst snd].
  destruct ok; reflexivity.
Qed.

(** A data sequence of 1 to 32 bytes on an enabled driver whose window
    is not empty, in full. *)
Lemma write_data_sequence_one sequence s :
  enabled s = true -> (1 <= length sequence <= 32)%nat ->
  gmin_col s <= gmax_col s -> gmin_row s <= gmax_row s ->
  write_data_sequence sequence s
  = (if fst (bus_write DATA_BYTE sequence s)
     then (true, advance (len sequence) (snd (bus_write DATA_BYTE sequence s)))
     else (false, note_failure (snd (bus_write DATA_BYTE sequence s)))).
Proof.
  intros He Hl Oc Or. unfold write_data_sequence, write_sequence.
  rewrite He, chunks_one by assumption. cbn [fold_left]. unfold write_chunk.
  destruct (bus_write_frame DATA_BYTE sequence s) as (Fw & Fc & _).
  destruct (bus_write DATA_BYTE sequence s) as [ok s1]. cbn [fst snd] in *.
  destruct ok; [|reflexivity]. cbn [Z.eqb DATA_BYTE]. rewrite Pos.eqb_refl.
  assert (P1 : same_place s1 s) by (split; assumption).
  destruct (same_place_ordered _ _ P1 (conj Oc Or)) as [Oc1 Or1].
  destruct (increment_in_window (len sequence) s1 Oc1 Or1) as [Hn _].
  unfold advance.
  destruct (lcd_increment_current (len sequence) s1) as [e s2]. cbn [fst snd] in *.
  subst e. reflexivity.
Qed.

End DriverMore.

(** X1.  A window-select call checks its arguments against the screen
    first: outside the screen, or with a maximum below its minimum, it
    returns failure and changes nothing, not even the transcript.  With
    arguments that pass, the window is the requested one and the cursor
    is at its origin; an enabled driver has sent the six bytes 0x21,
    min_col, max_col, 0x22, min_row, max_row as one control transaction
    and returns whether it went through; a disabled one has sent
    nothing and returns failure. *)
Theorem window_select_checks_then_records
    (min_col max_col min_row max_row : Z) (s : Lcd.t) :
  let valid :=
    (0 <=? min_col) && (min_col <=? max_col)
    && (max_col <=? Lcd.max_col_addr s)
    && (0 <=? min_row) && (min_row <=? max_row)
    && (max_row <=? Lcd.max_row_addr s) in
  let r := Lcd.lcd_set_print_area min_col max_col min_row max_row s in
  let ok := outcome (Lcd.bus s) (length (sent (Lcd.bus s))) in
  (valid = false -> r = (false, s)) /\
  (valid = true ->
   window (snd r) = (min_col, max_col, min_row, max_row) /\
   cursor (snd r) = (min_col, min_row) /\
   (Lcd.enabled s = true ->
    fst r = ok /\
    new_txns s (snd r)
    = [mkTxn (Lcd.hw_write_addr s) Lcd.CONTROL_BYTE
             [0x21; min_col; max_col; 0x22; min_row; max_row] ok]) /\
   (Lcd.enabled s = false ->
    fst r = false /\ sent (Lcd.bus (snd r)) = sent (Lcd.bus s))).
Proof.
  cbn zeta. split.
  - intros Hv. unfold Lcd.lcd_set_print_area.
    destruct (Z.ltb_spec min_col 0); [reflexivity|].
    destruct (Z.gtb_spec max_col (Lcd.max_col_addr s)); [reflexivity|].
    destruct (Z.ltb_spec max_col min_col); [reflexivity|].
    destruct (Z.ltb_spec min_row 0); [reflexivity|].
    destruct (Z.gtb_spec max_row (Lcd.max_row_addr s)); [reflexivity|].
    destruct (Z.ltb_spec max_row min_row); [reflexivity|].
    exfalso. rewrite !andb_false_iff, !Z.leb_gt in Hv. lia.
  - intros Hv. rewrite !andb_true_iff, !Z.leb_le in Hv.
    destruct Hv as (((((V1 & V2) & V3) & V4) & V5) & V6).
    destruct (set_print_area_selects min_col max_col min_row max_row s)
      as [Hw Hc]; try lia.
    split; [exact Hw|]. split; [exact Hc|].
    unfold Lcd.lcd_set_print_area.
    replace ((min_col <? 0) || (max_col >? Lcd.max_col_addr s) || (max_col <? min_col))
      with false by (symmetry; rewrite !orb_false_iff; repeat split; lia).
    replace ((min_row <? 0) || (max_row >? Lcd.max_row_addr s) || (max_row <? min_row))
      with false by (symmetry; rewrite !orb_false_iff; repeat split; lia).
    split; intros He.
    + rewrite write_control_sequence_one by (cbn; auto; lia).
      destruct (bus_write_sent Lcd.CONTROL_BYTE
                  [33; min_col; max_col; 34; min_row; max_row] s) as (Bok & Bs & _).
      destruct (Lcd.bus_write Lcd.CONTROL_BYTE
                  [33; min_col; max_col; 34; min_row; max_row] s) as [ok s1].
      cbn [fst snd] in *. subst ok.
      destruct (outcome (Lcd.bus s) (length (sent (Lcd.bus s)))); cbn [fst snd].
      * split; [reflexivity|]. apply new_txns_app.
        destruct s1; cbn in *. exact Bs.
      * split; [reflexivity|]. apply new_txns_app.
        destruct (note_failure_frame s1) as (_ & _ & _ & Nb).
        destruct (Lcd.note_failure s1); cbn in *. rewrite Nb. exact Bs.
    + unfold Lcd.write_control_sequence.
      rewrite write_sequence_disabled by assumption.
      destruct s; cbn. auto.
Qed.

Lemma set_power_effect (on : bool) (s : Lcd.t) :
  let r := Lcd.set_power on s in
  let ok := outcome (Lcd.bus s) (length (sent (Lcd.bus s))) in
  (Lcd.enabled s = true ->
   fst r = ok /\
   new_txns s (snd r)
   = [mkTxn (Lcd.hw_write_addr s) Lcd.CONTROL_BYTE
            [if on then 0xAF else 0xAE] ok] /\
   Lcd.is_powered (snd r) = (if ok then on else Lcd.is_powered s)) /\
  (Lcd.enabled s = false -> r = (false, s)) /\
  same_place (snd r) s.
Proof.
  cbn zeta. unfold Lcd.set_power, Lcd.write_control_byte, Lcd.bus_write,
    Lcd.note_failure, Lcd.is_powered, new_txns, same_place.
  destruct s as [a [o l] c0 c1 r0 r1 g0 g1 g2 g3 cc cr wf ps en]. cbn.
  destruct en, (o (length l)), wf, on; cbn;
    rewrite ?skipn_app, ?Nat.sub_diag, ?skipn_all; cbn;
    repeat split; intros; congruence.
Qed.


(** X2.  [set_power] sends one control byte, 0xAF to switch on and 0xAE
    to switch off, when the driver is enabled, and returns whether the
    transaction went through; [is_powered] then follows the request, and
    keeps its value when the transaction failed.  A disabled driver
    sends nothing, returns failure and is left as it is.  The window and
    the cursor are never touched. *)
Theorem set_power_tracks_success (on : bool) (s : Lcd.t) :
  let r := Lcd.set_power on s in
  let ok := outcome (Lcd.bus s) (length (sent (Lcd.bus s))) in
  (Lcd.enabled s = true ->
   fst r = ok /\
   new_txns s (snd r)
   = [mkTxn (Lcd.hw_write_addr s) Lcd.CONTROL_BYTE
            [if on then 0xAF else 0xAE] ok] /\
   Lcd.is_powered (snd r) = (if ok then on else Lcd.is_powered s)) /\
  (Lcd.enabled s = false -> r = (false, s)) /\
  same_place (snd r) s.
Proof. exact (set_power_effect on s). Qed.

(** X3.  [disable] works once: on an enabled driver it clears the
    enabled flag and attempts exactly one forced power-off (control byte
    0xAE), which marks the display off when it goes through; on a
    disabled driver it does nothing at all.  Calling it again changes
    nothing, and the window and the cursor are never touched. *)
Theorem disable_is_one_shot (s : Lcd.t) :
  let s' := Lcd.disable s in
  let ok := outcome (Lcd.bus s) (length (sent (Lcd.bus s))) in
  (Lcd.enabled s = true ->
   Lcd.enabled s' = false /\
   new_txns s s'
   = [mkTxn (Lcd.hw_write_addr s) Lcd.CONTROL_BYTE [0xAE] ok] /\
   Lcd.is_powered s' = (if ok then false else Lcd.is_powered s)) /\
  (Lcd.enabled s = false -> s' = s) /\
  Lcd.disable s' = s' /\
  same_place s' s.
Proof.
  cbn zeta. unfold Lcd.disable, Lcd.force_power_off, Lcd.write_control_byte,
    Lcd.bus_write, Lcd.note_failure, Lcd.is_powered, new_txns, same_place.
  destruct s as [a [o l] c0 c1 r0 r1 g0 g1 g2 g3 cc cr wf ps en]. cbn.
  destruct en, (o (length l)), wf; cbn;
    rewrite ?skipn_app, ?Nat.sub_diag, ?skipn_all; cbn;
    repeat split; intros; congruence.
Qed.

Section DriverQuiet.

Import Lcd.

Lemma quiet_refl s : enabled s = false -> quiet s s.
Proof. intros H. split; [exact H | reflexivity]. Qed.

Lemma set_print_area_quiet s0 c0 c1 r0 r1 s :
  quiet s0 s ->
  fst (lcd_set_print_area c0 c1 r0 r1 s) = false /\
  quiet s0 (snd (lcd_set_print_area c0 c1 r0 r1 s)).
Proof.
  intros [He Hb]. unfold lcd_set_print_area.
  destruct (_ || _); [split; [reflexivity | split; assumption]|].
  destruct (_ || _); [split; [reflexivity | split; assumption]|].
  unfold write_control_sequence. rewrite write_sequence_disabled by assumption.
  destruct s; cbn in *. split; [reflexivity | split; assumption].
Qed.

Lemma write_rows_quiet s0 rows : forall s,
  quiet s0 s ->
  quiet s0 (fold_left (fun st row => snd (write_data_sequence row st)) rows s).
Proof.
  induction rows as [|row rows IH]; intros s Hq; cbn [fold_left]; [exact Hq|].
  apply IH. unfold write_data_sequence.
  rewrite write_sequence_disabled by apply Hq. exact Hq.
Qed.

Lemma write_line_quiet s0 str row size justification s n s' :
  quiet s0 s ->
  write_line str row size justification s = Ok (n, s') -> quiet s0 s'.
Proof.
  intros Hq. unfold write_line.
  destruct (_ || _); [intros H; injection H as _ <-; exact Hq|].
  destruct (assemble _ _ _) as [rows|e]; cbn [bind]; [|discriminate].
  destruct (pad_rows _ _) as [rows1|e]; cbn [bind]; [|discriminate].
  destruct (fit_columns _ _ _) as [rows3|e]; cbn [bind]; [|discriminate].
  intros H; injection H as _ <-.
  apply write_rows_quiet, set_print_area_quiet, Hq.
Qed.

Lemma print_lines_quiet s0 lines cts justification :
  forall rowNum printedCount s r c s',
  quiet s0 s ->
  print_lines lines cts justification rowNum printedCount s = Ok (r, c, s') ->
  quiet s0 s'.
Proof.
  induction lines as [|l lines IH]; intros rowNum printedCount s r c s' Hq;
    cbn [print_lines].
  - intros H; injection H as _ _ <-; exact Hq.
  - destruct (write_line l rowNum cts justification s) as [[n s1]|e] eqn:E;
      cbn [bind]; [|discriminate].
    apply IH. eapply write_line_quiet; eassumption.
Qed.

Lemma clear_rest_quiet s0 rowsLeft : forall s s',
  quiet s0 s -> clear_rest rowsLeft s = Ok s' -> quiet s0 s'.
Proof.
  induction rowsLeft as [|i rowsLeft IH]; intros s s' Hq; cbn [clear_rest].
  - intros H; injection H as <-; exact Hq.
  - destruct (write_line EmptyString i 1 JUSTIFY_LEFT s) as [[n s1]|e] eqn:E;
      cbn [bind]; [|discriminate].
    apply IH. eapply write_line_quiet; eassumption.
Qed.

Lemma write_block_quiet s0 str row min_ts max_ts justification s n s' :
  quiet s0 s ->
  write_block str row min_ts max_ts justification s = Ok (n, s') -> quiet s0 s'.
Proof.
  intros Hq. unfold write_block.
  destruct (_ || _); [intros H; injection H as _ <-; exact Hq|].
  destruct (_ || _); [apply write_line_quiet, Hq|].
  destruct (fit_search _ _ _ _ _ _ _ _ _) as [[[cts lines] maxLines]|e];
    cbn [bind]; [|discriminate].
  destruct (print_lines _ _ _ _ _ _) as [[[r c] s1]|e] eqn:E1;
    cbn [bind]; [|discriminate].
  destruct (clear_rest _ _) as [s2|e] eqn:E2; cbn [bind]; [|discriminate].
  intros H; injection H as _ <-.
  eapply clear_rest_quiet; [|exact E2].
  eapply print_lines_quiet; [|exact E1]. exact Hq.
Qed.

Lemma clear_quiet s0 s :
  quiet s0 s -> fst (clear s) = false /\ quiet s0 (snd (clear s)).
Proof.
  intros Hq. unfold clear.
  destruct (set_print_area_quiet s0 (min_col_addr s) (max_col_addr s)
              (min_row_addr s) (max_row_addr s) s Hq) as [_ Hq1].
  unfold lcd_set_print_area_max.
  set (s1 := snd (lcd_set_print_area _ _ _ _ s)) in *.
  assert (H : forall l status,
             l <> [] \/ status = false ->
             let r := fold_left
                        (fun (acc : bool * t) (_ : nat) =>
                           let '(status, s1) := acc in
                           let '(ok, s2) := write_data_sequence (zeros 32) s1 in
                           (if ok then status else false, s2))
                        l (status, s1) in
             fst r = false /\ quiet s0 (snd r)).
  { clearbody s1. clear -Hq1. intros l. revert s1 Hq1.
    induction l as [|x l IH]; intros s2 Hq2 status Hl; cbn [fold_left].
    - destruct Hl as [Hl|Hl]; [congruence|]. cbn. auto.
    - assert (E : write_data_sequence (zeros 32) s2 = (false, s2))
        by (apply write_sequence_disabled, Hq2).
      rewrite E. cbv beta iota.
      apply IH; [exact Hq2 | right; reflexivity]. }
  apply (H (seq 0 32) true). left. discriminate.
Qed.

End DriverQuiet.

(** X4.  A disabled driver is silent: control bytes, data bytes,
    sequences and the clearing of the screen return failure, and neither
    they nor [write_line], [write_block] or the initialization sequence
    attempt a single bus transaction.  The low-level writes leave the
    driver exactly as it was. *)
Theorem disabled_driver_is_silent (s : Lcd.t) :
  Lcd.enabled s = false ->
  (forall byte, Lcd.write_control_byte byte false s = (false, s)) /\
  (forall byte, Lcd.write_data_byte byte s = (false, s)) /\
  (forall cmd sequence, Lcd.write_sequence cmd sequence s = (false, s)) /\
  (fst (Lcd.clear s) = false /\
   sent (Lcd.bus (snd (Lcd.clear s))) = sent (Lcd.bus s)) /\
  (forall str row size justification n s',
     Lcd.write_line str row size justification s = Ok (n, s') ->
     sent (Lcd.bus s') = sent (Lcd.bus s)) /\
  (forall str row min_ts max_ts justification n s',
     Lcd.write_block str row min_ts max_ts justification s = Ok (n, s') ->
     sent (Lcd.bus s') = sent (Lcd.bus s)) /\
  sent (Lcd.bus (Lcd.write_initialization_sequence s)) = sent (Lcd.bus s).
Proof.
  intros He. pose proof (quiet_refl s He) as Hq.
  split; [intros byte; unfold Lcd.write_control_byte; rewrite He; reflexivity|].
  split; [intros byte; unfold Lcd.write_data_byte; rewrite He; reflexivity|].
  split; [intros cmd sequence; apply write_sequence_disabled, He|].
  split.
  { destruct (clear_quiet s s Hq) as [Hf [_ Hb]]. rewrite Hb. auto. }
  split.
  { intros str row size justification n s' H.
    destruct (write_line_quiet s _ _ _ _ _ _ _ Hq H) as [_ Hb]. rewrite Hb.
    reflexivity. }
  split.
  { intros str row min_ts max_ts justification n s' H.
    destruct (write_block_quiet s _ _ _ _ _ _ _ _ Hq H) as [_ Hb]. rewrite Hb.
    reflexivity. }
  unfold Lcd.write_initialization_sequence, Lcd.write_control_sequence.
  rewrite write_sequence_disabled by exact He. cbn [snd].
  destruct (clear_quiet s s Hq) as [_ Hq2].
  destruct (set_power_effect true (snd (Lcd.clear s))) as (_ & Hoff & _).
  rewrite (Hoff (proj1 Hq2)). cbn [snd]. rewrite (proj2 Hq2). reflexivity.
Qed.

(** A driver switched off by [disable]. *)
Lemma disabled_driver_is_silent_witness :
  Lcd.enabled (Lcd.disable (screen_128x64 bus_up)) = false /\
  Lcd.write_data_byte 7 (Lcd.disable (screen_128x64 bus_up))
  = (false, Lcd.disable (screen_128x64 bus_up)).
Proof.
  split; [reflexivity|].
  exact (proj1 (proj2 (disabled_driver_is_silent
                         (Lcd.disable (screen_128x64 bus_up)) eq_refl)) 7).
Defined.

(** X5.  On an enabled driver whose window is not empty, a sequence
    write returns success as soon as one of its chunks went through,
    even when others failed; it returns failure when all failed and for
    an empty sequence, which sends nothing.  The failure flag of the
    driver is raised by the first failed transaction and never lowered. *)
Theorem write_sequence_reports_any_success
    (cmd : Z) (sequence : list Z) (s : Lcd.t) :
  Lcd.enabled s = true ->
  Lcd.gmin_col s <= Lcd.gmax_col s -> Lcd.gmin_row s <= Lcd.gmax_row s ->
  let r := Lcd.write_sequence cmd sequence s in
  let news := new_txns s (snd r) in
  fst r = existsb txn_ok news /\
  Lcd.write_failure (snd r) = Lcd.write_failure s || existsb txn_failed news /\
  (sequence = [] -> r = (false, s)).
Proof.
  intros He Oc Or. cbn zeta. unfold Lcd.write_sequence. rewrite He.
  destruct (write_chunks_flags cmd (len sequence) (chunks 32 sequence) false s Oc Or)
    as (A & B & _).
  cbn zeta in A, B. rewrite A, B. cbn [orb].
  split; [reflexivity|]. split; [reflexivity|].
  intros ->. reflexivity.
Qed.

(** Two chunks, the second of which fails. *)
Lemma write_sequence_reports_any_success_witness :
  Lcd.enabled (screen_128x64 (mkBus (fun n => Nat.eqb n 0) [])) = true /\
  fst (Lcd.write_sequence Lcd.DATA_BYTE (zeros 40)
         (screen_128x64 (mkBus (fun n => Nat.eqb n 0) [])))
  = existsb txn_ok
      (new_txns (screen_128x64 (mkBus (fun n => Nat.eqb n 0) []))
         (snd (Lcd.write_sequence Lcd.DATA_BYTE (zeros 40)
                 (screen_128x64 (mkBus (fun n => Nat.eqb n 0) []))))).
Proof.
  split; [reflexivity|].
  apply (write_sequence_reports_any_success Lcd.DATA_BYTE (zeros 40)
           (screen_128x64 (mkBus (fun n => Nat.eqb n 0) [])));
    [reflexivity | cbn; lia | cbn; lia].
Defined.

Section DriverSteps.

Import Lcd.

Lemma write_data_byte_bus byte s :
  enabled s = true ->
  let s' := snd (write_data_byte byte s) in
  sent (bus s')
  = sent (bus s) ++ [mkTxn (hw_write_addr s) DATA_BYTE [byte]
                           (outcome (bus s) (length (sent (bus s))))] /\
  outcome (bus s') = outcome (bus s) /\ enabled s' = true.
Proof.
  intros He. cbn zeta. unfold write_data_byte. rewrite He.
  destruct (bus_write_sent DATA_BYTE [byte] s) as (Bok & Bs & Bo).
  destruct (bus_write_frame DATA_BYTE [byte] s) as (_ & _ & Fe & _).
  destruct (bus_write DATA_BYTE [byte] s) as [ok s1]. cbn [fst snd] in *.
  destruct ok.
  - destruct (increment_frame 1 s1) as (_ & Ie & Ib).
    destruct (lcd_increment_current 1 s1) as [e s2]. cbn [fst snd] in *.
    destruct e; cbn [snd].
    + destruct (note_failure_frame s2) as (_ & _ & Ne & Nb).
      rewrite Nb, Ne, Ib, Ie. repeat split; congruence.
    + rewrite Ib, Ie. repeat split; congruence.
  - destruct (note_failure_frame s1) as (_ & _ & Ne & Nb). cbn [snd].
    rewrite Nb, Ne. repeat split; congruence.
Qed.

Lemma bus_all_up_next s :
  bus_all_up s -> outcome (bus s) (length (sent (bus s))) = true.
Proof. intros H. apply H. lia. Qed.

Lemma bus_all_up_grows s s' news :
  bus_all_up s -> sent (bus s') = sent (bus s) ++ news ->
  outcome (bus s') = outcome (bus s) -> bus_all_up s'.
Proof.
  unfold bus_all_up. intros H Hs Ho n Hn. rewrite Ho. apply H.
  rewrite Hs, length_app in Hn. lia.
Qed.

(** The position reached after [n] steps of a row-major walk. *)
Lemma row_major_next (n C R : Z) :
  0 <= n -> 0 < C -> 0 < R ->
  (n mod C < C - 1 ->
   (n + 1) mod C = n mod C + 1 /\ (n + 1) / C = n / C) /\
  (n mod C = C - 1 ->
   (n + 1) mod C = 0 /\ (n + 1) / C = n / C + 1 /\
   (((n / C) mod R < R - 1 -> ((n + 1) / C) mod R = (n / C) mod R + 1) /\
    ((n / C) mod R = R - 1 -> ((n + 1) / C) mod R = 0))).
Proof.
  intros Hn HC HR.
  pose proof (Z.div_mod n C ltac:(lia)) as E.
  pose proof (Z.mod_pos_bound n C HC) as B.
  split.
  - intros Hlt.
    assert (Q : (n + 1) / C = n / C)
      by (symmetry; apply Z.div_unique with (r := n mod C + 1); lia).
    split; [|exact Q].
    symmetry. apply Z.mod_unique with (q := n / C); lia.
  - intros Heq.
    assert (Q : (n + 1) / C = n / C + 1)
      by (symmetry; apply Z.div_unique with (r := 0); lia).
    split; [symmetry; apply Z.mod_unique with (q := n / C + 1); lia|].
    split; [exact Q|]. rewrite Q.
    pose proof (Z.div_mod (n / C) R ltac:(lia)) as E2.
    pose proof (Z.mod_pos_bound (n / C) R HR) as B2.
    split; intros H2.
    + symmetry. apply Z.mod_unique with (q := n / C / R); lia.
    + symmetry. apply Z.mod_unique with (q := n / C / R + 1); lia.
Qed.

Lemma write_bytes_walk byte c1 r1 (n : nat) : forall s,
  enabled s = true -> bus_all_up s ->
  window s = (0, c1, 0, r1) -> cursor s = (0, 0) -> 0 <= c1 -> 0 <= r1 ->
  let s' := write_bytes n byte s in
  enabled s' = true /\ bus_all_up s' /\ window s' = (0, c1, 0, r1) /\
  cursor s' = (Z.of_nat n mod (c1 + 1),
               (Z.of_nat n / (c1 + 1)) mod (r1 + 1)).
Proof.
  intros s He Hu Hw Hc0 Hc1 Hr1. cbn zeta.
  induction n as [|n IH].
  - cbn. auto.
  - destruct IH as (IE & IU & IW & IC).
    unfold write_bytes in *. rewrite Nat.iter_succ.
    set (sn := Nat.iter n (fun st => snd (write_data_byte byte st)) s) in *.
    destruct (write_data_byte_bus byte sn IE) as (Ws & Wo & We).
    assert (Hin : cursor_in_window sn).
    { unfold cursor_in_window, window, cursor in *.
      injection IW as -> -> -> ->. injection IC as -> ->.
      pose proof (Z.mod_pos_bound (Z.of_nat n) (c1 + 1) ltac:(lia)).
      pose proof (Z.mod_pos_bound (Z.of_nat n / (c1 + 1)) (r1 + 1) ltac:(lia)).
      lia. }
    destruct (data_byte_row_major_at_origin byte c1 r1 sn IE
                (bus_all_up_next sn IU) IW Hin) as (_ & Sw & Sc).
    split; [exact We|].
    split; [eapply bus_all_up_grows; eassumption|].
    split; [congruence|].
    rewrite Sc. unfold cursor in IC. injection IC as -> ->.
    destruct (row_major_next (Z.of_nat n) (c1 + 1) (r1 + 1)
                ltac:(lia) ltac:(lia) ltac:(lia)) as [Hin1 Hwrap].
    rewrite Nat2Z.inj_succ. unfold Z.succ.
    pose proof (Z.mod_pos_bound (Z.of_nat n) (c1 + 1) ltac:(lia)).
    pose proof (Z.mod_pos_bound (Z.of_nat n / (c1 + 1)) (r1 + 1) ltac:(lia)).
    destruct (Z.ltb_spec (Z.of_nat n mod (c1 + 1)) c1) as [L|L].
    + destruct Hin1 as [-> ->]; [lia|]. reflexivity.
    + destruct Hwrap as (-> & Q & Hlt & Heq); [lia|].
      destruct (Z.ltb_spec ((Z.of_nat n / (c1 + 1)) mod (r1 + 1)) r1) as [L2|L2].
      * rewrite Hlt by lia. reflexivity.
      * rewrite Heq by lia. reflexivity.
Qed.

Lemma zeros_32_one_chunk : (1 <= length (zeros 32) <= 32)%nat.
Proof. unfold zeros. rewrite repeat_length. lia. Qed.

(** The 32 passes of the loop of [clear] on an enabled driver whose
    window is not empty. *)
Lemma clear_loop_effect (l : list nat) : forall status s,
  enabled s = true ->
  gmin_col s <= gmax_col s -> gmin_row s <= gmax_row s ->
  let r := fold_left
             (fun (acc : bool * t) (_ : nat) =>
                let '(status, s1) := acc in
                let '(ok, s2) := write_data_sequence (zeros 32) s1 in
                (if ok then status else false, s2))
             l (status, s) in
  exists news,
    sent (bus (snd r)) = sent (bus s) ++ news /\
    outcome (bus (snd r)) = outcome (bus s) /\
    map on_wire news = repeat (DATA_BYTE, zeros 32) (length l) /\
    fst r = status && forallb txn_ok news /\
    enabled (snd r) = true /\ window (snd r) = window s /\
    power_state (snd r) = power_state s /\ same_screen s (snd r).
Proof.
  induction l as [|x l IH]; intros status s He Oc Or; cbn zeta.
  - exists []. cbn. rewrite app_nil_r, andb_true_r.
    repeat split; try reflexivity; assumption.
  - cbn [fold_left].
    destruct (write_sequence_one_chunk DATA_BYTE (zeros 32) s He)
      as (Ws & Wo & We & Wp); [exact zeros_32_one_chunk|].
    destruct (write_sequence_one_chunk_flags DATA_BYTE (zeros 32) s He)
      as (Wf & Wps); [exact zeros_32_one_chunk | assumption | assumption|].
    pose proof (write_sequence_screen DATA_BYTE (zeros 32) s) as Wsc.
    change (write_data_sequence (zeros 32) s)
      with (write_sequence DATA_BYTE (zeros 32) s).
    destruct (write_sequence DATA_BYTE (zeros 32) s) as [ok s1].
    cbn [fst snd] in *. cbv beta iota.
    set (ok0 := outcome (bus s) (length (sent (bus s)))) in *.
    assert (Hw1 : window s1 = window s).
    { destruct Wp as [Hw _]. rewrite Hw.
      destruct (ok0 && (DATA_BYTE =? DATA_BYTE)); [|reflexivity].
      apply (iter_advance_window (len (zeros 32)) 1 s). }
    assert (O1 : gmin_col s1 <= gmax_col s1 /\ gmin_row s1 <= gmax_row s1).
    { unfold window in Hw1. injection Hw1 as -> -> -> ->. auto. }
    destruct (IH (if ok then status else false) s1 We (proj1 O1) (proj2 O1))
      as (news & Hs & Ho & Hm & Hst & Hen & Hw & Hps & Hsc).
    exists (mkTxn (hw_write_addr s) DATA_BYTE (zeros 32) ok0 :: news).
    cbn zeta in *.
    rewrite Hs, Ho, Hst, Hen, Hw, Hps, Ws, Wo, Wps, Hw1, <- app_assoc.
    cbn [map app on_wire txn_cmd txn_data forallb txn_ok length repeat].
    rewrite Hm. subst ok.
    refine (conj eq_refl (conj eq_refl (conj eq_refl (conj _
             (conj eq_refl (conj eq_refl (conj eq_refl _))))))).
    + destruct ok0, status; reflexivity.
    + eapply same_screen_trans; eassumption.
Qed.

(** [clear] on an enabled driver for a screen that is well formed. *)
Lemma clear_effect s :
  enabled s = true -> screen_ok s ->
  let r := clear s in
  exists t0 news,
    sent (bus (snd r)) = sent (bus s) ++ t0 :: news /\
    outcome (bus (snd r)) = outcome (bus s) /\
    on_wire t0 = (CONTROL_BYTE, [0x21; min_col_addr s; max_col_addr s;
                                 0x22; min_row_addr s; max_row_addr s]) /\
    map on_wire news = repeat (DATA_BYTE, zeros 32) 32 /\
    fst r = forallb txn_ok news /\
    enabled (snd r) = true /\ window (snd r) = full_screen s /\
    power_state (snd r) = power_state s /\ same_screen s (snd r).
Proof.
  intros He [[S1 S2] [S3 S4]]. cbn zeta. unfold clear, lcd_set_print_area_max.
  pose proof (set_print_area_screen (min_col_addr s) (max_col_addr s)
                (min_row_addr s) (max_row_addr s) s) as Hsc.
  destruct (set_print_area_selects (min_col_addr s) (max_col_addr s)
              (min_row_addr s) (max_row_addr s) s) as [Hw _]; try lia.
  assert (Hsel : let s0 := snd (lcd_set_print_area (min_col_addr s) (max_col_addr s)
                                  (min_row_addr s) (max_row_addr s) s) in
                 exists t0, sent (bus s0) = sent (bus s) ++ [t0] /\
                            outcome (bus s0) = outcome (bus s) /\
                            on_wire t0 = (CONTROL_BYTE,
                                          [0x21; min_col_addr s; max_col_addr s;
                                           0x22; min_row_addr s; max_row_addr s]) /\
                            enabled s0 = true /\ power_state s0 = power_state s).
  { cbn zeta. unfold lcd_set_print_area.
    replace ((min_col_addr s <? 0) || (max_col_addr s >? max_col_addr s)
             || (max_col_addr s <? min_col_addr s))
      with false by (symmetry; rewrite !orb_false_iff; repeat split; lia).
    replace ((min_row_addr s <? 0) || (max_row_addr s >? max_row_addr s)
             || (max_row_addr s <? min_row_addr s))
      with false by (symmetry; rewrite !orb_false_iff; repeat split; lia).
    rewrite write_control_sequence_one by (cbn; auto; lia).
    destruct (bus_write_sent CONTROL_BYTE
                [33; min_col_addr s; max_col_addr s; 34;
                 min_row_addr s; max_row_addr s] s) as (Bok & Bs & Bo).
    destruct (bus_write_frame CONTROL_BYTE
                [33; min_col_addr s; max_col_addr s; 34;
                 min_row_addr s; max_row_addr s] s) as (_ & _ & Fe & _).
    assert (Fp : power_state (snd (bus_write CONTROL_BYTE
                [33; min_col_addr s; max_col_addr s; 34;
                 min_row_addr s; max_row_addr s] s)) = power_state s)
      by (destruct s; reflexivity).
    destruct (bus_write CONTROL_BYTE _ s) as [ok s1]. cbn [fst snd] in *.
    exists (mkTxn (hw_write_addr s) CONTROL_BYTE
                  [33; min_col_addr s; max_col_addr s; 34;
                   min_row_addr s; max_row_addr s]
                  (outcome (bus s) (length (sent (bus s))))).
    assert (Hrel : forall a b c d x,
               bus (with_current_row c (with_current_col a
                      (with_window a b c d x))) = bus x /\
               enabled (with_current_row c (with_current_col a
                          (with_window a b c d x))) = enabled x /\
               power_state (with_current_row c (with_current_col a
                              (with_window a b c d x))) = power_state x)
      by (intros a b c d x; destruct x; cbn; auto).
    destruct ok; cbn [snd].
    - destruct (Hrel (min_col_addr s) (max_col_addr s) (min_row_addr s)
                     (max_row_addr s) s1) as (Rb & Re & Rp).
      rewrite Rb, Re, Rp. repeat split; congruence.
    - destruct (Hrel (min_col_addr s) (max_col_addr s) (min_row_addr s)
                     (max_row_addr s) (note_failure s1)) as (Rb & Re & Rp).
      destruct (note_failure_frame s1) as (_ & _ & Ne & Nb).
      assert (Np : power_state (note_failure s1) = power_state s1)
        by (unfold note_failure; destruct (write_failure s1); [|destruct s1];
            reflexivity).
      rewrite Rb, Re, Rp, Nb, Ne, Np. repeat split; congruence. }
  set (s0 := snd (lcd_set_print_area _ _ _ _ s)) in *. cbn zeta in Hsel.
  destruct Hsel as (t0 & Hs0 & Ho0 & Hon & He0 & Hp0).
  assert (O0 : gmin_col s0 <= gmax_col s0 /\ gmin_row s0 <= gmax_row s0).
  { unfold window in Hw. injection Hw as -> -> -> ->. lia. }
  destruct (clear_loop_effect (seq 0 32) true s0 He0 (proj1 O0) (proj2 O0))
    as (news & Hs & Ho & Hm & Hst & Hen & Hww & Hps & Hscr).
  cbn zeta in *. exists t0, news.
  rewrite Hs, Ho, Hst, Hen, Hww, Hps, Hs0, Ho0, Hp0, <- app_assoc.
  rewrite length_seq in Hm.
  refine (conj eq_refl (conj eq_refl (conj Hon (conj Hm
           (conj eq_refl (conj eq_refl (conj Hw (conj eq_refl _)))))))).
  eapply same_screen_trans; eassumption.
Qed.

End DriverSteps.

(** X6.  In a window anchored at the origin, columns 0..c1 and row bands
    0..r1, [n] data bytes written on a working bus from the origin walk
    the window row-major: the cursor is then at column [n mod (c1+1)] of
    band [(n / (c1+1)) mod (r1+1)], so it is back at the origin after
    [(c1+1) * (r1+1)] bytes. *)
Theorem data_bytes_walk_row_major
    (byte c1 r1 : Z) (n : nat) (s : Lcd.t) :
  Lcd.enabled s = true -> bus_all_up s ->
  window s = (0, c1, 0, r1) -> cursor s = (0, 0) -> 0 <= c1 -> 0 <= r1 ->
  cursor (write_bytes n byte s)
  = (Z.of_nat n mod (c1 + 1), (Z.of_nat n / (c1 + 1)) mod (r1 + 1)) /\
  cursor (write_bytes (Z.to_nat ((c1 + 1) * (r1 + 1))) byte s) = (0, 0).
Proof.
  intros He Hu Hw Hc Hc1 Hr1.
  split; [apply (write_bytes_walk byte c1 r1 n s He Hu Hw Hc Hc1 Hr1)|].
  destruct (write_bytes_walk byte c1 r1 (Z.to_nat ((c1 + 1) * (r1 + 1))) s
              He Hu Hw Hc Hc1 Hr1) as (_ & _ & _ & E).
  rewrite E, Z2Nat.id by nia.
  rewrite Z.mul_comm, Z.mod_mul, Z.div_mul, Z.mod_same by lia. reflexivity.
Qed.

(** The whole 128x64 screen, 130 bytes in. *)
Lemma data_bytes_walk_row_major_witness :
  Lcd.enabled (screen_128x64 bus_up) = true /\
  bus_all_up (screen_128x64 bus_up) /\
  cursor (write_bytes 130 7 (screen_128x64 bus_up)) = (2, 1).
Proof.
  assert (Hu : bus_all_up (screen_128x64 bus_up)) by (intros n _; reflexivity).
  split; [reflexivity|]. split; [exact Hu|].
  exact (proj1 (data_bytes_walk_row_major 7 127 7 130 (screen_128x64 bus_up)
                  eq_refl Hu eq_refl eq_refl ltac:(lia) ltac:(lia))).
Defined.

(** X7.  [clear] on an enabled driver selects the whole screen and then
    sends 32 data transactions of 32 zero bytes each, 1024 bytes
    whatever the size of the screen.  It returns success exactly when
    all 32 data transactions went through; the outcome of the window
    select is not looked at.  Afterwards the window is the whole
    screen. *)
Theorem clear_sends_32_chunks (s : Lcd.t) :
  Lcd.enabled s = true -> screen_ok s ->
  let r := Lcd.clear s in
  map on_wire (new_txns s (snd r))
  = (Lcd.CONTROL_BYTE,
     [0x21; Lcd.min_col_addr s; Lcd.max_col_addr s;
      0x22; Lcd.min_row_addr s; Lcd.max_row_addr s])
    :: repeat (Lcd.DATA_BYTE, zeros 32) 32 /\
  fst r = forallb txn_ok (tl (new_txns s (snd r))) /\
  window (snd r) = full_screen s.
Proof.
  intros He Hs. cbn zeta.
  destruct (clear_effect s He Hs)
    as (t0 & news & Hsent & _ & Hon & Hm & Hst & _ & Hw & _).
  cbn zeta in *. rewrite (new_txns_app _ _ _ Hsent).
  cbn [map tl]. rewrite Hon, Hm, Hst. auto.
Qed.

(** Clearing the 128x64 screen. *)
Lemma clear_sends_32_chunks_witness :
  Lcd.enabled (screen_128x64 bus_up) = true /\
  screen_ok (screen_128x64 bus_up) /\
  window (snd (Lcd.clear (screen_128x64 bus_up)))
  = full_screen (screen_128x64 bus_up).
Proof.
  assert (Hs : screen_ok (screen_128x64 bus_up)) by (unfold screen_ok; cbn; lia).
  split; [reflexivity|]. split; [exact Hs|].
  exact (proj2 (proj2 (clear_sends_32_chunks (screen_128x64 bus_up) eq_refl Hs))).
Defined.

Section DriverInit.

Import Lcd.

Lemma write_chunk_power cmd total acc c :
  power_state (snd (write_chunk cmd total acc c)) = power_state (snd acc).
Proof.
  destruct acc as [status s]. cbn [snd]. unfold write_chunk.
  assert (Fp : power_state (snd (bus_write cmd c s)) = power_state s)
    by (destruct s; reflexivity).
  assert (Np : forall x, power_state (note_failure x) = power_state x)
    by (intros x; unfold note_failure; destruct (write_failure x); [|destruct x];
        reflexivity).
  destruct (bus_write cmd c s) as [ok s1]. cbn [snd] in *.
  destruct ok; [|cbn [snd]; rewrite Np; exact Fp].
  destruct (cmd =? DATA_BYTE); [|exact Fp].
  destruct (increment_keeps_flag total s1) as [_ Kp].
  destruct (lcd_increment_current total s1) as [e s2]. cbn [snd] in *.
  destruct e; cbn [snd]; [rewrite Np|]; congruence.
Qed.

Lemma write_sequence_power cmd sequence s :
  power_state (snd (write_sequence cmd sequence s)) = power_state s.
Proof.
  unfold write_sequence. destruct (enabled s); [|reflexivity].
  apply (fold_left_invariant (fun acc => power_state (snd acc) = power_state s));
    [|reflexivity].
  intros a x Ha. rewrite write_chunk_power. exact Ha.
Qed.

Lemma screen_ok_same_screen s s' : screen_ok s -> same_screen s s' -> screen_ok s'.
Proof. unfold screen_ok, same_screen. intros H (E1 & E2 & E3 & E4). lia. Qed.

Lemma set_power_sent on s :
  enabled s = true ->
  sent (bus (snd (set_power on s)))
  = sent (bus s)
    ++ [mkTxn (hw_write_addr s) CONTROL_BYTE [if on then 0xAF else 0xAE]
              (outcome (bus s) (length (sent (bus s))))].
Proof.
  unfold set_power, write_control_byte, bus_write, note_failure.
  destruct s as [a [o l] c0 c1 r0 r1 g0 g1 g2 g3 cc cr wf ps en]. cbn.
  intros ->. destruct (o (length l)), wf, on; reflexivity.
Qed.

Lemma init_sequence_one_chunk : (1 <= length init_sequence <= 32)%nat.
Proof. cbn. lia. Qed.

End DriverInit.

(** X8.  The initialization of an enabled driver is 35 bus
    transactions: the 25 control bytes of the init sequence in one
    transaction, the window select of [clear], its 32 data transactions
    of 32 zero bytes, and the control byte 0xAF that switches the panel
    on.  None of the first 34 outcomes matters for what follows: the
    window is the whole screen afterwards, and the display counts as
    powered exactly when the last transaction went through, keeping its
    former power state otherwise. *)
Theorem initialization_is_35_transactions (s : Lcd.t) :
  Lcd.enabled s = true -> screen_ok s ->
  let s' := Lcd.write_initialization_sequence s in
  map on_wire (new_txns s s')
  = (Lcd.CONTROL_BYTE, Lcd.init_sequence)
    :: (Lcd.CONTROL_BYTE,
        [0x21; Lcd.min_col_addr s; Lcd.max_col_addr s;
         0x22; Lcd.min_row_addr s; Lcd.max_row_addr s])
    :: repeat (Lcd.DATA_BYTE, zeros 32) 32
    ++ [(Lcd.CONTROL_BYTE, [0xAF])] /\
  window s' = full_screen s /\
  Lcd.is_powered s'
  = (if outcome (Lcd.bus s) (length (sent (Lcd.bus s)) + 34)
     then true else Lcd.is_powered s).
Proof.
  intros He Hs. cbn zeta. unfold Lcd.write_initialization_sequence.
  destruct (write_sequence_one_chunk Lcd.CONTROL_BYTE Lcd.init_sequence s He
              init_sequence_one_chunk) as (Is & Io & Ie & _).
  pose proof (write_sequence_power Lcd.CONTROL_BYTE Lcd.init_sequence s) as Ip.
  pose proof (write_sequence_screen Lcd.CONTROL_BYTE Lcd.init_sequence s) as Isc.
  fold (Lcd.write_control_sequence Lcd.init_sequence s) in *.
  set (s1 := snd (Lcd.write_control_sequence Lcd.init_sequence s)) in *.
  cbn zeta in Is, Io, Ie.
  destruct (clear_effect s1 Ie (screen_ok_same_screen _ _ Hs Isc))
    as (t0 & news & Cs & Co & Con & Cm & _ & Ce & Cw & Cp & Csc).
  cbn zeta in *.
  set (s2 := snd (Lcd.clear s1)) in *.
  destruct (set_power_effect true s2) as (Pon & _ & Ppl).
  destruct (Pon Ce) as (_ & Pn & Pp). cbn zeta in *.
  assert (Ln : length news = 32%nat)
    by (rewrite <- (length_map on_wire), Cm, repeat_length; reflexivity).
  assert (Ls2 : length (sent (Lcd.bus s2)) = (length (sent (Lcd.bus s)) + 34)%nat).
  { rewrite Cs, Is, !length_app. cbn [length]. rewrite Ln. lia. }
  pose proof (set_power_sent true s2 Ce) as Hsent.
  split; [|split].
  - erewrite new_txns_app.
    2:{ rewrite Hsent, Cs, Is, <- !app_assoc. cbn [app]. reflexivity. }
    cbn [map]. rewrite map_app. cbn [map app on_wire txn_cmd txn_data].
    rewrite Con, Cm.
    destruct Isc as (E1 & E2 & E3 & E4). rewrite E1, E2, E3, E4.
    reflexivity.
  - destruct Ppl as [Pw _]. rewrite Pw, Cw. unfold full_screen.
    destruct Isc as (E1 & E2 & E3 & E4). rewrite E1, E2, E3, E4. reflexivity.
  - rewrite Pp, Ls2, Co, Io. unfold Lcd.is_powered. rewrite Cp, Ip. reflexivity.
Qed.

(** The initialization of the 128x64 screen on a working bus. *)
Lemma initialization_is_35_transactions_witness :
  Lcd.enabled (screen_128x64 bus_up) = true /\
  screen_ok (screen_128x64 bus_up) /\
  Lcd.is_powered (Lcd.write_initialization_sequence (screen_128x64 bus_up))
  = true.
Proof.
  assert (Hs : screen_ok (screen_128x64 bus_up)) by (unfold screen_ok; cbn; lia).
  split; [reflexivity|]. split; [exact Hs|].
  exact (proj2 (proj2 (initialization_is_35_transactions
                         (screen_128x64 bus_up) eq_refl Hs))).
Defined.

(** * Further properties of the font renderer *)

Section FontMore.

Import Lcd.

Lemma glyph_columns_length c : length (glyph_columns c) = 6%nat.
Proof. destruct c as [[] [] [] [] [] [] [] []]; reflexivity. Qed.

Lemma lor_byte a b :
  is_byte a = true -> is_byte b = true -> is_byte (Z.lor a b) = true.
Proof.
  intros Ha Hb. unfold is_byte in Ha, Hb.
  apply andb_true_iff in Ha, Hb. destruct Ha as [A0 A1], Hb as [B0 B1].
  apply Z.leb_le in A0, A1, B0, B1.
  assert (Hall : forallb (fun x =>
                   forallb (fun y => is_byte (Z.lor (Z.of_nat x) (Z.of_nat y)))
                           (seq 0 256)) (seq 0 256) = true)
    by (vm_compute; reflexivity).
  rewrite forallb_forall in Hall.
  specialize (Hall (Z.to_nat a)). rewrite forallb_forall in Hall.
  specialize (Hall ltac:(apply in_seq; lia) (Z.to_nat b)).
  rewrite !Z2Nat.id in Hall by assumption.
  apply Hall, in_seq. lia.
Qed.

Lemma nth_byte (l : list Z) k :
  forallb is_byte l = true -> is_byte (nth k l 0) = true.
Proof.
  intros H. destruct (Nat.lt_ge_cases k (length l)) as [L|L].
  - rewrite forallb_forall in H. apply H, nth_In, L.
  - rewrite nth_overflow by exact L. reflexivity.
Qed.

Lemma update_at_byte_row w i m row :
  is_byte m = true -> byte_row w row ->
  byte_row w (update_at i (fun v => Z.lor v m) row).
Proof.
  intros Hm [Hl Hb]. split; [rewrite update_at_length; exact Hl|].
  apply forallb_forall. intros x Hx.
  assert (F : Forall (fun v => is_byte v = true)
                     (update_at i (fun v => Z.lor v m) row)).
  { apply update_at_Forall.
    - intros v Hv. apply lor_byte; assumption.
    - apply Forall_forall. apply forallb_forall. exact Hb. }
  rewrite Forall_forall in F. apply F, Hx.
Qed.

Lemma or_at_rows w r c m rs :
  is_byte m = true -> Forall (byte_row w) rs ->
  Forall (byte_row w) (or_at r c m rs).
Proof.
  intros Hm H. unfold or_at. apply update_at_Forall; [|exact H].
  intros row Hrow. apply update_at_byte_row; assumption.
Qed.

Lemma paint_column_rows w tsm j col_mask rs :
  forallb is_byte col_mask = true -> Forall (byte_row w) rs ->
  Forall (byte_row w) (paint_column tsm j col_mask rs).
Proof.
  intros Hb H. unfold paint_column.
  apply (fold_left_invariant (fun x => Forall (byte_row w) x)); [|exact H].
  intros a k Ha.
  apply (fold_left_invariant (fun x => Forall (byte_row w) x)); [|exact Ha].
  intros a' l Ha'. apply or_at_rows; [apply nth_byte, Hb | exact Ha'].
Qed.

Lemma paint_bit_shape n w tsm glyph st :
  0 <= tsm -> render_ok n w st ->
  exists st', paint_bit tsm glyph st = Ok st' /\ render_ok n w st'.
Proof.
  intros Ht (Hb & Hl & Hr). destruct st as [[mask col_mask] ret_seq].
  cbn [fst snd] in *.
  destruct (paint_bit_ok n tsm glyph (mask, col_mask, ret_seq) Ht (conj Hb Hl))
    as (st' & E & [Hb' Hl']).
  exists st'. split; [exact E|]. split; [exact Hb'|]. split; [exact Hl'|].
  unfold paint_bit, bit_shift_right_byte_list in E.
  change (fun b => (0 <=? b) && (b <=? 255)) with is_byte in E.
  rewrite Hb in E. cbn [negb] in E. destruct (tsm <? 0); [discriminate|].
  cbn [bind] in E. injection E as <-. cbn [snd].
  apply (fold_left_invariant (fun x => Forall (byte_row w) x)); [|exact Hr].
  intros a j Ha. destruct (_ =? 0); [exact Ha|].
  apply paint_column_rows; assumption.
Qed.

(** [_generate_char_sequence] returns [tsm] rows of [6 tsm] bytes. *)
Lemma generate_char_sequence_shape char tsm :
  0 <= tsm ->
  exists rows, generate_char_sequence char tsm = Ok rows /\
               length rows = Z.to_nat tsm /\
               Forall (byte_row (Z.to_nat (6 * tsm))) rows.
Proof.
  intros Ht. unfold generate_char_sequence.
  set (glyph := glyph_columns char).
  set (w := Z.to_nat (6 * tsm)).
  set (step := fun (st : list Z * list (list Z)) (_ : Z) =>
                 let '(cm, rs) := st in
                 (update_at 0 (fun v => Z.lor (Z.shiftr v 1) 0x80) cm,
                  rs ++ [zeros (len glyph * tsm)])).
  assert (Hz : byte_row w (zeros (len glyph * tsm))).
  { unfold byte_row, zeros, len, glyph. rewrite glyph_columns_length.
    rewrite repeat_length. split; [unfold w; lia|].
    apply forallb_forall. intros x Hx. apply repeat_spec in Hx. subst x.
    reflexivity. }
  assert (H1 : forall l st,
             forallb is_byte (fst st) = true -> Forall (byte_row w) (snd st) ->
             forallb is_byte (fst (fold_left step l st)) = true /\
             length (snd (fold_left step l st)) = (length (snd st) + length l)%nat /\
             Forall (byte_row w) (snd (fold_left step l st))).
  { induction l as [|x l IH]; intros [cm rs] Hb Hr; cbn [fold_left].
    - cbn. split; [assumption|]. split; [lia | assumption].
    - destruct (IH (step (cm, rs) x)) as (IH1 & IH2 & IH3).
      + cbn [step fst]. apply forallb_forall. intros b Hin.
        cbn [fst] in Hb.
        assert (F : Forall (fun b => is_byte b = true)
                           (update_at 0 (fun v => Z.lor (Z.shiftr v 1) 0x80) cm)).
        { apply update_at_Forall; [apply mask_step_byte|].
          apply Forall_forall. apply forallb_forall. assumption. }
        rewrite Forall_forall in F. apply F, Hin.
      + cbn [step snd]. apply Forall_app. split; [exact Hr|].
        constructor; [exact Hz | constructor].
      + split; [assumption|]. split; [|assumption].
        rewrite IH2. cbn [step snd length].
        rewrite length_app. cbn [length]. lia. }
  specialize (H1 (range tsm) (zeros tsm, [])).
  destruct H1 as (Hb & Hl & Hr).
  { cbn [fst]. apply forallb_forall. intros b Hin. unfold zeros in Hin.
    apply repeat_spec in Hin. subst b. reflexivity. }
  { constructor. }
  destruct (fold_left step (range tsm) (zeros tsm, [])) as [col_mask ret_seq].
  cbn [fst snd] in *.
  destruct (fold_result_invariant (render_ok (Z.to_nat tsm) w)
              (fun st (_ : Z) => paint_bit tsm glyph st) (range 8))
    with (st := (128, col_mask, ret_seq)) as (st' & E & (_ & Hl' & Hr')).
  - intros st x. apply paint_bit_shape, Ht.
  - split; cbn [fst snd]; [assumption|]. split; [|assumption].
    rewrite Hl. unfold range. rewrite length_map, length_seq. reflexivity.
  - rewrite E. cbn [bind]. eexists. split; [reflexivity|]. auto.
Qed.

Lemma generate_depends_on_glyph c c' tsm :
  glyph_columns c = glyph_columns c' ->
  generate_char_sequence c tsm = generate_char_sequence c' tsm.
Proof. intros H. unfold generate_char_sequence. rewrite H. reflexivity. Qed.

Lemma renders_magnified_table :
  forallb (fun s => forallb (fun n => renders_magnified (ascii_of_nat n) s)
                            (seq 32 97))
          [1; 2; 3; 4; 5; 6; 7; 8] = true.
Proof. vm_compute. reflexivity. Qed.

Lemma glyph_outside_table c :
  (nat_of_ascii c < 32 \/ 128 <= nat_of_ascii c)%nat ->
  glyph_columns c = glyph_columns (ascii_of_nat 128).
Proof.
  intros H. unfold glyph_columns.
  change (Z.of_nat (nat_of_ascii (ascii_of_nat 128))) with 128.
  cbn [Z.geb Z.leb andb]. unfold LCD_ASCII_BEGIN, LCD_ASCII_MAX.
  destruct (Z.geb_spec (Z.of_nat (nat_of_ascii c)) 32) as [G|G];
    destruct (Z.leb_spec (Z.of_nat (nat_of_ascii c)) 127) as [L|L];
    cbn [andb]; try reflexivity.
  exfalso. lia.
Qed.

End FontMore.



(** X10.  For the scales 1 to 8 the rendering of a character is its
    glyph, blank column included, magnified [scale] times in both
    directions without interpolation: bit [i] of column [x] of row band
    [b] is the glyph's pixel at column [x / scale] and pixel row
    [(8 b + i) / scale].  A character outside 0x20..0x7F is rendered as
    the solid fallback glyph. *)
Theorem rendering_is_magnification (c : ascii) (scale : Z) :
  1 <= scale <= 8 ->
  exists rows,
    Lcd.generate_char_sequence c scale = Ok rows /\
    (forall b x i,
       0 <= b < scale -> 0 <= x < 6 * scale -> 0 <= i < 8 ->
       Z.testbit (nth (Z.to_nat x) (nth (Z.to_nat b) rows []) 0) i
       = Z.testbit (nth (Z.to_nat (x / scale)) (Lcd.glyph_columns c) 0)
                   ((8 * b + i) / scale)) /\
    ((nat_of_ascii c < 32 \/ 128 <= nat_of_ascii c)%nat ->
     Lcd.glyph_columns c = Lcd.char_other ++ [0]).
Proof.
  intros Hs.
  assert (Hc : exists c', Lcd.glyph_columns c = Lcd.glyph_columns c' /\
                          renders_magnified c' scale = true).
  { pose proof renders_magnified_table as T. rewrite forallb_forall in T.
    assert (Hin : In scale [1; 2; 3; 4; 5; 6; 7; 8]) by (cbn; lia).
    specialize (T scale Hin). rewrite forallb_forall in T.
    destruct (Nat.lt_ge_cases (nat_of_ascii c) 32) as [L|L];
      [|destruct (Nat.lt_ge_cases (nat_of_ascii c) 128) as [U|U]].
    - exists (ascii_of_nat 128). split; [apply glyph_outside_table; lia|].
      apply T, in_seq. lia.
    - exists c. split; [reflexivity|].
      rewrite <- (ascii_nat_embedding c). apply T, in_seq. lia.
    - exists (ascii_of_nat 128). split; [apply glyph_outside_table; lia|].
      apply T, in_seq. lia. }
  destruct Hc as (c' & Hg & Hr). unfold renders_magnified in Hr.
  rewrite <- (generate_depends_on_glyph c c' scale Hg), <- Hg in Hr.
  destruct (Lcd.generate_char_sequence c scale) as [rows|e]; [|discriminate].
  exists rows. split; [reflexivity|]. split.
  - intros b x i Hb Hx Hi. unfold magnified in Hr.
    rewrite forallb_forall in Hr.
    assert (Inr : forall n k, 0 <= k < n -> In k (Lcd.range n)).
    { intros n k Hk. unfold Lcd.range. apply in_map_iff.
      exists (Z.to_nat k). split; [lia | apply in_seq; lia]. }
    specialize (Hr b (Inr _ _ Hb)). rewrite forallb_forall in Hr.
    specialize (Hr x (Inr _ _ Hx)). rewrite forallb_forall in Hr.
    specialize (Hr i (Inr _ _ Hi)). apply eqb_prop in Hr. exact Hr.
  - intros Ho. rewrite (glyph_outside_table c Ho). reflexivity.
Qed.

(** The letter A at scale 2. *)
Lemma rendering_is_magnification_witness :
  1 <= 2 <= 8 /\
  exists rows,
    Lcd.generate_char_sequence "A" 2 = Ok rows /\
    Z.testbit (nth 3 (nth 1 rows []) 0) 0
    = Z.testbit (nth 1 (Lcd.glyph_columns "A") 0) 4.
Proof.
  split; [lia|].
  destruct (rendering_is_magnification "A" 2 ltac:(lia)) as (rows & E & H & _).
  exists rows. split; [exact E|].
  exact (H 1 3 0 ltac:(lia) ltac:(lia) ltac:(lia)).
Defined.

Section ShiftFacts.

Import Lcd.





End ShiftFacts.

Section PlaceFacts.

Import Lcd.

Lemma range_length n : length (range n) = Z.to_nat n.
Proof. unfold range. rewrite length_map, length_seq. reflexivity. Qed.

Lemma range_nth n i d :
  (i < Z.to_nat n)%nat -> nth i (range n) d = Z.of_nat i.
Proof.
  intros H. unfold range.
  rewrite (nth_indep _ d (Z.of_nat 0)) by (rewrite length_map, length_seq; lia).
  rewrite map_nth, seq_nth by lia. reflexivity.
Qed.

Lemma placed_length off w row : length (placed off w row) = Z.to_nat w.
Proof. unfold placed. rewrite length_map. apply range_length. Qed.

Lemma placed_nth off w row i :
  (i < Z.to_nat w)%nat ->
  nth i (placed off w row) 0
  = if (off <=? Z.of_nat i) && (Z.of_nat i <? off + len row)
    then nth (Z.to_nat (Z.of_nat i - off)) row 0 else 0.
Proof.
  intros H. unfold placed.
  set (f := fun x => if (off <=? x) && (x <? off + len row)
                     then nth (Z.to_nat (x - off)) row 0 else 0).
  rewrite (nth_indep _ 0 (f 0)) by (rewrite length_map, range_length; lia).
  rewrite map_nth, range_nth by assumption. reflexivity.
Qed.

(** A list is the placed row as soon as it has its length and agrees
    with it column by column. *)
Lemma placed_ext off w row out :
  length out = Z.to_nat w ->
  (forall i, (i < Z.to_nat w)%nat ->
     nth i out 0
     = if (off <=? Z.of_nat i) && (Z.of_nat i <? off + len row)
       then nth (Z.to_nat (Z.of_nat i - off)) row 0 else 0) ->
  out = placed off w row.
Proof.
  intros Hl Hn. apply nth_ext with (d := 0) (d' := 0).
  - rewrite placed_length. assumption.
  - intros i Hi. rewrite Hl in Hi. rewrite placed_nth by assumption.
    apply Hn, Hi.
Qed.

Lemma nth_zeros n i : nth i (zeros n) 0 = 0.
Proof.
  unfold zeros. generalize (Z.to_nat n) as k. intros k. revert i.
  induction k as [|k IH]; intros [|i]; cbn; auto.
Qed.

(** Padding: [a] blank columns, the row, [b] blank columns. *)
Lemma placed_pad a b row :
  0 <= a -> 0 <= b ->
  zeros a ++ row ++ zeros b = placed a (a + len row + b) row.
Proof.
  intros Ha Hb. apply placed_ext.
  - rewrite !length_app. unfold zeros, len. rewrite !repeat_length. lia.
  - intros i Hi.
    destruct (Z.leb_spec a (Z.of_nat i)) as [L|L]; cbn [andb].
    + rewrite app_nth2 by (unfold zeros; rewrite repeat_length; lia).
      unfold zeros at 1. rewrite repeat_length.
      replace (i - Z.to_nat a)%nat with (Z.to_nat (Z.of_nat i - a)) by lia.
      destruct (Z.ltb_spec (Z.of_nat i) (a + len row)) as [M|M].
      * rewrite app_nth1 by (unfold len in M; lia). reflexivity.
      * rewrite app_nth2 by (unfold len in M; lia). apply nth_zeros.
    + rewrite app_nth1 by (unfold zeros; rewrite repeat_length; lia).
      apply nth_zeros.
Qed.

(** Cropping: the row without its first [a] columns, cut at [w]. *)
Lemma placed_crop a w row :
  0 <= a -> 0 <= w -> a + w <= len row ->
  firstn (Z.to_nat w) (skipn (Z.to_nat a) row) = placed (- a) w row.
Proof.
  intros Ha Hw Hl. apply placed_ext.
  - rewrite length_firstn, length_skipn. unfold len in Hl. lia.
  - intros i Hi.
    destruct (Z.leb_spec (- a) (Z.of_nat i)) as [L|L]; [|lia]. cbn [andb].
    destruct (Z.ltb_spec (Z.of_nat i) (- a + len row)) as [M|M]; [|lia].
    rewrite nth_firstn.
    destruct (Nat.ltb_spec i (Z.to_nat w)) as [_|N]; [|lia].
    rewrite nth_skipn. f_equal. lia.
Qed.

Lemma placed_same row : row = placed 0 (len row) row.
Proof.
  transitivity (zeros 0 ++ row ++ zeros 0);
    [cbn; rewrite app_nil_r; reflexivity|].
  rewrite placed_pad by lia. f_equal. lia.
Qed.

Lemma pad_columns_placed j w row :
  len row < w ->
  pad_columns j (w - len row) row = placed (justify_offset j w (len row)) w row.
Proof.
  intros H. unfold pad_columns, justify_offset.
  assert (L0 : 0 <= len row) by (unfold len; lia).
  destruct (j =? JUSTIFY_RIGHT).
  - transitivity (zeros (w - len row) ++ row ++ zeros 0);
      [cbn; rewrite app_nil_r; reflexivity|].
    rewrite placed_pad by lia. f_equal; lia.
  - destruct (j =? JUSTIFY_CENTER).
    + rewrite Z.quot_div_nonneg by lia.
      assert (0 <= (w - len row) / 2) by (apply Z.div_pos; lia).
      assert ((w - len row) / 2 <= w - len row)
        by (apply Z.div_le_upper_bound; lia).
      rewrite placed_pad by lia. f_equal; lia.
    + transitivity (zeros 0 ++ row ++ zeros (w - len row));
        [reflexivity|].
      rewrite placed_pad by lia. f_equal; lia.
Qed.

Lemma crop_columns_placed j w row :
  0 <= w < len row ->
  crop_columns j (len row - w) row = placed (justify_offset j w (len row)) w row.
Proof.
  intros H. unfold crop_columns, justify_offset, del_from, del_upto, slice_index.
  destruct (j =? JUSTIFY_RIGHT).
  - destruct (Z.ltb_spec (len row - w) 0) as [N|_]; [lia|].
    rewrite Z.min_l by lia.
    transitivity (firstn (Z.to_nat w) (skipn (Z.to_nat (len row - w)) row)).
    + symmetry. apply firstn_all2. rewrite length_skipn. unfold len in *. lia.
    + rewrite placed_crop by lia. f_equal; lia.
  - destruct (j =? JUSTIFY_CENTER).
    + set (e := len row - w).
      assert (E0 : 0 <= e / 2) by (apply Z.div_pos; lia).
      assert (E1 : e / 2 <= e) by (apply Z.div_le_upper_bound; lia).
      assert (E2 : 2 * (e / 2) <= e) by (apply Z.mul_div_le; lia).
      destruct (Z.ltb_spec (e / 2) 0) as [N|_]; [lia|].
      rewrite Z.min_l by lia.
      destruct (Z.ltb_spec (- (e - e / 2)) 0) as [_|N]; [|lia].
      replace (w - len row) with (- e) by lia.
      rewrite Z.quot_opp_l by lia. rewrite Z.quot_div_nonneg by lia.
      replace (Z.to_nat (Z.max 0 (len (skipn (Z.to_nat (e / 2)) row) + - (e - e / 2))))
        with (Z.to_nat w).
      * apply placed_crop; lia.
      * unfold len. rewrite length_skipn. unfold len in *. lia.
    + destruct (Z.ltb_spec (- (len row - w)) 0) as [_|N]; [|lia].
      replace (Z.to_nat (Z.max 0 (len row + - (len row - w)))) with (Z.to_nat w)
        by lia.
      transitivity (firstn (Z.to_nat w) (skipn (Z.to_nat 0) row));
        [reflexivity|].
      rewrite placed_crop by lia. reflexivity.
Qed.

(** Both column passes of [write_line] on rows of one width [l]. *)
Lemma fit_columns_placed j w l rows :
  rows <> [] -> 0 <= w -> Forall (fun r => len r = l) rows ->
  fit_columns j w rows = Ok (map (placed (justify_offset j w l) w) rows).
Proof.
  intros Hne Hw Hall. unfold fit_columns.
  destruct rows as [|r0 rows]; [congruence|].
  pose proof (Forall_inv Hall) as H0. cbn beta in H0. rewrite H0.
  rewrite Forall_forall in Hall.
  destruct (Z.gtb_spec (w - l) 0) as [G|G].
  - assert (E : map (pad_columns j (w - l)) (r0 :: rows)
                = map (placed (justify_offset j w l) w) (r0 :: rows)).
    { apply map_ext_in. intros r Hin. rewrite <- (Hall r Hin).
      apply pad_columns_placed. rewrite (Hall r Hin). lia. }
    rewrite E. cbn [map]. unfold len at 1. rewrite placed_length.
    destruct (Z.gtb_spec (Z.of_nat (Z.to_nat w) - w) 0) as [G'|_]; [lia|].
    reflexivity.
  - rewrite H0. f_equal.
    destruct (Z.gtb_spec (l - w) 0) as [G'|G'].
    + apply map_ext_in. intros r Hin. rewrite <- (Hall r Hin).
      apply crop_columns_placed. rewrite (Hall r Hin). lia.
    + assert (E : w = l) by lia.
      rewrite <- (map_id (r0 :: rows)) at 1.
      apply map_ext_in. intros r Hin. specialize (Hall r Hin).
      assert (O : justify_offset j w l = 0).
      { unfold justify_offset. rewrite E, Z.sub_diag.
        destruct (j =? JUSTIFY_RIGHT), (j =? JUSTIFY_CENTER); reflexivity. }
      rewrite O, E, <- Hall. apply placed_same.
Qed.

End PlaceFacts.

(** X12.  The two column passes of [write_line] bring every row of a
    text that is [l] columns wide to exactly the [w] columns of the
    line, whatever the justification, by padding with blank columns or
    by cropping.  The text starts at the left edge for left
    justification (and for any unknown justification value), ends flush
    with the right edge for right justification, and for center
    justification starts at column [(w - l) / 2] rounded towards zero,
    so that an odd column goes to the right both when padding and when
    cropping. *)
Theorem justification_places_text
    (justification w l : Z) (rows : list (list Z)) :
  rows <> [] -> 0 <= w -> Forall (fun r => len r = l) rows ->
  exists out,
    Lcd.fit_columns justification w rows = Ok out /\
    out = map (placed (justify_offset justification w l) w) rows /\
    Forall (fun r => len r = w) out /\
    (justification = Lcd.JUSTIFY_RIGHT ->
     justify_offset justification w l = w - l) /\
    (justification = Lcd.JUSTIFY_CENTER ->
     justify_offset justification w l = Z.quot (w - l) 2) /\
    (justification <> Lcd.JUSTIFY_RIGHT ->
     justification <> Lcd.JUSTIFY_CENTER ->
     justify_offset justification w l = 0).
Proof.
  intros Hne Hw Hall. eexists.
  split; [apply (fit_columns_placed justification w l rows Hne Hw Hall)|].
  split; [reflexivity|].
  split.
  - apply Forall_forall. intros r Hin. apply in_map_iff in Hin.
    destruct Hin as (r0 & <- & _). unfold len. rewrite placed_length. lia.
  - unfold justify_offset. repeat split.
    + intros ->. reflexivity.
    + intros ->. reflexivity.
    + intros N1 N2.
      destruct (Z.eqb_spec justification Lcd.JUSTIFY_RIGHT); [contradiction|].
      destruct (Z.eqb_spec justification Lcd.JUSTIFY_CENTER); [contradiction|].
      reflexivity.
Qed.

(** A row of five columns centered in a line of eight, and in a line of
    two. *)
Lemma justification_places_text_witness :
  Lcd.fit_columns Lcd.JUSTIFY_CENTER 8 [[1; 2; 3; 4; 5]]
  = Ok [[0; 1; 2; 3; 4; 5; 0; 0]] /\
  Lcd.fit_columns Lcd.JUSTIFY_CENTER 2 [[1; 2; 3; 4; 5]] = Ok [[2; 3]].
Proof.
  split.
  - destruct (justification_places_text Lcd.JUSTIFY_CENTER 8 5 [[1; 2; 3; 4; 5]])
      as (out & E & -> & _).
    + discriminate.
    + lia.
    + repeat constructor.
    + exact E.
  - destruct (justification_places_text Lcd.JUSTIFY_CENTER 2 5 [[1; 2; 3; 4; 5]])
      as (out & E & -> & _).
    + discriminate.
    + lia.
    + repeat constructor.
    + exact E.
Defined.
Section LineFacts.

Import Lcd.

Lemma list_as_bands {A : Type} (d : A) (l : list A) :
  l = map (fun b => nth b l d) (seq 0 (length l)).
Proof.
  induction l as [|x l IH]; [reflexivity|].
  cbn [length seq map nth]. f_equal.
  rewrite <- seq_shift, map_map. exact IH.
Qed.

Lemma nth_map_seq {A : Type} (f : nat -> A) (d : A) n b :
  (b < n)%nat -> nth b (map f (seq 0 n)) d = f b.
Proof.
  intros H. rewrite (nth_indep _ d (f 0%nat)) by (rewrite length_map, length_seq; lia).
  rewrite map_nth, seq_nth by lia. reflexivity.
Qed.

Lemma firstn_seq k : forall a n, firstn k (seq a n) = seq a (Nat.min k n).
Proof.
  induction k as [|k IH]; intros a [|n]; cbn; try reflexivity.
  rewrite IH. reflexivity.
Qed.

Lemma extend_rows_bands rows : forall seqChar,
  (length rows <= length seqChar)%nat ->
  extend_rows rows seqChar
  = Ok (map (fun b => nth b rows [] ++ nth b seqChar [])
            (seq 0 (length rows))).
Proof.
  induction rows as [|r rows IH]; intros seqChar Hl; [reflexivity|].
  destruct seqChar as [|c seqChar]; [cbn in Hl; lia|].
  cbn [extend_rows]. rewrite IH by (cbn in Hl; lia). cbn [bind].
  cbn [length seq map nth]. rewrite <- seq_shift, map_map. reflexivity.
Qed.

Lemma char_band_length scale b c :
  0 <= scale -> (b < Z.to_nat scale)%nat ->
  length (char_band scale b c) = Z.to_nat (6 * scale).
Proof.
  intros Hs Hb. unfold char_band.
  destruct (generate_char_sequence_shape c scale Hs) as (rows & E & Hl & Hr).
  rewrite E. rewrite Forall_forall in Hr.
  apply (Hr (nth b rows [])). apply nth_In. lia.
Qed.

Lemma text_band_length scale b chars :
  0 <= scale -> (b < Z.to_nat scale)%nat ->
  len (flat_map (char_band scale b) chars) = 6 * scale * len chars.
Proof.
  intros Hs Hb. induction chars as [|c chars IH]; [cbn; lia|].
  cbn [flat_map]. rewrite len_app, IH. unfold len at 1.
  rewrite char_band_length by assumption. unfold len. cbn [length]. lia.
Qed.

(** The [for c in str] loop: band [b] of the result is band [b] of what
    was there followed by band [b] of each character. *)
Lemma assemble_bands scale chars : 1 <= scale ->
  forall rows, length rows = Z.to_nat scale ->
  assemble chars scale rows
  = Ok (map (fun b => nth b rows [] ++ flat_map (char_band scale b) chars)
            (seq 0 (Z.to_nat scale))).
Proof.
  intros Hs. induction chars as [|c chars IH]; intros rows Hl.
  - cbn [assemble flat_map]. f_equal. rewrite <- Hl.
    rewrite (list_as_bands [] rows) at 1.
    apply map_ext. intros b. rewrite app_nil_r. reflexivity.
  - cbn [assemble flat_map].
    destruct (generate_char_sequence_shape c scale ltac:(lia))
      as (seqChar & E & Hn & _).
    rewrite E. cbn [bind].
    destruct (Z.leb_spec (len rows) 0) as [L|_]; [unfold len in L; lia|].
    rewrite extend_rows_bands by lia. cbn [bind].
    rewrite IH by (rewrite length_map, length_seq; lia).
    f_equal. apply map_ext_in. intros b Hb. apply in_seq in Hb.
    rewrite Hl.
    rewrite nth_map_seq by lia.
    rewrite <- app_assoc. unfold char_band at 2. rewrite E. reflexivity.
Qed.

(** The first character takes the place of the empty [seq]. *)
Lemma assemble_text_bands scale chars : 1 <= scale -> chars <> [] ->
  assemble chars scale []
  = Ok (map (fun b => flat_map (char_band scale b) chars)
            (seq 0 (Z.to_nat scale))).
Proof.
  intros Hs Hne. destruct chars as [|c chars]; [congruence|].
  cbn [assemble].
  destruct (generate_char_sequence_shape c scale ltac:(lia))
    as (seqChar & E & Hn & _).
  rewrite E. cbn [bind]. change (len (@nil (list Z)) <=? 0) with true.
  cbv iota. cbn [bind]. rewrite assemble_bands by assumption.
  f_equal. apply map_ext. intros b. cbn [flat_map].
  unfold char_band at 2. rewrite E. reflexivity.
Qed.

Lemma iter_advance_keeps_window x k s :
  window (Nat.iter k (advance x) s) = window s.
Proof. apply iter_advance_window. Qed.

(** The last loop of [write_line]: each row goes out as its chunks. *)
Lemma write_rows_wire rows : forall s,
  enabled s = true ->
  let s' := fold_left (fun st row => snd (write_data_sequence row st)) rows s in
  exists news,
    sent (bus s') = sent (bus s) ++ news /\
    map on_wire news = flat_map row_on_wire rows /\
    enabled s' = true /\ window s' = window s.
Proof.
  induction rows as [|row rows IH]; intros s He; cbn zeta.
  - exists []. cbn. rewrite app_nil_r. auto.
  - cbn [fold_left flat_map].
    destruct (write_chunks_spec DATA_BYTE (len row) (chunks 32 row) false s)
      as (n1 & S1 & _ & M1 & E1 & P1).
    cbn zeta in *.
    assert (Er : write_data_sequence row s
                 = fold_left (write_chunk DATA_BYTE (len row)) (chunks 32 row)
                             (false, s)).
    { unfold write_data_sequence, write_sequence. rewrite He. reflexivity. }
    rewrite <- Er in *.
    set (s1 := snd (write_data_sequence row s)) in *.
    destruct (IH s1 ltac:(congruence)) as (n2 & S2 & M2 & E2 & W2).
    cbn zeta in *.
    exists (n1 ++ n2). rewrite S2, S1, <- app_assoc, map_app, M1, M2, W2.
    refine (conj eq_refl (conj eq_refl (conj E2 _))).
    change (DATA_BYTE =? DATA_BYTE) with true in P1. cbv iota in P1.
    destruct P1 as [Pw _]. rewrite Pw. apply iter_advance_window.
Qed.

(** A window select that passes the checks, on an enabled driver. *)
Lemma set_print_area_wire c0 c1 r0 r1 s :
  enabled s = true ->
  0 <= c0 <= c1 -> c1 <= max_col_addr s ->
  0 <= r0 <= r1 -> r1 <= max_row_addr s ->
  let s' := snd (lcd_set_print_area c0 c1 r0 r1 s) in
  let ok := outcome (bus s) (length (sent (bus s))) in
  sent (bus s')
  = sent (bus s)
    ++ [mkTxn (hw_write_addr s) CONTROL_BYTE [0x21; c0; c1; 0x22; r0; r1] ok] /\
  enabled s' = true /\ window s' = (c0, c1, r0, r1) /\
  same_screen s s'.
Proof.
  intros He Hc Hc' Hr Hr'. cbn zeta.
  destruct (set_print_area_selects c0 c1 r0 r1 s Hc Hc' Hr Hr') as [Hw _].
  cbn zeta in Hw.
  split; [|split; [|split; [exact Hw | apply set_print_area_screen]]].
  - unfold lcd_set_print_area.
    replace ((c0 <? 0) || (c1 >? max_col_addr s) || (c1 <? c0))
      with false by (symmetry; rewrite !orb_false_iff; repeat split; lia).
    replace ((r0 <? 0) || (r1 >? max_row_addr s) || (r1 <? r0))
      with false by (symmetry; rewrite !orb_false_iff; repeat split; lia).
    destruct (write_sequence_one_chunk CONTROL_BYTE [0x21; c0; c1; 0x22; r0; r1]
                s He ltac:(cbn; lia)) as (A & _).
    cbn zeta in A. unfold write_control_sequence.
    destruct (write_sequence CONTROL_BYTE [33; c0; c1; 34; r0; r1] s)
      as [st s1]. cbn [snd] in *. rewrite <- A. destruct s1; reflexivity.
  - unfold lcd_set_print_area.
    replace ((c0 <? 0) || (c1 >? max_col_addr s) || (c1 <? c0))
      with false by (symmetry; rewrite !orb_false_iff; repeat split; lia).
    replace ((r0 <? 0) || (r1 >? max_row_addr s) || (r1 <? r0))
      with false by (symmetry; rewrite !orb_false_iff; repeat split; lia).
    destruct (write_sequence_one_chunk CONTROL_BYTE [0x21; c0; c1; 0x22; r0; r1]
                s He ltac:(cbn; lia)) as (_ & _ & A & _).
    cbn zeta in A. unfold write_control_sequence.
    destruct (write_sequence CONTROL_BYTE [33; c0; c1; 34; r0; r1] s)
      as [st s1]. cbn [snd] in *. rewrite <- A. destruct s1; reflexivity.
Qed.

Lemma flat_map_map {A B C : Type} (f : A -> B) (g : B -> list C) l :
  flat_map g (map f l) = flat_map (fun x => g (f x)) l.
Proof. induction l as [|x l IH]; cbn; [reflexivity|]. rewrite IH. reflexivity. Qed.

Lemma strlen_chars str : strlen str = len (list_ascii_of_string str).
Proof.
  unfold strlen, len. f_equal.
  induction str as [|c str IH]; cbn; [reflexivity|]. rewrite IH. reflexivity.
Qed.

(** [write_line] inside the screen, in full. *)
Lemma write_line_wire str row_start scale justification s :
  enabled s = true -> screen_ok s -> 1 <= scale ->
  min_row_addr s <= row_start <= max_row_addr s ->
  let text := if strlen str <=? 0 then " "%string else str in
  let bands := Z.min scale (max_row_addr s - row_start + 1) in
  let w := max_col_addr s - min_col_addr s + 1 in
  let off := justify_offset justification w (6 * scale * strlen text) in
  let select := [0x21; min_col_addr s; max_col_addr s;
                 0x22; row_start; row_start + bands - 1] in
  exists s',
    write_line str row_start scale justification s = Ok (1, s') /\
    window s'
    = (min_col_addr s, max_col_addr s, row_start, row_start + bands - 1) /\
    enabled s' = true /\ same_screen s s' /\
    exists news,
      sent (bus s') = sent (bus s) ++ news /\
      map on_wire news
      = (CONTROL_BYTE, select)
        :: flat_map (fun b => row_on_wire (placed off w (text_band text scale b)))
                    (seq 0 (Z.to_nat bands)).
Proof.
  intros He [[C0 C1] [R0 R1]] Hs Hr. cbn zeta. unfold write_line.
  destruct (Z.ltb_spec row_start (min_row_addr s)) as [L|_]; [lia|].
  destruct (Z.gtb_spec row_start (max_row_addr s)) as [L|_]; [lia|].
  cbn [orb].
  set (text := if strlen str <=? 0 then " "%string else str).
  set (bands := Z.min scale (max_row_addr s - row_start + 1)).
  assert (Hne : list_ascii_of_string text <> []).
  { unfold text. destruct (Z.leb_spec (strlen str) 0) as [L|L];
      [cbn; congruence|].
    destruct str; [cbn in L; lia | cbn; congruence]. }
  rewrite assemble_text_bands by assumption. cbn [bind].
  set (row_end := if row_start + scale - 1 >? max_row_addr s
                  then max_row_addr s else row_start + scale - 1).
  assert (Hend : row_end = row_start + bands - 1).
  { unfold row_end, bands.
    destruct (Z.gtb_spec (row_start + scale - 1) (max_row_addr s)); lia. }
  destruct (set_print_area_wire (min_col_addr s) (max_col_addr s)
              row_start row_end s He ltac:(lia) ltac:(lia) ltac:(lia) ltac:(lia))
    as (S1 & E1 & W1 & Sc1).
  cbn zeta in S1, E1, W1, Sc1.
  set (s1 := snd (lcd_set_print_area (min_col_addr s) (max_col_addr s)
                                     row_start row_end s)) in *.
  unfold window in W1. injection W1 as G0 G1 G2 G3.
  rewrite G0, G1, G2, G3.
  set (rows := map (fun b => flat_map (char_band scale b)
                                      (list_ascii_of_string text))
                   (seq 0 (Z.to_nat scale))).
  assert (Lrows : len rows = scale).
  { unfold len, rows. rewrite length_map, length_seq. lia. }
  unfold pad_rows. rewrite Lrows.
  replace (Z.to_nat (row_end - row_start + 1 - scale)) with 0%nat by lia.
  cbn [bind].
  assert (Hcut : del_from (row_end - row_start + 1) rows
                 = map (fun b => text_band text scale b)
                       (seq 0 (Z.to_nat bands))).
  { unfold del_from, slice_index.
    destruct (Z.ltb_spec (row_end - row_start + 1) 0) as [N|_]; [lia|].
    rewrite Lrows. unfold rows. rewrite firstn_map, firstn_seq.
    replace (Init.Nat.min (Z.to_nat (Z.min (row_end - row_start + 1) scale))
                          (Z.to_nat scale))
      with (Z.to_nat bands) by lia.
    reflexivity. }
  rewrite Hcut.
  rewrite (fit_columns_placed justification
             (max_col_addr s - min_col_addr s + 1)
             (6 * scale * strlen text)).
  - cbn [bind]. rewrite map_map.
    destruct (write_rows_wire
                (map (fun b => placed
                        (justify_offset justification
                           (max_col_addr s - min_col_addr s + 1)
                           (6 * scale * strlen text))
                        (max_col_addr s - min_col_addr s + 1)
                        (text_band text scale b))
                     (seq 0 (Z.to_nat bands))) s1 E1)
      as (news & S2 & M2 & E2 & W2).
    cbn zeta in S2, M2, E2, W2.
    eexists. split; [reflexivity|].
    split; [rewrite W2; unfold window; rewrite G0, G1, G2, G3, Hend; reflexivity|].
    split; [exact E2|].
    split.
    { destruct Sc1 as (A & B & C & D).
      set (s2 := fold_left _ _ s1) in *.
      assert (Sc2 : same_screen s1 s2).
      { unfold s2. clear. generalize s1.
        induction (map _ (seq 0 (Z.to_nat bands))) as [|r l IH]; intros s0.
        - apply same_screen_refl.
        - cbn [fold_left]. eapply same_screen_trans; [|apply IH].
          apply write_sequence_screen. }
      eapply same_screen_trans; [|exact Sc2]. repeat split; assumption. }
    eexists. split; [rewrite S2, S1, <- app_assoc; reflexivity|].
    cbn [app map on_wire txn_cmd txn_data]. rewrite M2, flat_map_map, Hend.
    reflexivity.
  - intros N. apply (f_equal (@length _)) in N.
    rewrite length_map, length_seq in N. cbn in N. lia.
  - lia.
  - apply Forall_forall. intros r Hin. apply in_map_iff in Hin.
    destruct Hin as (b & <- & Hb). apply in_seq in Hb.
    unfold text_band. rewrite text_band_length by lia.
    rewrite strlen_chars. reflexivity.
Qed.

End LineFacts.

(** X13.  What [write_line] puts on the bus.  On an enabled driver, for
    a row inside the screen and a scale of at least one, it returns 1
    after one window select for the whole width of the screen and the
    row bands [row_start] to [row_start + scale - 1], cut at the bottom
    of the screen, followed, band after band, by the data transactions
    of one row of pixels in chunks of at most 32 bytes.  Each row is as
    wide as the screen: band [b] of the rendered characters of the text
    side by side (a single space for an empty text), placed by the
    justification.  The window is left on the bands written. *)
Theorem write_line_sends_placed_text
    (str : string) (row_start scale justification : Z) (s : Lcd.t) :
  Lcd.enabled s = true -> screen_ok s -> 1 <= scale ->
  Lcd.min_row_addr s <= row_start <= Lcd.max_row_addr s ->
  let text := if Lcd.strlen str <=? 0 then " "%string else str in
  let bands := Z.min scale (Lcd.max_row_addr s - row_start + 1) in
  let w := Lcd.max_col_addr s - Lcd.min_col_addr s + 1 in
  let off := justify_offset justification w (6 * scale * Lcd.strlen text) in
  exists s',
    Lcd.write_line str row_start scale justification s = Ok (1, s') /\
    window s'
    = (Lcd.min_col_addr s, Lcd.max_col_addr s,
       row_start, row_start + bands - 1) /\
    map on_wire (new_txns s s')
    = (Lcd.CONTROL_BYTE,
       [0x21; Lcd.min_col_addr s; Lcd.max_col_addr s;
        0x22; row_start; row_start + bands - 1])
      :: flat_map
           (fun b => row_on_wire (placed off w (text_band text scale b)))
           (seq 0 (Z.to_nat bands)).
Proof.
  intros He Hs Hsc Hr.
  destruct (write_line_wire str row_start scale justification s He Hs Hsc Hr)
    as (s' & E & W & _ & _ & news & Hsent & Hm).
  cbn zeta. exists s'. split; [exact E|]. split; [exact W|].
  rewrite (new_txns_app s s' news Hsent). exact Hm.
Qed.

(** The letter A on the only row band of a screen of 13 columns: the
    five columns of the glyph and the blank one, then seven blank
    columns. *)
Lemma write_line_sends_placed_text_witness :
  exists s',
    Lcd.write_line "A" 0 1 Lcd.JUSTIFY_LEFT (screen_13x8 bus_up) = Ok (1, s') /\
    map on_wire (new_txns (screen_13x8 bus_up) s')
    = [(Lcd.CONTROL_BYTE, [0x21; 0; 12; 0x22; 0; 0]);
       (Lcd.DATA_BYTE, [0x7E; 0x11; 0x11; 0x11; 0x7E; 0; 0; 0; 0; 0; 0; 0; 0])].
Proof.
  destruct (write_line_sends_placed_text "A" 0 1 Lcd.JUSTIFY_LEFT
              (screen_13x8 bus_up) eq_refl)
    as (s' & E & _ & M).
  - unfold screen_ok. cbn. lia.
  - lia.
  - cbn. lia.
  - exists s'. split; [exact E | exact M].
Defined.

Section WrapMore.

Import Lcd.

Lemma strlen_append a b : strlen (a ++ b) = strlen a + strlen b.
Proof.
  unfold strlen. induction a as [|c a IH]; cbn [String.append String.length].
  - lia.
  - rewrite !Nat2Z.inj_succ. lia.
Qed.

Lemma wrap_step_inv cts maxWidth w0 st word :
  wrap_inv cts maxWidth w0 st ->
  let st' := wrap_step cts maxWidth st (word, 6 * strlen word) in
  wrap_inv cts maxWidth w0 st' /\
  (snd st' = true -> snd st = true \/ ~ line_fits cts maxWidth word).
Proof.
  destruct st as [[[lines currentLine] currentSize] flag].
  intros (init & l & -> & -> & -> & Htl & Hhd). cbn zeta.
  unfold wrap_step.
  destruct (Z.gtb_spec ((6 * strlen l + 6 * strlen word + 6) * cts) maxWidth)
    as [G|G].
  - (* the word opens a new line *)
    split.
    + exists (init ++ [l]), word.
      split; [reflexivity|]. split; [rewrite len_app; reflexivity|].
      split; [reflexivity|]. split.
      * intros Hf.
        destruct (Z.gtb_spec (6 * strlen word * cts) maxWidth) as [G'|G'];
          [discriminate|].
        specialize (Htl Hf).
        destruct init as [|i0 init]; cbn [app tl] in *.
        -- constructor; [exact G' | constructor].
        -- apply Forall_app. split; [exact Htl|].
           constructor; [exact G' | constructor].
      * destruct init; exact Hhd.
    + cbn [snd]. intros Hf.
      destruct (Z.gtb_spec (6 * strlen word * cts) maxWidth) as [G'|G'].
      * right. unfold line_fits. lia.
      * left. exact Hf.
  - (* the word joins the current line *)
    split; [|cbn [snd]; auto].
    unfold len. rewrite Nat2Z.id, update_at_last.
    exists init, (l ++ " " ++ word)%string.
    assert (Hs : 6 * strlen l + 6 * strlen word + 6
                 = 6 * strlen (l ++ " " ++ word)).
    { rewrite !strlen_append. change (strlen " ") with 1. lia. }
    assert (Hfit : line_fits cts maxWidth (l ++ " " ++ word)).
    { unfold line_fits. rewrite <- Hs. exact G. }
    split; [reflexivity|]. split; [reflexivity|]. split; [exact Hs|].
    split.
    + intros Hf. specialize (Htl Hf).
      destruct init as [|i0 init]; cbn [app tl] in *; [constructor|].
      apply Forall_app in Htl. destruct Htl as [Hi _].
      apply Forall_app. split; [exact Hi|].
      constructor; [exact Hfit | constructor].
    + destruct init as [|i0 init]; cbn [app hd] in *; [left; exact Hfit|].
      exact Hhd.
Qed.

Lemma wrap_fold_inv cts maxWidth w0 words : forall st,
  wrap_inv cts maxWidth w0 st ->
  let st' := fold_left (wrap_step cts maxWidth)
                       (combine words (map (fun w => 6 * strlen w) words)) st in
  wrap_inv cts maxWidth w0 st' /\
  (snd st' = true ->
   snd st = true \/ Exists (fun w => ~ line_fits cts maxWidth w) words).
Proof.
  induction words as [|w words IH]; intros st Hi; cbn zeta.
  - cbn. auto.
  - cbn [map combine fold_left].
    destruct (wrap_step_inv cts maxWidth w0 st w Hi) as [Hi1 Hf1].
    cbn zeta in Hi1, Hf1.
    destruct (IH _ Hi1) as [Hi2 Hf2]. cbn zeta in Hi2, Hf2.
    split; [exact Hi2|].
    intros Hf. destruct (Hf2 Hf) as [A|A].
    + destruct (Hf1 A) as [B|B]; [left; exact B|].
      right. constructor. exact B.
    + right. apply Exists_cons_tl. exact A.
Qed.

Lemma wrap_words_fit cts maxWidth words :
  words <> [] ->
  exists lines lineTooLong,
    wrap_words words (map (fun w => 6 * strlen w) words) cts maxWidth
    = Ok (lines, lineTooLong) /\
    lines <> [] /\
    (lineTooLong = false -> Forall (line_fits cts maxWidth) (tl lines)) /\
    (lineTooLong = true ->
     Exists (fun w => ~ line_fits cts maxWidth w) (tl words)) /\
    (line_fits cts maxWidth (hd EmptyString lines)
     \/ hd EmptyString lines = hd EmptyString words).
Proof.
  intros Hne. destruct words as [|w0 words]; [congruence|].
  cbn [map wrap_words tl hd].
  destruct (wrap_fold_inv cts maxWidth w0 words ([w0], 0, 6 * strlen w0, false))
    as [Hi Hf].
  { exists [], w0. cbn. repeat split; auto. }
  cbn zeta in Hi, Hf.
  destruct (fold_left _ _ _) as [[[lines currentLine] currentSize] flag].
  cbn [snd] in Hf.
  destruct Hi as (init & l & -> & _ & _ & Htl & Hhd).
  exists (init ++ [l]), flag. split; [reflexivity|].
  split; [destruct init; discriminate|].
  split; [exact Htl|]. split; [|exact Hhd].
  intros F. destruct (Hf F) as [A|A]; [discriminate | exact A].
Qed.

(** The search loop of [write_block], from scale [cur] down to
    [min_ts]. *)
Lemma fit_search_largest words maxWidth min_ts max_ts :
  words <> [] -> 1 <= min_ts ->
  let wordSizes := map (fun w => 6 * strlen w) words in
  forall fuel cur lines0 maxLines0,
  Z.of_nat fuel = cur - min_ts ->
  exists cts lines maxLines,
    fit_search fuel words wordSizes maxWidth min_ts max_ts cur lines0 maxLines0
    = Ok (cts, lines, maxLines) /\
    min_ts <= cts <= cur /\
    (forall c, cts < c < cur ->
       wrap_fits words wordSizes maxWidth max_ts c = false) /\
    (cts < cur ->
     maxLines = max_ts / cts /\
     (exists lineTooLong,
        wrap_words words wordSizes cts maxWidth = Ok (lines, lineTooLong)) /\
     (wrap_fits words wordSizes maxWidth max_ts cts = true \/ cts = min_ts)) /\
    (cts = cur -> lines = lines0 /\ maxLines = maxLines0 /\ cts = min_ts).
Proof.
  intros Hne Hmin wordSizes.
  induction fuel as [|fuel IH]; intros cur lines0 maxLines0 Hf.
  - cbn [fit_search]. exists cur, lines0, maxLines0.
    split; [reflexivity|]. split; [lia|]. split; [intros c Hc; lia|].
    split; [lia|]. intros _. repeat split; lia.
  - cbn [fit_search].
    destruct (Z.gtb_spec cur min_ts) as [G|G]; [|lia].
    destruct (Z.eqb_spec (cur - 1) 0) as [E|_]; [lia|].
    destruct (wrap_words_fit (cur - 1) maxWidth words Hne)
      as (lines & flag & Ew & _).
    fold wordSizes in Ew. rewrite Ew. cbn [bind].
    assert (Hfit : wrap_fits words wordSizes maxWidth max_ts (cur - 1)
                   = (len lines <=? max_ts / (cur - 1)) && negb flag).
    { unfold wrap_fits. rewrite Ew. reflexivity. }
    destruct ((len lines <=? max_ts / (cur - 1)) && negb flag) eqn:Ec.
    + exists (cur - 1), lines, (max_ts / (cur - 1)).
      split; [reflexivity|]. split; [lia|]. split; [intros c Hc; lia|].
      split; [|lia]. intros _. split; [reflexivity|].
      split; [exists flag; exact Ew|]. left. exact Hfit.
    + destruct (IH (cur - 1) lines (max_ts / (cur - 1)) ltac:(lia))
        as (cts & lines' & ml & E & Hb & Hno & Hlt & Heq).
      exists cts, lines', ml. split; [exact E|]. split; [lia|].
      split.
      { intros c Hc. destruct (Z.eq_dec c (cur - 1)) as [->|N];
          [exact Hfit | apply Hno; lia]. }
      split; [|lia]. intros _.
      destruct (Z.eq_dec cts (cur - 1)) as [Ecur|Ncur].
      * destruct (Heq Ecur) as (-> & -> & Em).
        rewrite Ecur. split; [reflexivity|].
        split; [exists flag; exact Ew|]. right. lia.
      * apply Hlt. lia.
Qed.

End WrapMore.

(** X14.  The wrapping pass of [write_block] at one scale, on the words
    of a text with the widths [write_block] gives them: it returns, and
    unless it raises the too-long flag every line after the first fits
    the width of the screen at that scale.  The flag is raised only for
    a word other than the first that is too wide on its own.  The first
    word is never checked: the first line fits, or it is the first word
    alone. *)
Theorem wrapped_lines_fit_unless_flagged
    (words : list string) (currentTextSize maxWidth : Z) :
  words <> [] ->
  exists lines lineTooLong,
    Lcd.wrap_words words (map (fun w => 6 * Lcd.strlen w) words)
                   currentTextSize maxWidth
    = Ok (lines, lineTooLong) /\
    (lineTooLong = false ->
     Forall (line_fits currentTextSize maxWidth) (tl lines)) /\
    (lineTooLong = true ->
     Exists (fun w => ~ line_fits currentTextSize maxWidth w) (tl words)) /\
    (line_fits currentTextSize maxWidth (hd EmptyString lines)
     \/ hd EmptyString lines = hd EmptyString words).
Proof.
  intros Hne.
  destruct (wrap_words_fit currentTextSize maxWidth words Hne)
    as (lines & flag & E & _ & H1 & H2 & H3).
  exists lines, flag. auto.
Qed.

(** A first word of seven characters on a line of 30 pixels: it is
    wider than the line, the flag stays down and the second line
    fits. *)
Lemma wrapped_lines_fit_unless_flagged_witness :
  ["toolong"; "ab"]%string <> [] /\
  Lcd.wrap_words ["toolong"; "ab"]%string [42; 12] 1 30
  = Ok (["toolong"; "ab"]%string, false) /\
  Forall (line_fits 1 30) ["ab"%string] /\
  ~ line_fits 1 30 "toolong".
Proof.
  split; [discriminate|].
  destruct (wrapped_lines_fit_unless_flagged ["toolong"; "ab"]%string 1 30)
    as (lines & flag & E & Hfit & _).
  - discriminate.
  - cbn in E. injection E as <- <-.
    split; [reflexivity|]. split; [exact (Hfit eq_refl)|].
    unfold line_fits. cbn. lia.
Defined.

(** X15.  The search loop of [write_block] tries the scales
    [max_text_size - 1] down to [min_text_size] and stops at the first
    one at which the wrapped text has at most [max_text_size / scale]
    lines and no word flagged as too long.  So the scale it returns is
    the largest scale below [max_text_size] that passes this test, or
    [min_text_size] when none does, and the lines it returns are the
    wrapping at that scale.  The scale [max_text_size] itself is never
    tried. *)
Theorem fit_search_takes_largest_scale
    (words : list string) (maxWidth min_text_size max_text_size : Z) :
  words <> [] -> 1 <= min_text_size -> min_text_size < max_text_size ->
  let wordSizes := map (fun w => 6 * Lcd.strlen w) words in
  exists currentTextSize lines lineTooLong,
    Lcd.fit_search (Z.to_nat (max_text_size - min_text_size)) words wordSizes
                   maxWidth min_text_size max_text_size max_text_size [] 0
    = Ok (currentTextSize, lines, max_text_size / currentTextSize) /\
    Lcd.wrap_words words wordSizes currentTextSize maxWidth
    = Ok (lines, lineTooLong) /\
    min_text_size <= currentTextSize < max_text_size /\
    (wrap_fits words wordSizes maxWidth max_text_size currentTextSize = true
     \/ currentTextSize = min_text_size) /\
    (forall c, currentTextSize < c < max_text_size ->
       wrap_fits words wordSizes maxWidth max_text_size c = false).
Proof.
  intros Hne Hmin Hlt wordSizes.
  destruct (fit_search_largest words maxWidth min_text_size max_text_size
              Hne Hmin (Z.to_nat (max_text_size - min_text_size))
              max_text_size [] 0 ltac:(lia))
    as (cts & lines & ml & E & Hb & Hno & Hl & Heq).
  fold wordSizes in E, Hno, Hl.
  assert (Hc : cts < max_text_size).
  { destruct (Z.eq_dec cts max_text_size) as [Ec|Nc]; [|lia].
    destruct (Heq Ec) as (_ & _ & Em). lia. }
  destruct (Hl Hc) as (-> & (flag & Ew) & Hf).
  exists cts, lines, flag.
  split; [exact E|]. split; [exact Ew|]. split; [lia|].
  split; [exact Hf | exact Hno].
Qed.

(** Three words on a line of 40 pixels, between the scales 1 and 4:
    scale 3 fails, scale 2 is taken. *)
Lemma fit_search_takes_largest_scale_witness :
  exists lines,
    Lcd.fit_search 3 ["a"; "b"; "c"]%string [6; 6; 6] 40 1 4 4 [] 0
    = Ok (2, lines, 2) /\
    wrap_fits ["a"; "b"; "c"]%string [6; 6; 6] 40 4 3 = false.
Proof.
  destruct (fit_search_takes_largest_scale ["a"; "b"; "c"]%string 40 1 4)
    as (cts & lines & flag & E & _ & _ & _ & Hno).
  - discriminate.
  - lia.
  - lia.
  - exists lines.
    assert (Ec : cts = 2).
    { cbn in E. injection E as E1 _ _. symmetry. exact E1. }
    subst cts. split; [exact E|]. apply (Hno 3). lia.
Defined.
Section BlockFacts.

Import Lcd.

Lemma blank_lines_snoc k :
  repeat EmptyString k ++ [EmptyString] = EmptyString :: repeat EmptyString k.
Proof. induction k as [|k IH]; cbn; [reflexivity|]. rewrite IH. reflexivity. Qed.

(** The centering loop adds [k] blank lines at both ends, [k] being
    half of the lines to spare. *)
Lemma center_lines_blank maxLines : forall fuel lines,
  (maxLines - len lines) / 2 <= Z.of_nat fuel ->
  center_lines fuel maxLines lines
  = repeat EmptyString (Z.to_nat ((maxLines - len lines) / 2))
    ++ lines
    ++ repeat EmptyString (Z.to_nat ((maxLines - len lines) / 2)).
Proof.
  induction fuel as [|fuel IH]; intros lines Hf.
  - cbn [center_lines].
    replace (Z.to_nat ((maxLines - len lines) / 2)) with 0%nat by lia.
    cbn. rewrite app_nil_r. reflexivity.
  - cbn [center_lines].
    destruct (Z.leb_spec (len lines + 2) maxLines) as [L|L].
    + assert (Hl : len ((EmptyString :: lines) ++ [EmptyString]) = len lines + 2).
      { unfold len. rewrite length_app. cbn [length]. lia. }
      assert (Hk : (maxLines - len lines) / 2
                   = (maxLines - (len lines + 2)) / 2 + 1).
      { replace (maxLines - len lines)
          with (maxLines - (len lines + 2) + 1 * 2) by lia.
        apply Z.div_add. lia. }
      rewrite IH by (rewrite Hl; lia). rewrite Hl, Hk.
      assert (0 <= (maxLines - (len lines + 2)) / 2)
        by (apply Z.div_pos; lia).
      rewrite Z2Nat.inj_add by lia. change (Z.to_nat 1) with 1%nat.
      rewrite Nat.add_1_r. cbn [repeat].
      set (k := Z.to_nat ((maxLines - (len lines + 2)) / 2)).
      change (EmptyString :: repeat EmptyString k)
        with ([EmptyString] ++ repeat EmptyString k) at 2.
      rewrite <- blank_lines_snoc at 1.
      rewrite <- !app_assoc. reflexivity.
    + assert ((maxLines - len lines) / 2 <= 0).
      { apply Z.lt_succ_r. apply Z.div_lt_upper_bound; lia. }
      replace (Z.to_nat ((maxLines - len lines) / 2)) with 0%nat by lia.
      cbn. rewrite app_nil_r. reflexivity.
Qed.

End BlockFacts.

(** X16.  The centering loop of [write_block] puts the same number of
    blank lines above and below the wrapped lines: half of the lines
    that are to spare, rounded down, on each side, so that an odd spare
    line is left at the bottom.  Nothing is added when the lines already
    fill the block or exceed it. *)
Theorem centering_adds_equal_blank_lines
    (maxLines : Z) (lines : list string) :
  let k := Z.to_nat ((maxLines - len lines) / 2) in
  Lcd.center_lines (Z.to_nat maxLines) maxLines lines
  = repeat EmptyString k ++ lines ++ repeat EmptyString k /\
  (maxLines < len lines + 2 ->
   Lcd.center_lines (Z.to_nat maxLines) maxLines lines = lines).
Proof.
  cbn zeta.
  assert (Hf : (maxLines - len lines) / 2 <= Z.of_nat (Z.to_nat maxLines)).
  { assert (0 <= len lines) by (unfold len; lia).
    destruct (Z.le_gt_cases 0 maxLines) as [P|N].
    - apply Z.le_trans with maxLines; [|lia].
      apply Z.div_le_upper_bound; lia.
    - assert ((maxLines - len lines) / 2 < 0)
        by (apply Z.div_lt_upper_bound; lia).
      lia. }
  split; [apply center_lines_blank, Hf|].
  intros Hs. rewrite center_lines_blank by exact Hf.
  assert ((maxLines - len lines) / 2 <= 0).
  { apply Z.lt_succ_r. apply Z.div_lt_upper_bound; lia. }
  replace (Z.to_nat ((maxLines - len lines) / 2)) with 0%nat by lia.
  cbn. apply app_nil_r.
Qed.

Section StatusFacts.

Import LcdPlugin.





















End StatusFacts.


Section StopFacts.

Import LcdPlugin.

Lemma set_power_quiet s0 on s :
  quiet s0 s -> quiet s0 (snd (Lcd.set_power on s)).
Proof.
  intros Hq. destruct (set_power_effect on s) as (_ & Hd & _).
  cbn zeta in Hd. rewrite (Hd (proj1 Hq)). exact Hq.
Qed.

Lemma wake_display_quiet s0 clock p :
  quiet s0 (lcd p) -> quiet s0 (lcd (wake_display clock p)).
Proof.
  intros Hq. unfold wake_display.
  destruct p as [l lw ls e i r q d cc t a]. cbn in *.
  destruct i; cbn; [apply set_power_quiet|]; exact Hq.
Qed.

Lemma display_idled_quiet s0 p :
  quiet s0 (lcd p) -> quiet s0 (lcd (display_idled p)).
Proof.
  intros Hq. unfold display_idled. destruct p; cbn in *.
  apply set_power_quiet, Hq.
Qed.

Lemma check_idle_timeout_quiet s0 clock p :
  quiet s0 (lcd p) -> quiet s0 (lcd (check_idle_timeout clock p)).
Proof.
  intros Hq. unfold check_idle_timeout.
  destruct (idle_entry_time p); [|exact Hq].
  destruct (_ && _); [apply display_idled_quiet|]; exact Hq.
Qed.

Lemma write_lines_quiet s0 calls : forall l l',
  quiet s0 l -> write_lines calls l = Ok l' -> quiet s0 l'.
Proof.
  induction calls as [|[[[text row] size] j] calls IH]; intros l l' Hq;
    cbn [write_lines].
  - intros H. injection H as <-. exact Hq.
  - destruct (Lcd.write_line text row size j l) as [[n l1]|e] eqn:E;
      cbn [bind]; [|discriminate].
    apply IH. exact (write_line_quiet s0 _ _ _ _ _ _ _ Hq E).
Qed.

Lemma refresh_quiet s0 wake reset_sub k draw clock p p1 :
  (forall l l', quiet s0 l -> draw l = Ok l' -> quiet s0 l') ->
  quiet s0 (lcd p) ->
  refresh wake reset_sub k draw clock p = Ok p1 -> quiet s0 (lcd p1).
Proof.
  intros Hd Hq. unfold refresh. destruct (String.eqb (last_write p) k).
  - intros H. injection H as <-. exact Hq.
  - set (pw := if wake then wake_display clock p else p).
    assert (Hw : quiet s0 (lcd pw))
      by (unfold pw; destruct wake; [apply wake_display_quiet|]; exact Hq).
    destruct (draw (lcd pw)) as [l|e] eqn:E; cbn [bind]; [|discriminate].
    intros H. injection H as <-.
    pose proof (Hd _ _ Hw E) as Hl.
    destruct reset_sub; destruct pw; exact Hl.
Qed.

Lemma refresh_sub_quiet s0 k text p p1 :
  quiet s0 (lcd p) -> refresh_sub k text p = Ok p1 -> quiet s0 (lcd p1).
Proof.
  intros Hq. unfold refresh_sub. destruct (String.eqb (last_sub_val p) k).
  - intros H. injection H as <-. exact Hq.
  - destruct (write_lines _ (lcd p)) as [l|e] eqn:E; cbn [bind]; [|discriminate].
    intros H. injection H as <-.
    pose proof (write_lines_quiet s0 _ _ _ Hq E) as Hl.
    destruct p; exact Hl.
Qed.

Ltac quiet_screen s0 clock p Hq :=
  match goal with
  | |- context [refresh ?w ?r ?k ?d clock p] =>
      let pa := fresh "pa" in
      let E1 := fresh "E1" in
      let H := fresh "H" in
      destruct (refresh w r k d clock p) as [pa|?] eqn:E1;
      cbn [bind]; [|discriminate];
      assert (H : quiet s0 (lcd pa));
      [apply (refresh_quiet s0 _ _ _ _ _ _ _ (write_lines_quiet s0 _) Hq E1)|]
  end.

Ltac quiet_sub s0 pa Hq :=
  match goal with
  | |- context [refresh_sub ?k ?t pa] =>
      let pb := fresh "pb" in
      let E2 := fresh "E2" in
      let H := fresh "H" in
      destruct (refresh_sub k t pa) as [pb|?] eqn:E2;
      cbn [bind]; [|discriminate];
      pose proof (refresh_sub_quiet s0 _ _ _ _ Hq E2) as H
  end.

Lemma display_idle_quiet s0 g clock prg p p1 :
  quiet s0 (lcd p) -> display_idle g clock prg p = Ok p1 -> quiet s0 (lcd p1).
Proof.
  intros Hq. unfold display_idle.
  destruct (negb (truthy (Gv.sd_en g))).
  { quiet_screen s0 clock p Hq. intros E. injection E as <-.
    apply check_idle_timeout_quiet. assumption. }
  destruct (truthy (Gv.sd_mm g)).
  { quiet_screen s0 clock p Hq. intros E. injection E as <-.
    apply check_idle_timeout_quiet. assumption. }
  destruct (truthy (Gv.sd_rd g)); [|destruct (Gv.sd_wl g <? 100)];
    quiet_screen s0 clock p Hq;
    match goal with
    | Hpa : quiet s0 (lcd ?pa) |- _ => quiet_sub s0 pa Hpa
    end;
    intros E; injection E as <-;
    apply check_idle_timeout_quiet; assumption.
Qed.

Lemma display_running_quiet s0 g clock prg p prg' p1 :
  quiet s0 (lcd p) ->
  display_running g clock prg p = Ok (prg', p1) -> quiet s0 (lcd p1).
Proof.
  intros Hq. unfold display_running.
  pose proof (wake_display_quiet s0 clock p Hq) as Hw.
  set (pw := wake_display clock p) in *. clearbody pw.
  destruct (scan_stations g 0 (Gv.ps g) (false, 0, EmptyString))
    as [[[programRunning stationDuration] s]|e]; cbn [bind]; [|discriminate].
  destruct (Lcd.strlen s =? 0).
  - destruct programRunning.
    + destruct (Gv.pon g) as [n|];
        repeat match goal with
               | |- context [match ?x with _ => _ end] => is_var x; destruct x
               end;
        quiet_screen s0 clock pw Hw;
        intros E; injection E as _ <-; assumption.
    + intros E. injection E as _ <-. exact Hw.
  - match goal with
    | |- context [refresh ?w ?r ?k ?d clock pw] =>
        destruct (refresh w r k d clock pw) as [pa|?] eqn:E1;
        cbn [bind]; [|discriminate];
        assert (Ha : quiet s0 (lcd pa))
    end.
    { refine (refresh_quiet s0 _ _ _ _ _ _ _ _ Hw E1).
      intros l l' Hl.
      destruct (Lcd.write_block s 0 1 5 Lcd.JUSTIFY_CENTER l) as [[n l1]|e] eqn:E;
        cbn [bind]; [|discriminate].
      apply write_lines_quiet.
      exact (write_block_quiet s0 _ _ _ _ _ _ _ _ Hl E). }
    quiet_sub s0 pa Ha. intros E. injection E as _ <-. assumption.
Qed.

Lemma display_normal_quiet s0 g clock p p1 :
  quiet s0 (lcd p) -> display_normal g clock p = Ok p1 -> quiet s0 (lcd p1).
Proof.
  intros Hq. unfold display_normal.
  set (prg := match Gv.pon g with None => _ | Some _ => _ end). clearbody prg.
  set (p0 := if displaying_custom p then _ else p).
  assert (H0 : quiet s0 (lcd p0)).
  { unfold p0. destruct (displaying_custom p); [|exact Hq].
    apply wake_display_quiet. destruct p; exact Hq. }
  clearbody p0.
  destruct (String.eqb prg "Idle") eqn:Ep; cbn [negb bind].
  - rewrite Ep. apply display_idle_quiet, H0.
  - destruct (display_running g clock prg p0) as [[prg' pa]|e] eqn:Er;
      cbn [bind]; [|discriminate].
    pose proof (display_running_quiet s0 _ _ _ _ _ _ H0 Er) as Ha.
    destruct (String.eqb prg' "Idle").
    + apply display_idle_quiet, Ha.
    + intros E. injection E as <-. exact Ha.
Qed.

Lemma display_item_quiet s0 now item p d p1 :
  quiet s0 (lcd p) -> display_item now item p = Ok (d, p1) ->
  quiet s0 (lcd p1).
Proof.
  intros Hq. unfold display_item.
  destruct (negb (get (kw_cancel item) false)).
  - match goal with
    | |- context [Lcd.write_block ?a ?b ?c ?d ?e ?l] =>
        assert (Hl : quiet s0 l);
        [|destruct (Lcd.write_block a b c d e l) as [[n l2]|?] eqn:E;
          cbn [bind]; [|discriminate]]
    end.
    { destruct (negb _); [|exact Hq]. apply clear_quiet, Hq. }
    intros H. injection H as _ <-.
    pose proof (write_block_quiet s0 _ _ _ _ _ _ _ _ Hl E) as H2.
    match goal with
    | |- quiet s0 (lcd (with_custom_display_canceled false ?x)) =>
        assert (Hx : quiet s0 (lcd x));
        [|destruct x; exact Hx]
    end.
    apply wake_display_quiet. destruct p; exact H2.
  - intros H. injection H as _ <-. destruct p; exact Hq.
Qed.

Lemma display_custom_loop_quiet s0 now : forall fuel delay p d p1,
  quiet s0 (lcd p) ->
  display_custom_loop fuel now delay p = Ok (d, p1) -> quiet s0 (lcd p1).
Proof.
  induction fuel as [|fuel IH]; intros delay p d p1 Hq; cbn [display_custom_loop].
  - destruct (pop (custom_display_queue p)); destruct delay;
      try discriminate; intros H; injection H as _ <-; exact Hq.
  - destruct (pop (custom_display_queue p)) as [[item q]|].
    + destruct (display_item now item (with_queue q p)) as [[d1 pa]|e] eqn:E;
        cbn [bind]; [|discriminate].
      apply IH.
      assert (Hq' : quiet s0 (lcd (with_queue q p))) by (destruct p; exact Hq).
      exact (display_item_quiet s0 _ _ _ _ _ Hq' E).
    + destruct delay; try discriminate. intros H; injection H as _ <-; exact Hq.
Qed.

(** One pass of the loop of [run] on a disabled driver. *)
Lemma tick_quiet s0 g clock p w p1 :
  quiet s0 (lcd p) -> tick g clock p = Ok (w, p1) -> quiet s0 (lcd p1).
Proof.
  intros Hq. unfold tick, run_tick, display_custom.
  destruct (custom_display_queue p) eqn:Eq.
  - destruct (display_normal g clock p) as [pa|e] eqn:E; cbn [bind];
      [|discriminate].
    intros H. injection H as _ <-.
    exact (display_normal_quiet s0 _ _ _ _ Hq E).
  - apply display_custom_loop_quiet, Hq.
Qed.

(** [disable] in short: the driver is disabled afterwards, with at
    most one transaction sent, and a second call changes nothing. *)
Lemma disable_effect (s : Lcd.t) :
  Lcd.enabled (Lcd.disable s) = false /\
  (length (new_txns s (Lcd.disable s)) <= 1)%nat /\
  Lcd.disable (Lcd.disable s) = Lcd.disable s.
Proof.
  unfold Lcd.disable, Lcd.force_power_off, Lcd.write_control_byte,
    Lcd.bus_write, Lcd.note_failure, new_txns.
  destruct s as [a [o l] c0 c1 r0 r1 g0 g1 g2 g3 cc cr wf ps en]. cbn.
  destruct en, (o (length l)), wf; cbn;
    rewrite ?skipn_app, ?Nat.sub_diag, ?skipn_all; cbn;
    repeat split; lia.
Qed.

End StopFacts.

(** X18.  [stop], and with it [notify_restart], ends the display for
    good: the scheduler is marked as not running and the driver is
    disabled, after at most one bus transaction, the forced power-off.
    From then on nothing reaches the bus: not a pass of the loop of
    [run], whether it shows the status or serves queued requests, not a
    wake signal and not a second stop, which changes nothing at all. *)
Theorem stopped_display_stays_silent
    (g : Gv.t) (clock : Z) (p : LcdPlugin.t) :
  let p' := LcdPlugin.notify_restart p in
  LcdPlugin.running p' = false /\
  Lcd.enabled (LcdPlugin.lcd p') = false /\
  (length (new_txns (LcdPlugin.lcd p) (LcdPlugin.lcd p')) <= 1)%nat /\
  (forall w p'',
     LcdPlugin.tick g clock p' = Ok (w, p'') ->
     sent (Lcd.bus (LcdPlugin.lcd p'')) = sent (Lcd.bus (LcdPlugin.lcd p'))) /\
  sent (Lcd.bus (LcdPlugin.lcd (LcdPlugin.wake_signal clock p')))
  = sent (Lcd.bus (LcdPlugin.lcd p')) /\
  LcdPlugin.stop p' = p'.
Proof.
  cbn zeta. unfold LcdPlugin.notify_restart.
  destruct (disable_effect (LcdPlugin.lcd p)) as (De & Dn & Dd).
  assert (Hl : LcdPlugin.lcd (LcdPlugin.stop p) = Lcd.disable (LcdPlugin.lcd p))
    by (destruct p; reflexivity).
  assert (He : Lcd.enabled (LcdPlugin.lcd (LcdPlugin.stop p)) = false)
    by (rewrite Hl; exact De).
  pose proof (quiet_refl _ He) as Hq.
  split; [destruct p; reflexivity|]. split; [exact He|].
  split; [rewrite Hl; exact Dn|].
  split.
  { intros w p'' E.
    destruct (tick_quiet _ g clock _ w p'' Hq E) as [_ Hb].
    rewrite Hb. reflexivity. }
  split.
  { destruct (wake_display_quiet _ clock _ Hq) as [_ Hb].
    unfold LcdPlugin.wake_signal. rewrite Hb. reflexivity. }
  unfold LcdPlugin.stop. destruct p as [l lw ls e i r q d cc t a]. cbn in *.
  rewrite Dd. reflexivity.
Qed.
Section ClockFacts.

Import LcdPlugin.

Lemma py_str_digit_length :
  forallb (fun n => Lcd.strlen (py_str n) =? 1) (Lcd.range 10) = true.
Proof. vm_compute. reflexivity. Qed.

Lemma py_str_hour_length :
  forallb (fun n => (1 <=? Lcd.strlen (py_str n))
                    && (Lcd.strlen (py_str n) <=? 2)) (Lcd.range 24) = true.
Proof. vm_compute. reflexivity. Qed.

Lemma in_range n k : 0 <= k < n -> In k (Lcd.range n).
Proof.
  intros Hk. unfold Lcd.range. apply in_map_iff.
  exists (Z.to_nat k). split; [lia | apply in_seq; lia].
Qed.

Lemma strlen_digit n : 0 <= n <= 9 -> Lcd.strlen (py_str n) = 1.
Proof.
  intros H. pose proof py_str_digit_length as T.
  rewrite forallb_forall in T. specialize (T n (in_range 10 n ltac:(lia))).
  apply Z.eqb_eq in T. exact T.
Qed.

Lemma strlen_hour n : 0 <= n <= 23 -> 1 <= Lcd.strlen (py_str n) <= 2.
Proof.
  intros H. pose proof py_str_hour_length as T.
  rewrite forallb_forall in T. specialize (T n (in_range 24 n ltac:(lia))).
  apply andb_true_iff in T. destruct T as [A B].
  apply Z.leb_le in A, B. lia.
Qed.

Lemma str_append_empty (a : string) : (a ++ "")%string = a.
Proof. induction a as [|c a IH]; cbn; [reflexivity|]. rewrite IH. reflexivity. Qed.

End ClockFacts.

(** X19.  [_get_time_string] for a clock time of [h] hours (0 to 23) and
    [m] minutes (0 to 59).  With the 24-hour setting it is the hour as
    it stands, a colon and the minutes on two digits.  Otherwise it is
    the hour of the 12-hour clock, which is [(h + 11) mod 12 + 1] and so
    between 1 and 12, the same minutes, and AM before noon and PM from
    noon on.  The string has between 4 and 8 characters. *)
Theorem time_string_is_clock_time (g : Gv.t) :
  0 <= Gv.nowt_hour g <= 23 -> 0 <= Gv.nowt_min g <= 59 ->
  let h := Gv.nowt_hour g in
  let m := Gv.nowt_min g in
  let minutes := (py_str (m / 10) ++ py_str (m mod 10))%string in
  let h12 := (h + 11) mod 12 + 1 in
  LcdPlugin.get_time_string g
  = (if truthy (Gv.sd_tf g)
     then py_str h ++ ":" ++ minutes
     else py_str h12 ++ ":" ++ minutes
          ++ (if (h <? 12)%Z then " AM" else " PM"))%string /\
  1 <= h12 <= 12 /\
  4 <= Lcd.strlen (LcdPlugin.get_time_string g) <= 8.
Proof.
  intros Hh Hm. cbn zeta.
  set (h := Gv.nowt_hour g) in *. set (m := Gv.nowt_min g) in *.
  assert (H12 : 1 <= (h + 11) mod 12 + 1 <= 12)
    by (pose proof (Z.mod_pos_bound (h + 11) 12 ltac:(lia)); lia).
  assert (Eq : LcdPlugin.get_time_string g
               = (if truthy (Gv.sd_tf g)
                  then py_str h ++ ":" ++ py_str (m / 10) ++ py_str (m mod 10)
                  else py_str ((h + 11) mod 12 + 1) ++ ":"
                       ++ (py_str (m / 10) ++ py_str (m mod 10))
                       ++ (if (h <? 12)%Z then " AM" else " PM"))%string).
  { unfold LcdPlugin.get_time_string. fold h m. rewrite !Z.shiftr_0_r.
    destruct (truthy (Gv.sd_tf g)); cbn [negb].
    - rewrite str_append_empty. reflexivity.
    - destruct (Z.eqb_spec h 0) as [E0|N0].
      + replace ((h + 11) mod 12) with 11
          by (apply Z.mod_unique with (q := 0); lia).
        destruct (Z.ltb_spec h 12); [|lia]. reflexivity.
      + destruct (Z.eqb_spec h 12) as [E12|N12].
        * replace ((h + 11) mod 12) with 11
            by (apply Z.mod_unique with (q := 1); lia).
          destruct (Z.ltb_spec h 12); [lia|]. rewrite E12. reflexivity.
        * destruct (Z.gtb_spec h 12) as [G|G].
          -- replace ((h + 11) mod 12) with (h - 13)
               by (apply Z.mod_unique with (q := 2); lia).
             destruct (Z.ltb_spec h 12); [lia|].
             replace (h - 13 + 1) with (h - 12) by lia. reflexivity.
          -- replace ((h + 11) mod 12) with (h - 1)
               by (apply Z.mod_unique with (q := 1); lia).
             destruct (Z.ltb_spec h 12); [|lia].
             replace (h - 1 + 1) with h by lia. reflexivity. }
  split; [rewrite Eq; destruct (truthy (Gv.sd_tf g)); reflexivity|].
  split; [exact H12|].
  rewrite Eq.
  assert (D1 : Lcd.strlen (py_str (m / 10)) = 1).
  { apply strlen_digit. split; [apply Z.div_pos; lia|].
    apply Z.lt_succ_r. apply Z.div_lt_upper_bound; lia. }
  assert (D2 : Lcd.strlen (py_str (m mod 10)) = 1).
  { apply strlen_digit. pose proof (Z.mod_pos_bound m 10 ltac:(lia)). lia. }
  destruct (truthy (Gv.sd_tf g)).
  - rewrite !strlen_append, D1, D2. change (Lcd.strlen ":") with 1.
    pose proof (strlen_hour h Hh). lia.
  - rewrite !strlen_append, D1, D2. change (Lcd.strlen ":") with 1.
    pose proof (strlen_hour ((h + 11) mod 12 + 1) ltac:(lia)).
    destruct (h <? 12); [change (Lcd.strlen " AM") with 3
                        | change (Lcd.strlen " PM") with 3]; lia.
Qed.

(** Five past midnight on the 12-hour clock. *)
Lemma time_string_is_clock_time_witness :
  LcdPlugin.get_time_string (Gv.mk None [] [] 0 1 0 0 0 100 0 0 0 5)
  = "12:05 AM"%string.
Proof.
  destruct (time_string_is_clock_time (Gv.mk None [] [] 0 1 0 0 0 100 0 0 0 5))
    as (E & _).
  - cbn. lia.
  - cbn. lia.
  - exact E.
Defined.
Section RequestFacts.

Import LcdPlugin.




End RequestFacts.


